(** * mailgun-optin-cli: the bulk-send pipeline, embedded and verified

    A shallow embedding of the JavaScript sources of the mailer
    (csv-parser.js, confirmation-links.js, template-processor.js,
    mailgun-client.js, logger.js, cli.js) and the properties of the
    pipeline.

    Conventions of the embedding
    - a JavaScript string is a [string]: the sequence of its UTF-8 bytes.
      The placeholder pattern, the e-mail grammar and percent-encoding only
      look at ASCII bytes, so they behave on the bytes as on the characters;
      [toLowerCase] and [trim] are the ASCII parts of the builtins;
    - a plain object is a [gmap string value] of its own properties, read
      through [get], which falls back to the members every plain object
      inherits from Object.prototype;
    - an exception is the [Throw] case of [exc], carrying [error.message];
    - the calls a function makes to the outside (the provider's
      messages.create, setTimeout, a progress callback) are recorded, in
      order, in a list of [effect]s; the files of the logger are a map from
      paths to contents; the hashes and the clock are parameters;
    - the arithmetic of the statistics, of the durations and of the times of
      expiry is that of doubles: every operation rounds its exact result to
      the nearest double ([Double]). *)

From Stdlib Require Import ZArith QArith Qround Qabs Qpower String Ascii List Bool Lia.
From Stdlib Require Import DecimalString DecimalPos Lqa Sorted.
From stdpp Require Import base option list gmap strings.

Local Open Scope string_scope.
Local Open Scope list_scope.

(** ** JavaScript values and objects *)

Module JS.

(** The values the pipeline handles. [JNum] is an integer-valued number;
    [JObject repr] is any object or function, which is always truthy and
    is only ever converted to a string: [repr] is what String(v) yields. *)
Inductive value : Type :=
| JUndefined
| JNull
| JBool (b : bool)
| JNum (n : Z)
| JStr (s : string)
| JObject (repr : string).

#[global] Instance value_eq_dec : EqDecision value.
Proof. solve_decision. Defined.

#[global] Instance value_inhabited : Inhabited value := populate JUndefined.

(** ToBoolean *)
Definition truthy (v : value) : bool :=
  match v with
  | JUndefined | JNull => false
  | JBool b => b
  | JNum n => negb (n =? 0)%Z
  | JStr s => negb (String.eqb s "")
  | JObject _ => true
  end.

(** ToString *)
Definition toString (v : value) : string :=
  match v with
  | JUndefined => "undefined"
  | JNull => "null"
  | JBool true => "true"
  | JBool false => "false"
  | JNum n => NilZero.string_of_int (Z.to_int n)
  | JStr s => s
  | JObject repr => repr
  end.

(** [a || b] *)
Definition or_else (a b : value) : value := if truthy a then a else b.

(** [typeof v === 'string'] *)
Definition is_string (v : value) : bool :=
  match v with JStr _ => true | _ => false end.

(** [v === s] for a string literal [s] *)
Definition strict_eq_str (v : value) (s : string) : bool :=
  match v with JStr t => String.eqb t s | _ => false end.

(** A plain object: its own properties. *)
Abbreviation obj := (gmap string value).

Definition native_function (name : string) : value :=
  JObject ("function " +:+ name +:+ "() { [native code] }").

(** The members a plain object inherits from Object.prototype. *)
Definition Object_prototype (k : string) : option value :=
  if String.eqb k "constructor" then Some (native_function "Object")
  else if String.eqb k "__proto__" then Some (JObject "[object Object]")
  else if existsb (String.eqb k)
            ["toString"; "toLocaleString"; "valueOf"; "hasOwnProperty";
             "isPrototypeOf"; "propertyIsEnumerable"; "__defineGetter__";
             "__defineSetter__"; "__lookupGetter__"; "__lookupSetter__"]
       then Some (native_function k)
  else None.

(** [o[k]] and [o.k] *)
Definition get (o : obj) (k : string) : value :=
  match o !! k with
  | Some v => v
  | None => default JUndefined (Object_prototype k)
  end.

(** [Object.prototype.hasOwnProperty.call(o, k)] *)
Definition hasOwnProperty (o : obj) (k : string) : bool :=
  bool_decide (is_Some (o !! k)).

(** Outcome of a call that may throw; [Throw m] carries [error.message]. *)
Inductive exc (A : Type) : Type :=
| Ok (a : A)
| Throw (message : value).
Arguments Ok {A} a.
Arguments Throw {A} message.

(** *** Characters *)

Definition code (c : ascii) : nat := nat_of_ascii c.

Definition in_range (lo hi : ascii) (c : ascii) : bool :=
  (code lo <=? code c)%nat && (code c <=? code hi)%nat.

Definition is_upper (c : ascii) : bool := in_range "A" "Z" c.
Definition is_lower (c : ascii) : bool := in_range "a" "z" c.
Definition is_digit (c : ascii) : bool := in_range "0" "9" c.
Definition is_alnum (c : ascii) : bool := is_upper c || is_lower c || is_digit c.

(** The class [\w] *)
Definition is_word (c : ascii) : bool := is_alnum c || Ascii.eqb c "_".

(** White space and line terminators in the ASCII range, as [trim] and
    [\s] see them: TAB, LF, VT, FF, CR and SPACE. *)
Definition is_space (c : ascii) : bool :=
  existsb (Nat.eqb (code c)) [9; 10; 11; 12; 13; 32]%nat.

(** *** String builtins *)

Definition lower_char (c : ascii) : ascii :=
  if is_upper c then ascii_of_nat (code c + 32) else c.

(** [s.toLowerCase()] *)
Fixpoint toLowerCase (s : string) : string :=
  match s with
  | EmptyString => EmptyString
  | String c s' => String (lower_char c) (toLowerCase s')
  end.

Fixpoint trimStart (s : string) : string :=
  match s with
  | EmptyString => EmptyString
  | String c s' => if is_space c then trimStart s' else s
  end.

Fixpoint trimEnd (s : string) : string :=
  match s with
  | EmptyString => EmptyString
  | String c s' =>
      match trimEnd s' with
      | EmptyString => if is_space c then EmptyString else String c EmptyString
      | t => String c t
      end
  end.

(** [s.trim()] *)
Definition trim (s : string) : string := trimEnd (trimStart s).

Fixpoint all_chars (p : ascii -> bool) (s : string) : bool :=
  match s with
  | EmptyString => true
  | String c s' => p c && all_chars p s'
  end.

(** [s.includes(t)] *)
Fixpoint includes (s t : string) : bool :=
  String.prefix t s ||
  match s with
  | EmptyString => false
  | String _ s' => includes s' t
  end.

(** [s.startsWith(t)] *)
Definition startsWith (s t : string) : bool := String.prefix t s.

(** [s.endsWith(t)] *)
Fixpoint endsWith (s t : string) : bool :=
  String.eqb s t ||
  match s with
  | EmptyString => false
  | String _ s' => endsWith s' t
  end.

(** [s.substring(0, n)] *)
Definition substring0 (n : nat) (s : string) : string := String.substring 0 n s.

(** *** encodeURIComponent *)

Definition hex_digit (n : nat) : ascii :=
  if (n <? 10)%nat then ascii_of_nat (code "0" + n)
  else ascii_of_nat (code "A" + (n - 10)).

(** The characters left as they are: letters, digits and [-_.!~*'()]. *)
Definition is_unreserved (c : ascii) : bool :=
  is_alnum c ||
  existsb (Ascii.eqb c) ["-"; "_"; "."; "!"; "~"; "*"; "'"; "("; ")"]%char.

Fixpoint percent_encode (s : string) : string :=
  match s with
  | EmptyString => EmptyString
  | String c s' =>
      if is_unreserved c then String c (percent_encode s')
      else String "%" (String (hex_digit (code c / 16))
                        (String (hex_digit (code c mod 16)) (percent_encode s')))
  end.

(** [encodeURIComponent(v)] *)
Definition encodeURIComponent (v : value) : string := percent_encode (toString v).

(** *** [s.replace(/\{(\w+)\}/g, fn)] *)

(** The longest run of word characters at the head of [s], and the rest. *)
Fixpoint take_word (s : string) : string * string :=
  match s with
  | EmptyString => (EmptyString, EmptyString)
  | String c s' =>
      if is_word c then
        let '(w, r) := take_word s' in (String c w, r)
      else (EmptyString, s)
  end.

(** A match of [\{(\w+)\}] anchored at the head of [s]: the captured
    group and what follows the match. [\w+] is greedy, and a shorter run
    would have to be followed by a word character instead of the brace. *)
Definition match_placeholder (s : string) : option (string * string) :=
  match s with
  | String c s' =>
      if Ascii.eqb c "{" then
        match take_word s' with
        | (String d w, String e rest) =>
            if Ascii.eqb e "}" then Some (String d w, rest) else None
        | _ => None
        end
      else None
  | EmptyString => None
  end.

(** The global replace: matches are looked for from left to right, a
    match is replaced by [fn key] and the scan resumes after it; a
    character where no match starts is copied. The recursion is on the
    text that is left, which the fuel bounds. *)
Fixpoint replace_from (fuel : nat) (fn : string -> string) (s : string) : string :=
  match fuel with
  | O => s
  | S fuel' =>
      match match_placeholder s with
      | Some (key, rest) => fn key +:+ replace_from fuel' fn rest
      | None =>
          match s with
          | EmptyString => EmptyString
          | String c s' => String c (replace_from fuel' fn s')
          end
      end
  end.

Definition replace_placeholders (fn : string -> string) (s : string) : string :=
  replace_from (String.length s) fn s.

(** *** [s.match(/\{(\w+)\}/g)] *)

(** The matches, from left to right, each with its braces. *)
Fixpoint matches_from (fuel : nat) (s : string) : list string :=
  match fuel with
  | O => []
  | S fuel' =>
      match match_placeholder s with
      | Some (key, rest) => ("{" +:+ key +:+ "}") :: matches_from fuel' rest
      | None =>
          match s with
          | EmptyString => []
          | String _ s' => matches_from fuel' s'
          end
      end
  end.

Definition match_placeholders (s : string) : list string :=
  matches_from (String.length s) s.

Fixpoint drop_last (s : string) : string :=
  match s with
  | EmptyString => EmptyString
  | String c EmptyString => EmptyString
  | String c s' => String c (drop_last s')
  end.

(** [s.slice(1, -1)] *)
Definition slice_inner (s : string) : string :=
  match s with
  | EmptyString => EmptyString
  | String _ s' => drop_last s'
  end.

(** *** Sets and sorting *)

(** A Set, as the list of its elements in insertion order. [set.add(x)] *)
Definition set_add {A : Type} `{EqDecision A} (set : list A) (x : A) : list A :=
  if bool_decide (x ∈ set) then set else set ++ [x].

(** [[...new Set(l)]] *)
Definition new_Set {A : Type} `{EqDecision A} (l : list A) : list A :=
  fold_left set_add l [].

(** [l.sort()]: the elements ordered by their strings, compared unit by
    unit; equal strings keep their order. *)
Fixpoint sort_insert {A : Type} (key : A -> string) (x : A) (sorted : list A) : list A :=
  match sorted with
  | [] => [x]
  | y :: rest =>
      if String.ltb (key x) (key y) then x :: sorted
      else y :: sort_insert key x rest
  end.

Definition sort_by {A : Type} (key : A -> string) (l : list A) : list A :=
  fold_left (fun sorted x => sort_insert key x sorted) l [].

End JS.

Import JS.

(** ** Numbers *)

Module Double.

(** A finite number is a double, here the rational it denotes. An
    operation rounds its exact result to the nearest double, a tie going to
    the even significand, with the 53 bits of significand of IEEE 754
    binary64. The exponent is not bounded: the overflow to Infinity, from
    2^1024, and the subnormal numbers, below 2^-1022, are left out. *)

Definition pow2 (e : Z) : Q := Qpower 2 e.

(** The exponent of a positive rational: [pow2 e <= x < pow2 (e + 1)]. *)
Definition exponent (x : Q) : Z :=
  let e0 := (Z.log2 (Qnum x) - Z.log2 (Zpos (Qden x)))%Z in
  if Qle_bool (pow2 e0) x then e0 else (e0 - 1)%Z.

(** The nearest integer, a tie going to the even one. *)
Definition round_half_even (y : Q) : Z :=
  let f := Qfloor y in
  match (y - inject_Z f ?= 1 # 2)%Q with
  | Lt => f
  | Gt => (f + 1)%Z
  | Eq => if Z.even f then f else (f + 1)%Z
  end.

(** The unit in the last place of the doubles around [x]. *)
Definition ulp (x : Q) : Q := pow2 (exponent (Qabs x) - 52).

(** The double nearest to [x]. *)
Definition rn (x : Q) : Q :=
  if Qeq_bool x 0 then 0%Q
  else (inject_Z (round_half_even (x / ulp x)) * ulp x)%Q.

(** The relative error of a rounding is at most 2^-53. *)
Definition eps : Q := 1 # 9007199254740992.

(** [x * y] and [x / y] *)
Definition mul (x y : Q) : Q := rn (x * y).
Definition div (x y : Q) : Q := rn (x / y).

(** The double nearest to a whole number: it is a whole number. *)
Definition nearest (z : Z) : Z := Qfloor (rn (inject_Z z)).

(** *** Number::toString, of a whole number *)

Definition decimal (z : Z) : string := NilZero.string_of_int (Z.to_int z).

(** Does [s * 10^p] read as the double [v]? *)
Definition denotes (v s p : Z) : bool :=
  Qeq_bool (rn (inject_Z (s * 10 ^ p))) (inject_Z v).

(** The digits [s], [k] of them, for which [s * 10^(n - k)] reads as [v]:
    the multiple of [10^(n - k)] below [v] and the one above are the two
    that can be nearest to [v]. *)
Definition candidates (v n k : Z) : list (Z * Z * Z) :=
  let s := (v / 10 ^ (n - k))%Z in
  List.filter
    (fun '(s, k, n) => (10 ^ (k - 1) <=? s)%Z && (s <? 10 ^ k)%Z && denotes v s (n - k))
    [(s, k, n); ((s + 1)%Z, k, n)].

Definition distance (v : Z) (c : Z * Z * Z) : Z :=
  let '(s, k, n) := c in Z.abs (s * 10 ^ (n - k) - v).

Definition closest (v : Z) (l : list (Z * Z * Z)) : option (Z * Z * Z) :=
  fold_left (fun best c =>
               match best with
               | None => Some c
               | Some b => if (distance v c <? distance v b)%Z then Some c else Some b
               end) l None.

(** The fewest digits that read as [v], from [k] digits on, and among them
    the nearest to [v]; [len] is the number of digits of [v], and [n] is
    [len], or [len + 1] when [v] reads as a power of ten above it. *)
Fixpoint shortest_from (fuel : nat) (v len k : Z) : Z * Z * Z :=
  match fuel with
  | O => (v, len, len)
  | S fuel' =>
      match closest v (candidates v len k ++ candidates v (len + 1) k) with
      | Some c => c
      | None => shortest_from fuel' v len (k + 1)
      end
  end.

Definition shortest (v : Z) : Z * Z * Z :=
  let len := Z.of_nat (String.length (decimal v)) in
  shortest_from (Z.to_nat len) v len 1.

Definition zeros (n : Z) : string := String.concat "" (repeat "0" (Z.to_nat n)).

(** A whole double that is not negative. Below 2^53 the doubles are one
    apart at most and the fewest digits are all the digits; then up to 21
    digits the fewest digits are followed by zeros; from 1e21 on the
    exponent is written. *)
Definition print_whole (v : Z) : string :=
  if (v <? 2 ^ 53)%Z then decimal v
  else
    let '(s, k, n) := shortest v in
    if (n <=? 21)%Z then decimal s +:+ zeros (n - k)
    else
      match decimal s with
      | String d rest =>
          String d (if (k =? 1)%Z then "" else String "." rest) +:+ "e+" +:+ decimal (n - 1)
      | EmptyString => EmptyString
      end.

Definition toString (z : Z) : string :=
  if (z <? 0)%Z then "-" +:+ print_whole (- z) else print_whole z.

End Double.

(** ** csv-parser.js *)

Module CsvParser.

(** The class of the local part: [a-zA-Z0-9.!#$%&'*+/=?^_`{|}~-] *)
Definition is_local_char (c : ascii) : bool :=
  is_alnum c ||
  existsb (Ascii.eqb c)
    ["."; "!"; "#"; "$"; "%"; "&"; "'"; "*"; "+"; "/"; "="; "?"; "^"; "_";
     "`"; "{"; "|"; "}"; "~"; "-"]%char.

(** The class [a-zA-Z0-9-] *)
Definition is_label_char (c : ascii) : bool := is_alnum c || Ascii.eqb c "-".

Fixpoint last_char (c : ascii) (s : string) : ascii :=
  match s with
  | EmptyString => c
  | String d s' => last_char d s'
  end.

(** [[a-zA-Z0-9](?:[a-zA-Z0-9-]{0,61}[a-zA-Z0-9])?] against a whole label:
    one to 63 characters of the label class, the first and the last one
    a letter or a digit. *)
Definition is_label (l : string) : bool :=
  match l with
  | EmptyString => false
  | String c rest =>
      is_alnum c && all_chars is_label_char rest &&
      is_alnum (last_char c rest) && (String.length l <=? 63)%nat
  end.

(** The text before the first [sep] and the text after it. *)
Fixpoint cut (sep : ascii) (s : string) : option (string * string) :=
  match s with
  | EmptyString => None
  | String c s' =>
      if Ascii.eqb c sep then Some (EmptyString, s')
      else match cut sep s' with
           | Some (a, b) => Some (String c a, b)
           | None => None
           end
  end.

(** The pieces of [s] between the occurrences of [sep]. *)
Fixpoint pieces (sep : ascii) (s : string) : list string :=
  match s with
  | EmptyString => [EmptyString]
  | String c s' =>
      if Ascii.eqb c sep then EmptyString :: pieces sep s'
      else match pieces sep s' with
           | p :: ps => String c p :: ps
           | [] => [String c EmptyString]
           end
  end.

(** [emailRegex.test(s)]: a non-empty local part, the (first and only)
    [@], and labels separated by dots. Neither class contains [@], so
    the local part ends at the first one; no label contains a dot. *)
Definition emailRegex_test (s : string) : bool :=
  match cut "@" s with
  | Some (local, domain) =>
      negb (String.eqb local "") && all_chars is_local_char local &&
      forallb is_label (pieces "." domain)
  | None => false
  end.

Definition validateEmail (email : value) : bool :=
  match email with
  | JStr s =>
      if negb (truthy email) then false
      else if includes s ".." || startsWith s "." || endsWith s "." then false
      else if includes s " " then false
      else emailRegex_test (trim s)
  | _ => false
  end.

Record Skipped : Type := mkSkipped {
  rowNumber : Z;
  skipped_email : value;
  reason : string
}.

Record Validation : Type := mkValidation {
  validData : list obj;
  skippedEmails : list Skipped;
  totalRows : Z;
  validRows : Z;
  skippedRows : Z
}.

(** [s] between double quotes *)
Definition quoted (s : string) : string :=
  String (ascii_of_nat 34) s +:+ String (ascii_of_nat 34) EmptyString.

(** What calling a method that a value does not have throws. *)
Definition TypeError : value := JStr "TypeError: not a function".

(** [v?.trim()] *)
Definition optional_trim (v : value) : exc value :=
  match v with
  | JUndefined | JNull => Ok JUndefined
  | JStr s => Ok (JStr (trim s))
  | _ => Throw TypeError
  end.

(** The loop of [validateCSVStructure]: [rows] are the rows from index [i] on. *)
Fixpoint validate_rows (rows : list obj) (i : Z)
    (validData : list obj) (skippedEmails : list Skipped)
    : exc (list obj * list Skipped) :=
  match rows with
  | [] => Ok (validData, skippedEmails)
  | row :: rows' =>
      match optional_trim (or_else (get row "Email") (get row "email")) with
      | Throw m => Throw m
      | Ok email =>
          if negb (validateEmail email) then
            validate_rows rows' (i + 1)%Z validData
              (skippedEmails ++
               [mkSkipped (i + 1)%Z (or_else email (JStr "empty")) "Invalid email format"])
          else
            validate_rows rows' (i + 1)%Z (validData ++ [row]) skippedEmails
      end
  end.

Definition validateCSVStructure (data : list obj) : exc Validation :=
  match data with
  | [] => Throw (JStr "CSV file is empty")
  | firstRow :: _ =>
      let emailField := or_else (get firstRow "Email") (get firstRow "email") in
      if negb (truthy emailField) && negb (hasOwnProperty firstRow "Email")
         && negb (hasOwnProperty firstRow "email")
      then Throw (JStr ("CSV must contain an " +:+ quoted "Email" +:+ " or "
                        +:+ quoted "email" +:+ " column"))
      else
        match validate_rows data 0 [] [] with
        | Throw m => Throw m
        | Ok (validData, skippedEmails) =>
            Ok (mkValidation validData skippedEmails
                  (Z.of_nat (List.length data))
                  (Z.of_nat (List.length validData))
                  (Z.of_nat (List.length skippedEmails)))
        end
  end.

(** [v !== undefined] *)
Definition is_defined (v : value) : bool :=
  match v with JUndefined => false | _ => true end.

(** The body of the generator of [parseCSV], on a row as the CSV reader
    yields it, every cell a string: the cells are trimmed, then the fields
    [FirstName], [LastName] and [Email] are copied to [firstName],
    [lastName] and [email]. A cell named [__proto__] sets no property: the
    setter it meets ignores a string. *)
Definition normalizeChunk (chunk : gmap string string) : obj :=
  let normalizedChunk : obj :=
    (fun value => JStr (trim value)) <$> delete "__proto__" chunk in
  let normalizedChunk : obj :=
    if is_defined (get normalizedChunk "FirstName")
    then <["firstName" := get normalizedChunk "FirstName"]> normalizedChunk
    else normalizedChunk in
  let normalizedChunk : obj :=
    if is_defined (get normalizedChunk "LastName")
    then <["lastName" := get normalizedChunk "LastName"]> normalizedChunk
    else normalizedChunk in
  let normalizedChunk : obj :=
    if is_defined (get normalizedChunk "Email")
    then <["email" := get normalizedChunk "Email"]> normalizedChunk
    else normalizedChunk in
  normalizedChunk.

(** [parseCSV], from the rows the CSV reader yields on; [error.message] is
    what [Throw] carries. Reading the file is outside the model. *)
Definition parseCSV (chunks : list (gmap string string)) : exc Validation :=
  let results := map normalizeChunk chunks in
  match validateCSVStructure results with
  | Ok validationResult => Ok validationResult
  | Throw message =>
      if includes (toString message) "CSV must contain"
         || includes (toString message) "CSV file is empty"
      then Throw message
      else Throw (JStr ("Failed to parse CSV file: " +:+ toString message))
  end.

(** [l.filter(p)] for a test that may throw. *)
Fixpoint filter_exc {A : Type} (p : A -> exc bool) (l : list A) : exc (list A) :=
  match l with
  | [] => Ok []
  | x :: l' =>
      match p x with
      | Throw m => Throw m
      | Ok b =>
          match filter_exc p l' with
          | Throw m => Throw m
          | Ok kept => Ok (if b then x :: kept else kept)
          end
      end
  end.

(** [(row.FirstName || row.first_name)?.trim()], as a condition *)
Definition has_first_name (row : obj) : exc bool :=
  match optional_trim (or_else (get row "FirstName") (get row "first_name")) with
  | Ok v => Ok (truthy v)
  | Throw m => Throw m
  end.

(** [(row.LastName || row.last_name)?.trim()], as a condition *)
Definition has_last_name (row : obj) : exc bool :=
  match optional_trim (or_else (get row "LastName") (get row "last_name")) with
  | Ok v => Ok (truthy v)
  | Throw m => Throw m
  end.

(** The conjunction of the two: the second is evaluated when the first holds. *)
Definition has_full_name (row : obj) : exc bool :=
  match has_first_name row with
  | Ok true => has_last_name row
  | other => other
  end.

Record CSVStats : Type := mkCSVStats {
  totalSubscribers : Z;
  withFirstName : Z;
  withLastName : Z;
  withFullName : Z;
  emailOnly : Z
}.

Definition getCSVStats (data : list obj) : exc CSVStats :=
  let totalSubscribers := Z.of_nat (List.length data) in
  match filter_exc has_first_name data with
  | Throw m => Throw m
  | Ok first =>
      match filter_exc has_last_name data with
      | Throw m => Throw m
      | Ok last =>
          match filter_exc has_full_name data with
          | Throw m => Throw m
          | Ok full =>
              let withFirstName := Z.of_nat (List.length first) in
              Ok (mkCSVStats totalSubscribers withFirstName
                    (Z.of_nat (List.length last)) (Z.of_nat (List.length full))
                    (totalSubscribers - withFirstName))
          end
      end
  end.

End CsvParser.

(** The earlier revision of csv-parser.js, kept in the repository next to
    the current one: it stops at the first invalid address. *)

Module CsvParserFailFast.

Fixpoint validate_rows (rows : list obj) : exc unit :=
  match rows with
  | [] => Ok tt
  | row :: rows' =>
      match CsvParser.optional_trim (get row "email") with
      | Throw m => Throw m
      | Ok email =>
          if negb (CsvParser.validateEmail email) then
            Throw (JStr ("Invalid email address found: "
                         +:+ toString (or_else email (JStr "empty"))))
          else validate_rows rows'
      end
  end.

Definition validateCSVStructure (data : list obj) : exc unit :=
  match data with
  | [] => Throw (JStr "CSV file is empty")
  | firstRow :: _ =>
      if negb (hasOwnProperty firstRow "email")
      then Throw (JStr ("CSV must contain an " +:+ CsvParser.quoted "email" +:+ " column"))
      else validate_rows data
  end.

End CsvParserFailFast.

(** ** confirmation-links.js *)

Module ConfirmationLinks.
Section Crypto.

(** [createHmac('sha256', key).update(msg).digest('hex')], from Node's
    crypto module. *)
Variable hmac_sha256_hex : string -> string -> string.

(** [process.env.CONFIRMATION_SECRET] *)
Variable CONFIRMATION_SECRET : option string.

Definition SECRET_KEY : string :=
  toString (or_else (from_option JStr JUndefined CONFIRMATION_SECRET)
                    (JStr "default-secret-key-change-in-production")).

Definition generateTokenForSubscriber (subscriber : obj) : exc string :=
  if negb (truthy (get subscriber "email")) then
    Throw (JStr "Subscriber must have an email address")
  else
    match get subscriber "email" with
    | JStr e =>
        let email := trim (toLowerCase e) in
        let hash := hmac_sha256_hex SECRET_KEY email in
        Ok (substring0 32 hash)
    | _ => Throw CsvParser.TypeError
    end.

(** [createHash('sha256').update(msg).digest('hex')] *)
Variable sha256_hex : string -> string.

(** [{valid: true, token}] or [{valid: false, error}] *)
Inductive ParsedToken : Type :=
| ParsedValid (token : string)
| ParsedInvalid (error : string).

(** The class [a-f0-9] *)
Definition is_hex_lower (c : ascii) : bool := in_range "a" "f" c || is_digit c.

(** [/^[a-f0-9]+$/.test(s)] *)
Definition hex_test (s : string) : bool :=
  negb (String.eqb s "") && all_chars is_hex_lower s.

(** The length is counted in bytes; a string that passes the test of the
    characters has as many bytes as it has code units. *)
Definition parseConfirmationToken (token : value) : ParsedToken :=
  match token with
  | JStr t =>
      if negb (truthy token) then ParsedInvalid "Token is required and must be a string"
      else if negb (Nat.eqb (String.length t) 32) || negb (hex_test t)
      then ParsedInvalid "Invalid token format"
      else ParsedValid t
  | _ => ParsedInvalid "Token is required and must be a string"
  end.

(** The [try] turns a throw of [email.toLowerCase()] or of the generator
    into [false]. *)
Definition validateConfirmationToken (token email : value) : bool :=
  if negb (truthy token) || negb (truthy email) then false
  else
    match email with
    | JStr e =>
        let normalizedEmail := trim (toLowerCase e) in
        match generateTokenForSubscriber {[ "email" := JStr normalizedEmail ]} with
        | Ok expectedToken => strict_eq_str token expectedToken
        | Throw _ => false
        end
    | _ => false
    end.

Definition generateVerificationHash (email : value) (timestamp : string) : exc string :=
  match email with
  | JStr e =>
      let data := trim (toLowerCase e) +:+ ":" +:+ timestamp in
      Ok (String.substring 0 16 (sha256_hex (data +:+ SECRET_KEY)))
  | _ => Throw CsvParser.TypeError
  end.

(** [new Date(t)]: a date is its time value, in milliseconds; [None] is the
    Invalid Date, which is the date of NaN and of a time more than 8.64e15
    milliseconds away from the epoch. *)
Definition new_Date (t : option Z) : option Z :=
  match t with
  | Some t => if (Z.abs t <=? 8640000000000000)%Z then Some t else None
  | None => None
  end.

(** [{token, expiresAt, expirationTime}] *)
Record ExpiringToken : Type := mkExpiringToken {
  expiring_token : string;
  expiresAt : option Z;
  expirationTime : Z
}.

(** [now] is what [Date.now()] returns; [expirationHours] is a whole
    number of hours, 24 when the argument is left out. The products and
    the sum are those of doubles, which are whole numbers. *)
Definition createExpiringToken (now : Z) (subscriber : obj) (expirationHours : option Z)
    : exc ExpiringToken :=
  let expirationHours := default 24%Z expirationHours in
  match generateTokenForSubscriber subscriber with
  | Throw m => Throw m
  | Ok baseToken =>
      let expirationTime :=
        Double.nearest
          (now + Double.nearest
                   (Double.nearest (Double.nearest (expirationHours * 60) * 60) * 1000)) in
      let timestamp := Double.toString expirationTime in
      match generateVerificationHash (get subscriber "email") timestamp with
      | Throw m => Throw m
      | Ok verificationHash =>
          Ok (mkExpiringToken
                (baseToken +:+ "." +:+ timestamp +:+ "." +:+ verificationHash)
                (new_Date (Some expirationTime)) expirationTime)
      end
  end.

(** The longest run of decimal digits at the head of [s]. *)
Fixpoint take_digits (s : string) : string :=
  match s with
  | EmptyString => EmptyString
  | String c s' => if is_digit c then String c (take_digits s') else EmptyString
  end.

(** [parseInt(s, 10)]: white space is skipped, then a sign and the digits
    that follow are read, whatever comes after them; [None] is NaN. The
    number is the double nearest to the integer the digits denote. *)
Definition parseInt (s : string) : option Z :=
  let '(negative, digits) :=
    match trimStart s with
    | String c rest =>
        if Ascii.eqb c "-" then (true, take_digits rest)
        else if Ascii.eqb c "+" then (false, take_digits rest)
        else (false, take_digits (String c rest))
    | EmptyString => (false, EmptyString)
    end in
  if String.eqb digits "" then None
  else
    match NilEmpty.uint_of_string digits with
    | Some d => Some (Double.nearest (if negative then (- Z.of_uint d)%Z else Z.of_uint d))
    | None => None
    end.

(** [{valid: true, email, expiresAt}] or [{valid: false, error, expired}] *)
Inductive ExpiringValidation : Type :=
| ExpiringValid (email : string) (expiresAt : option Z)
| ExpiringInvalid (error : string) (expired : bool).

(** [validateExpiringToken], on a token that is a string; [now] is what
    [Date.now()] returns. A comparison with NaN is false. *)
Definition validateExpiringToken (now : Z) (expiringToken : string) (email : value)
    : ExpiringValidation :=
  match CsvParser.pieces "." expiringToken with
  | [baseToken; timestamp; hash] =>
      let expirationTime := parseInt timestamp in
      if from_option (fun t => (t <? now)%Z) false expirationTime then
        ExpiringInvalid "Token has expired" true
      else if negb (validateConfirmationToken (JStr baseToken) email) then
        ExpiringInvalid "Invalid token" false
      else
        match generateVerificationHash email timestamp with
        | Throw m => ExpiringInvalid ("Token validation failed: " +:+ toString m) false
        | Ok expectedHash =>
            if negb (String.eqb hash expectedHash) then
              ExpiringInvalid "Token verification failed" false
            else
              match email with
              | JStr e => ExpiringValid (trim (toLowerCase e)) (new_Date expirationTime)
              | _ => ExpiringInvalid ("Token validation failed: "
                                      +:+ toString CsvParser.TypeError) false
              end
        end
  | _ => ExpiringInvalid "Invalid token format" false
  end.

End Crypto.
End ConfirmationLinks.

(** ** template-processor.js *)

Module TemplateProcessor.

(** The template file: a JSON object whose fields, when present, are strings. *)
Record Template : Type := mkTemplate {
  subject : option string;
  text : option string;
  html : option string;
  confirmationUrl : option string;
  headers : option obj
}.

(** [template.field] *)
Definition field (f : option string) : value := from_option JStr JUndefined f.

(** The callback of the replace: [data[key] || ''], which the replace
    converts to a string. *)
Definition substitute (data : obj) (key : string) : string :=
  toString (or_else (get data key) (JStr "")).

Definition processTemplate (template : value) (data : obj) : value :=
  match template with
  | JNull | JUndefined => template
  | JStr s => JStr (replace_placeholders (substitute data) s)
  | _ => template
  end.

(** The constants of [processTemplateForSubscriber], in its order. *)
Definition templateData (subscriber : obj) (confirmationToken : value) : obj :=
  <["email" := get subscriber "email"]>
    (<["confirmation_token" := confirmationToken]> subscriber).

Definition confirmation_url
    (template : Template) (subscriber : obj) (confirmationToken : value) : value :=
  processTemplate (field (confirmationUrl template))
    (<["email" := JStr (encodeURIComponent (get subscriber "email"))]>
       (templateData subscriber confirmationToken)).

Definition fullTemplateData
    (template : Template) (subscriber : obj) (confirmationToken : value) : obj :=
  <["confirmation_url" := confirmation_url template subscriber confirmationToken]>
    (templateData subscriber confirmationToken).

Definition processTemplateForSubscriber
    (template : Template) (subscriber : obj) (confirmationToken : value) : obj :=
  let fullTemplateData := fullTemplateData template subscriber confirmationToken in
  let processedTemplate : obj :=
    <["text" := processTemplate (field (text template)) fullTemplateData]>
      (<["subject" := processTemplate (field (subject template)) fullTemplateData]> ∅) in
  if truthy (field (html template)) then
    <["html" := processTemplate (field (html template)) fullTemplateData]> processedTemplate
  else processedTemplate.

Definition validateTemplate (template : Template) : exc unit :=
  if negb (truthy (field (subject template))) then
    Throw (JStr "Template must include a subject")
  else if negb (truthy (field (text template))) && negb (truthy (field (html template))) then
    Throw (JStr "Template must include either text or html content")
  else if negb (truthy (field (confirmationUrl template))) then
    Throw (JStr "Template must include a confirmationUrl")
  else Ok tt.

Definition getTemplateVariables (template : value) : list string :=
  match template with
  | JStr s =>
      if negb (truthy template) then []
      else new_Set (map slice_inner (match_placeholders s))
  | _ => []
  end.

(** The loop over [fieldsToCheck], adding to the set [allVariables]. *)
Definition add_field_variables (allVariables : list string) (f : option string) : list string :=
  if truthy (field f) then fold_left set_add (getTemplateVariables (field f)) allVariables
  else allVariables.

Definition getAllTemplateVariables (template : Template) : list string :=
  sort_by id
    (fold_left add_field_variables
       [subject template; text template; html template; confirmationUrl template] []).

Record SubscriberValidation : Type := mkSubscriberValidation {
  valid : bool;
  missing : list string;
  available : list string;
  required : list string
}.

(** [Object.keys(o)]; the order of the keys is not modelled. *)
Definition Object_keys (o : obj) : list string := (map_to_list o).*1.

(** [l.includes(x)] *)
Definition array_includes (l : list string) (x : string) : bool := bool_decide (x ∈ l).

Definition validateSubscriberForTemplate (subscriber : obj) (template : Template)
    : SubscriberValidation :=
  let requiredVariables := getAllTemplateVariables template in
  let subscriberFields := Object_keys subscriber in
  let alwaysRequired := ["email"] in
  let systemVariables := ["confirmation_token"; "confirmation_url"] in
  let templateRequired :=
    List.filter (fun variable => negb (array_includes systemVariables variable))
      requiredVariables in
  let allRequired := new_Set (alwaysRequired ++ templateRequired) in
  let missing :=
    List.filter (fun f => negb (array_includes subscriberFields f)) allRequired in
  mkSubscriberValidation (Nat.eqb (List.length missing) 0) missing subscriberFields allRequired.

End TemplateProcessor.

(** ** mailgun-client.js *)

Module MailgunClient.

Import TemplateProcessor.

(** [client.config], after [createMailgunClient] has checked it. *)
Record Config : Type := mkConfig {
  apiKey : string;
  domain : string;
  fromEmail : string;
  fromName : string
}.

(** The argument of [sendEmail]. *)
Record EmailData : Type := mkEmailData {
  to : value;
  email_subject : value;
  email_text : value;
  email_html : value;
  email_headers : option obj
}.

(** What [sendEmail] returns: [{success: true, messageId, response}]
    or [{success: false, error}]. *)
Record EmailResult : Type := mkEmailResult {
  success : bool;
  messageId : option value;
  response : option value;
  error : option value
}.

(** An element of the array [sendBulkEmails] returns: [{email, ...result}]. *)
Record SendResult : Type := mkSendResult {
  email : value;
  result : EmailResult
}.

(** [{current, total, result, percentage}], the argument of a progress callback. *)
Record ProgressData : Type := mkProgressData {
  current : Z;
  total : Z;
  progress_result : SendResult;
  percentage : Z
}.

Record Options : Type := mkOptions {
  rateLimit : option Q;
  onProgress : option (ProgressData -> unit)
}.

(** How [client.mailgun.messages.create] settles: with the provider's
    response object, or rejected with an error of the given message. *)
Inductive Settled : Type :=
| Resolved (response : obj)
| Rejected (message : value).

(** The calls made to the outside, in the order they are made. *)
Inductive effect : Type :=
| Create (domain : string) (messageData : obj)
| SetTimeout (ms : Q)
| Progress (data : ProgressData).

Definition validateEmailData (emailData : EmailData) : exc unit :=
  if negb (truthy (to emailData)) then
    Throw (JStr "Recipient email is required")
  else if negb (CsvParser.validateEmail (to emailData)) then
    Throw (JStr "Invalid recipient email format")
  else if negb (truthy (email_subject emailData)) then
    Throw (JStr "Email subject is required")
  else if negb (truthy (email_text emailData)) && negb (truthy (email_html emailData)) then
    Throw (JStr "Either text or html content is required")
  else Ok tt.

(** The local [processTemplate] of mailgun-client.js, on a field of the
    template. *)
Definition processTemplate (template : option string) (data : obj) : value :=
  if negb (truthy (field template)) then field template
  else
    match template with
    | Some s => JStr (replace_placeholders (substitute data) s)
    | None => JUndefined
    end.

(** [validateMailgunConfig], on the configuration object. *)
Definition validateMailgunConfig (config : obj) : exc unit :=
  if negb (truthy (get config "apiKey")) then
    Throw (JStr "Mailgun API key is required")
  else if negb (truthy (get config "domain")) then
    Throw (JStr "Mailgun domain is required")
  else if negb (truthy (get config "fromEmail")) then
    Throw (JStr "From email address is required")
  else if negb (CsvParser.validateEmail (get config "fromEmail")) then
    Throw (JStr "From email address is invalid")
  else Ok tt.

(** [createMailgunClient], as far as [client.config]: the provider's own
    client object is outside the model. *)
Definition createMailgunClient (config : obj) : exc obj :=
  let normalizedConfig : obj :=
    <["fromName" := or_else (get config "fromName") (JStr "Mailer")]> config in
  match validateMailgunConfig normalizedConfig with
  | Throw m => Throw m
  | Ok _ => Ok normalizedConfig
  end.

Record BulkStats : Type := mkBulkStats {
  stats_total : Z;
  stats_successful : Z;
  stats_failed : Z;
  stats_successRate : Q
}.

(** An array has fewer than 2^32 elements, so that the counts are doubles;
    the quotient and the product are rounded. *)
Definition getBulkEmailStats (results : list SendResult) : BulkStats :=
  let total := Z.of_nat (List.length results) in
  let successful :=
    Z.of_nat (List.length (List.filter (fun r => success (result r)) results)) in
  let failed :=
    Z.of_nat (List.length (List.filter (fun r => negb (success (result r))) results)) in
  mkBulkStats total successful failed
    (if (0 <? total)%Z
     then Double.mul (Double.div (inject_Z successful) (inject_Z total)) 100
     else 0%Q).

(** The object [sendEmail] posts: the five fields, then one [h:] field for
    each custom header. *)
Definition messageData (config : Config) (emailData : EmailData) : obj :=
  let messageData : obj :=
    <["html" := email_html emailData]>
      (<["text" := email_text emailData]>
         (<["subject" := email_subject emailData]>
            (<["to" := to emailData]>
               (<["from" := JStr (fromName config +:+ " <" +:+ fromEmail config +:+ ">")]>
                  ∅)))) in
  match email_headers emailData with
  | Some hs => map_fold (fun key v (m : obj) => <["h:" +:+ key := v]> m) messageData hs
  | None => messageData
  end.

(** The object [sendBulkEmails] builds for a subscriber. *)
Definition processedEmail (emailTemplate : Template) (subscriber : obj) : EmailData :=
  mkEmailData (get subscriber "email")
    (processTemplate (subject emailTemplate) subscriber)
    (processTemplate (text emailTemplate) subscriber)
    (processTemplate (html emailTemplate) subscriber)
    (headers emailTemplate).

Section Provider.

(** The provider: its state, and what a call to
    [client.mailgun.messages.create(domain, messageData)] does to it. *)
Context {provider : Type}.
Variable messages_create : provider -> string -> obj -> provider * Settled.

Definition sendEmail (config : Config) (st : provider) (emailData : EmailData)
    : provider * EmailResult * list effect :=
  match validateEmailData emailData with
  | Throw m => (st, mkEmailResult false None None (Some m), [])
  | Ok _ =>
      match messages_create st (domain config) (messageData config emailData) with
      | (st', Resolved response) =>
          (st',
           mkEmailResult true (Some (get response "id")) (Some (get response "message")) None,
           [Create (domain config) (messageData config emailData)])
      | (st', Rejected m) =>
          (st', mkEmailResult false None None (Some m),
           [Create (domain config) (messageData config emailData)])
      end
  end.

(** The body of the [for] loop: [todo] holds [subscribers[i]] and the
    ones after it, [n] is [subscribers.length]. *)
Fixpoint sendBulkEmails_loop (config : Config) (emailTemplate : Template)
    (delayBetweenEmails : Q) (n : nat) (todo : list obj) (i : nat)
    (st : provider) (results : list SendResult) (trace : list effect)
    : provider * list SendResult * list effect :=
  match todo with
  | [] => (st, results, trace)
  | subscriber :: todo' =>
      let '(st', result, sent) :=
        sendEmail config st (processedEmail emailTemplate subscriber) in
      let results := results ++ [mkSendResult (get subscriber "email") result] in
      let trace := trace ++ sent in
      let trace :=
        if (Z.of_nat i <? Z.of_nat n - 1)%Z
        then trace ++ [SetTimeout delayBetweenEmails] else trace in
      sendBulkEmails_loop config emailTemplate delayBetweenEmails n todo' (S i)
        st' results trace
  end.

Definition sendBulkEmails (config : Config) (st : provider)
    (subscribers : list obj) (emailTemplate : Template) (options : Options)
    : provider * list SendResult * list effect :=
  let rateLimit := default (10 : Q) (rateLimit options) in
  let delayBetweenEmails := (1000 / rateLimit)%Q in
  sendBulkEmails_loop config emailTemplate delayBetweenEmails
    (List.length subscribers) subscribers 0 st [] [].

(** [{valid, message}] *)
Record ConnectionResult : Type := mkConnectionResult {
  connection_valid : bool;
  connection_message : value
}.

Definition testEmailData (testEmail : value) : EmailData :=
  mkEmailData testEmail (JStr "Mailgun Connection Test")
    (JStr "This is a test email to validate your Mailgun configuration.")
    (JStr "<p>This is a test email to validate your Mailgun configuration.</p>")
    None.

(** [sendEmail] catches what it throws, so the [catch] of
    [validateMailgunConnection] is never entered. *)
Definition validateMailgunConnection (config : Config) (st : provider) (testEmail : value)
    : provider * ConnectionResult * list effect :=
  let '(st', result, sent) := sendEmail config st (testEmailData testEmail) in
  (st',
   mkConnectionResult (success result)
     (if success result then JStr "Connection successful"
      else default JUndefined (error result)),
   sent).

End Provider.

End MailgunClient.

(** ** logger.js *)

Module Logger.

Record LogStats : Type := mkLogStats {
  total : Z;
  successful : Z;
  failed : Z;
  successRate : Q
}.

(** [Math.round], of a double: the nearest integer, a half going up. *)
Definition Math_round (x : Q) : Z := Qfloor (x + (1 # 2))%Q.

(** [Math.floor], of a double *)
Definition Math_floor (x : Q) : Z := Qfloor x.

Definition is_success (entry : obj) : bool :=
  strict_eq_str (get entry "status") "success".

(** An array has fewer than 2^32 elements, so that the counts are doubles;
    the quotient, the two products and the last quotient are rounded. *)
Definition getLogStats (logData : list obj) : LogStats :=
  let total := Z.of_nat (List.length logData) in
  let successful := Z.of_nat (List.length (List.filter is_success logData)) in
  let failed := (total - successful)%Z in
  let successRate :=
    if (0 <? total)%Z
    then
      Double.div
        (inject_Z
           (Math_round
              (Double.mul
                 (Double.mul (Double.div (inject_Z successful) (inject_Z total)) 100) 100)))
        100
    else 0%Q in
  mkLogStats total successful failed successRate.

Definition dquote : ascii := ascii_of_nat 34.
Definition newline : ascii := ascii_of_nat 10.

(** The global replace of [escapeCSVField]: every double quote is replaced
    by two. *)
Fixpoint double_quotes (s : string) : string :=
  match s with
  | EmptyString => EmptyString
  | String c s' =>
      if Ascii.eqb c dquote then String dquote (String dquote (double_quotes s'))
      else String c (double_quotes s')
  end.

Definition escapeCSVField (v : value) : string :=
  match v with
  | JNull | JUndefined => ""
  | _ =>
      let stringValue := toString v in
      if includes stringValue "," || includes stringValue (String dquote "")
         || includes stringValue (String newline "")
      then String dquote (double_quotes stringValue) +:+ String dquote ""
      else stringValue
  end.

(** The files of the log directory: path to content. *)
Abbreviation files := (gmap string string).

Definition headers : string :=
  "timestamp,email,status,message_id,error" +:+ String newline "".

(** [createLogger]: the header is written when the file does not exist. The
    returned logger is its path. *)
Definition createLogger (logPath : string) (fs : files) : files :=
  let fileExists := bool_decide (is_Some (fs !! logPath)) in
  if negb fileExists then <[logPath := headers]> fs else fs.

Definition csvLine (data : obj) : string :=
  escapeCSVField (get data "timestamp") +:+ "," +:+
  escapeCSVField (get data "email") +:+ "," +:+
  escapeCSVField (get data "status") +:+ "," +:+
  escapeCSVField (get data "message_id") +:+ "," +:+
  escapeCSVField (get data "error") +:+ String newline "".

(** [fs.appendFile(path, text)] *)
Definition appendFile (path text : string) (fs : files) : files :=
  <[path := default "" (fs !! path) +:+ text]> fs.

(** [logger.log(data)] *)
Definition log (logPath : string) (data : obj) (fs : files) : files :=
  appendFile logPath (csvLine data) fs.

(** The entry [logEmailResult] and [exportResultsToCSV] build for a result;
    [timestamp] is [new Date().toISOString()]. *)
Definition logEntry (timestamp : string) (result : MailgunClient.SendResult) : obj :=
  {[ "timestamp" := JStr timestamp;
     "email" := MailgunClient.email result;
     "status" :=
       JStr (if MailgunClient.success (MailgunClient.result result)
             then "success" else "failed");
     "message_id" :=
       or_else (default JUndefined (MailgunClient.messageId (MailgunClient.result result)))
         (JStr "");
     "error" :=
       or_else (default JUndefined (MailgunClient.error (MailgunClient.result result)))
         (JStr "") ]}.

Definition logEmailResult (logPath : string) (timestamp : string)
    (result : MailgunClient.SendResult) (fs : files) : files :=
  log logPath (logEntry timestamp result) fs.

(** [exportResultsToCSV]; [clock k] is the time read for the result at
    index [k]. *)
Definition exportResultsToCSV (clock : nat -> string)
    (results : list MailgunClient.SendResult) (outputPath : string) (fs : files) : files :=
  let csvContent :=
    fold_left (fun csvContent '(k, result) =>
                 csvContent +:+ csvLine (logEntry (clock k) result))
      (imap pair results) headers in
  <[outputPath := csvContent]> fs.

(** [milliseconds] is a whole number. The quotients are those of doubles;
    the remainder of two doubles is exact. *)
Definition formatDuration (milliseconds : Z) : string :=
  let seconds := Math_floor (Double.div (inject_Z milliseconds) 1000) in
  let minutes := Math_floor (Double.div (inject_Z seconds) 60) in
  let hours := Math_floor (Double.div (inject_Z minutes) 60) in
  if (0 <? hours)%Z then
    Double.toString hours +:+ "h " +:+ Double.toString (Z.rem minutes 60) +:+ "m "
    +:+ Double.toString (Z.rem seconds 60) +:+ "s"
  else if (0 <? minutes)%Z then
    Double.toString minutes +:+ "m " +:+ Double.toString (Z.rem seconds 60) +:+ "s"
  else Double.toString seconds +:+ "s".

(** The step of the reduce in [groupLogsByStatus]. A status that names a
    member inherited from Object.prototype finds that member, which has no
    [push]. *)
Definition group_entry (groups : gmap string (list obj)) (entry : obj)
    : exc (gmap string (list obj)) :=
  let status := toString (or_else (get entry "status") (JStr "unknown")) in
  match groups !! status with
  | Some group => Ok (<[status := group ++ [entry]]> groups)
  | None =>
      match Object_prototype status with
      | Some _ => Throw CsvParser.TypeError
      | None => Ok (<[status := [entry]]> groups)
      end
  end.

Fixpoint group_entries (logData : list obj) (groups : gmap string (list obj))
    : exc (gmap string (list obj)) :=
  match logData with
  | [] => Ok groups
  | entry :: rest =>
      match group_entry groups entry with
      | Ok groups' => group_entries rest groups'
      | Throw m => Throw m
      end
  end.

Definition groupLogsByStatus (logData : list obj) : exc (gmap string (list obj)) :=
  group_entries logData ∅.

Definition getUniqueErrors (logData : list obj) : list value :=
  let failedEntries :=
    List.filter (fun entry => strict_eq_str (get entry "status") "failed") logData in
  let errors :=
    map (fun entry => or_else (get entry "error") (JStr "Unknown error")) failedEntries in
  sort_by toString (new_Set errors).

End Logger.

(** ** cli.js *)

Module Cli.

(** [s.substring(n)] *)
Fixpoint substring_from (n : nat) (s : string) : string :=
  match n, s with
  | O, _ => s
  | S n', String _ s' => substring_from n' s'
  | S _, EmptyString => EmptyString
  end.

(** [args[key] = v], for [v] a string or a boolean. The name [__proto__]
    meets the setter every object inherits, which ignores such a value. *)
Definition set_arg (key : string) (v : value) (args : obj) : obj :=
  if String.eqb key "__proto__" then args else <[key := v]> args.

(** [!next.startsWith('-')]: the next argument is the value of a flag. *)
Definition is_value (next : string) : bool := negb (startsWith next "-").

(** The loop of [parseArguments]: [argv] holds [argv[i]] and what follows. *)
Fixpoint parse_from (argv : list string) (args : obj) : obj :=
  match argv with
  | [] => args
  | arg :: rest =>
      if startsWith arg "--" then
        if includes arg "=" then
          match CsvParser.pieces "=" (substring_from 2 arg) with
          | key :: value :: _ => parse_from rest (set_arg key (JStr value) args)
          | [key] => parse_from rest (set_arg key JUndefined args)
          | [] => parse_from rest (set_arg "undefined" JUndefined args)
          end
        else
          let key := substring_from 2 arg in
          match rest with
          | next :: rest' =>
              if is_value next then parse_from rest' (set_arg key (JStr next) args)
              else parse_from rest (set_arg key (JBool true) args)
          | [] => set_arg key (JBool true) args
          end
      else if startsWith arg "-" && (1 <? String.length arg)%nat then
        let key := substring_from 1 arg in
        match rest with
        | next :: rest' =>
            if is_value next then parse_from rest' (set_arg key (JStr next) args)
            else parse_from rest (set_arg key (JBool true) args)
        | [] => set_arg key (JBool true) args
        end
      else parse_from rest args
  end.

Definition parseArguments (argv : list string) : obj := parse_from (skipn 2 argv) ∅.

Definition flagMappings : list (string * string) :=
  [("c", "csv"); ("t", "template"); ("o", "output"); ("v", "verbose"); ("h", "help")].

Definition normalizeArguments (args : obj) : obj :=
  fold_left
    (fun (normalized : obj) '(short, long) =>
       if CsvParser.is_defined (get args short) && negb (CsvParser.is_defined (get args long))
       then <[long := get args short]> normalized
       else normalized)
    flagMappings args.

Record ArgValidation : Type := mkArgValidation {
  arg_valid : bool;
  arg_errors : list string
}.

(** [if (file && !file.endsWith(ext)) errors.push(message)] *)
Definition check_extension (file : value) (ext message : string) (errors : list string)
    : exc (list string) :=
  if truthy file then
    match file with
    | JStr s => Ok (if negb (endsWith s ext) then errors ++ [message] else errors)
    | _ => Throw CsvParser.TypeError
    end
  else Ok errors.

(** A number that need not be whole, as [Number(v)] gives. *)
Inductive number : Type :=
| NaN
| Finite (q : Q)
| Infinity (negative : bool).

(** [isNaN(n) || n <= 0] *)
Definition not_positive (n : number) : bool :=
  match n with
  | NaN => true
  | Finite q => Qle_bool q 0
  | Infinity negative => negative
  end.

Section Numbers.

(** [Number(v)] *)
Variable Number : value -> number.

Definition validateArguments (args : obj) : exc ArgValidation :=
  if truthy (get args "help") || truthy (get args "h")
     || truthy (get args "version") || truthy (get args "v")
  then Ok (mkArgValidation true [])
  else
    let errors : list string := [] in
    let errors :=
      if negb (truthy (get args "csv")) && negb (truthy (get args "c"))
      then errors ++ ["CSV file path is required (--csv)"] else errors in
    let errors :=
      if negb (truthy (get args "template")) && negb (truthy (get args "t"))
      then errors ++ ["Template file path is required (--template)"] else errors in
    let errors :=
      if negb (truthy (get args "output")) && negb (truthy (get args "o"))
      then errors ++ ["Output file path is required (--output)"] else errors in
    let csvFile := or_else (get args "csv") (get args "c") in
    match check_extension csvFile ".csv" "CSV file must have .csv extension" errors with
    | Throw m => Throw m
    | Ok errors =>
        let templateFile := or_else (get args "template") (get args "t") in
        match check_extension templateFile ".json"
                "Template file must have .json extension" errors with
        | Throw m => Throw m
        | Ok errors =>
            let outputFile := or_else (get args "output") (get args "o") in
            match check_extension outputFile ".csv"
                    "Output file must have .csv extension" errors with
            | Throw m => Throw m
            | Ok errors =>
                let rateLimit := get args "rate-limit" in
                let errors :=
                  if CsvParser.is_defined rateLimit then
                    let rateLimitNum := Number rateLimit in
                    if not_positive rateLimitNum
                    then errors ++ ["Rate limit must be a positive number"]
                    else errors
                  else errors in
                Ok (mkArgValidation (Nat.eqb (List.length errors) 0) errors)
            end
        end
    end.

End Numbers.

End Cli.

(** ** Inputs of the test suites, used in the examples below *)

Module Samples.

Import TemplateProcessor.

Definition text_only_template : Template :=
  mkTemplate (Some "Welcome {first_name}!") (Some "Hello {first_name}") None
    (Some "https://example.com/confirm?token={confirmation_token}") None.

Definition confirm_template : Template :=
  mkTemplate (Some "Welcome {first_name}!") (Some "Confirm: {confirmation_url}") None
    (Some "https://example.com/confirm?token={confirmation_token}&email={email}") None.

Definition test_subscriber : obj :=
  {[ "email" := JStr "test@example.com"; "first_name" := JStr "Test" ]}.

Definition tagged_subscriber : obj :=
  {[ "email" := JStr "user+tag@example.com"; "first_name" := JStr "User" ]}.

(** Three rows, the second one with an address that is not valid. *)
Definition three_rows : list obj :=
  [ {[ "email" := JStr "valid@example.com" ]};
    {[ "email" := JStr "not-an-email" ]};
    {[ "email" := JStr "another@valid.com"; "first_name" := JStr "Jane" ]} ].

Definition log_success : obj := {[ "status" := JStr "success" ]}.
Definition log_failed : obj := {[ "status" := JStr "failed"; "error" := JStr "Error" ]}.

Definition config : MailgunClient.Config :=
  MailgunClient.mkConfig "key-test" "mg.example.com" "noreply@example.com" "Mailer".

(** A provider that counts the messages it is given and accepts them all
    but the second. *)
Definition second_fails (st : nat) (domain : string) (messageData : obj)
    : nat * MailgunClient.Settled :=
  (S st,
   if Nat.eqb st 1 then MailgunClient.Rejected (JStr "Forbidden")
   else MailgunClient.Resolved {[ "id" := JStr "<id>"; "message" := JStr "Queued." ]}).

(** Stand-ins of the shape of a SHA-256 digest in hexadecimal, to run the
    token functions on examples: the bytes of the message in hexadecimal,
    cut or filled with zeros to 64 characters; the keyed one hashes the
    message and then the key. *)
Definition hex_char (n : nat) : ascii :=
  if (n <? 10)%nat then ascii_of_nat (code "0" + n) else ascii_of_nat (code "a" + (n - 10)).

Fixpoint hex_encode (s : string) : string :=
  match s with
  | EmptyString => EmptyString
  | String c s' =>
      String (hex_char (code c / 16)) (String (hex_char (code c mod 16)) (hex_encode s'))
  end.

Definition sample_sha256 (msg : string) : string :=
  String.substring 0 64 (hex_encode msg +:+ string_of_list_ascii (repeat "0"%char 64)).

Definition sample_hex_hmac (key msg : string) : string :=
  sample_sha256 (msg +:+ ":" +:+ key).

End Samples.

(** * The vocabulary of the properties *)

Import TemplateProcessor.

(** ** Rows and skipped entries *)

(** A row as the CSV parser yields it: every field is a string. *)
Definition csv_row (row : obj) : Prop :=
  map_Forall (fun (_ : string) (v : value) => is_string v = true) row.

(** The address the loop validates: the [Email] field, or else the [email]
    field, trimmed; undefined when the row has neither. *)
Definition trimmed_email (row : obj) : value :=
  match or_else (get row "Email") (get row "email") with
  | JStr s => JStr (trim s)
  | _ => JUndefined
  end.

Definition valid_row (row : obj) : bool := CsvParser.validateEmail (trimmed_email row).

(** The entry recorded for the row at index [i] when its address is not valid. *)
Definition skipped_entry (i : nat) (row : obj) : CsvParser.Skipped :=
  CsvParser.mkSkipped (Z.of_nat i + 1)
    (or_else (trimmed_email row) (JStr "empty")) "Invalid email format".

Definition skipped_entries (data : list obj) : list CsvParser.Skipped :=
  omap (fun '(i, row) => if valid_row row then None else Some (skipped_entry i row))
    (imap pair data).

(** The entries recorded for [rows], the first of which has index [i]. *)
Definition skipped_from (i : nat) (rows : list obj) : list CsvParser.Skipped :=
  omap (fun '(j, row) => if valid_row row then None else Some (skipped_entry j row))
    (imap (fun j => pair (i + j)%nat) rows).

(** ** Traces of outside calls *)

(** [segments] joined by [sep]: one [sep] between two consecutive segments,
    none after the last. *)
Fixpoint interleave {A : Type} (sep : A) (segments : list (list A)) : list A :=
  match segments with
  | [] => []
  | [segment] => segment
  | segment :: rest => segment ++ sep :: interleave sep rest
  end.

Definition is_timeout (e : MailgunClient.effect) : bool :=
  match e with MailgunClient.SetTimeout _ => true | _ => false end.

Definition is_progress (e : MailgunClient.effect) : bool :=
  match e with MailgunClient.Progress _ => true | _ => false end.

Definition is_create (e : MailgunClient.effect) : bool :=
  match e with MailgunClient.Create _ _ => true | _ => false end.

Section Sends.

Import MailgunClient.

Context {provider : Type}.
Variable create : provider -> string -> obj -> provider * Settled.
Variable config : Config.
Variable emailTemplate : Template.

(** Every subscriber sent in turn, the provider's state threaded through:
    the final state, and for each subscriber its result and the calls its
    send made. *)
Fixpoint send_each (st : provider) (subscribers : list obj)
    : provider * list (SendResult * list effect) :=
  match subscribers with
  | [] => (st, [])
  | subscriber :: rest =>
      let '(st1, result, sent) :=
        sendEmail create config st (processedEmail emailTemplate subscriber) in
      let '(st2, items) := send_each st1 rest in
      (st2, (mkSendResult (get subscriber "email") result, sent) :: items)
  end.

End Sends.

(** ** Reading a CSV record *)

(** A reader of one record of comma-separated fields: a field that starts
    with a double quote runs to its closing one, two double quotes inside
    standing for one; any other field runs to the next comma and holds no
    double quote and no line feed. *)
Inductive csv_mode : Type := AtStart | Unquoted | Quoted | QuoteSeen.

Fixpoint read_fields (mode : csv_mode) (f : string) (s : string) : option (list string) :=
  match s with
  | EmptyString =>
      match mode with
      | Quoted => None
      | _ => Some [f]
      end
  | String c s' =>
      match mode with
      | AtStart =>
          if Ascii.eqb c Logger.dquote then read_fields Quoted "" s'
          else if Ascii.eqb c "," then cons "" <$> read_fields AtStart "" s'
          else if Ascii.eqb c Logger.newline then None
          else read_fields Unquoted (String c "") s'
      | Unquoted =>
          if Ascii.eqb c "," then cons f <$> read_fields AtStart "" s'
          else if Ascii.eqb c Logger.dquote || Ascii.eqb c Logger.newline then None
          else read_fields Unquoted (f +:+ String c "") s'
      | Quoted =>
          if Ascii.eqb c Logger.dquote then read_fields QuoteSeen f s'
          else read_fields Quoted (f +:+ String c "") s'
      | QuoteSeen =>
          if Ascii.eqb c Logger.dquote then read_fields Quoted (f +:+ String Logger.dquote "") s'
          else if Ascii.eqb c "," then cons f <$> read_fields AtStart "" s'
          else None
      end
  end.

Definition read_csv_record (s : string) : option (list string) := read_fields AtStart "" s.

(** The fields joined by commas. *)
Fixpoint join_comma (fields : list string) : string :=
  match fields with
  | [] => ""
  | [f] => f
  | f :: rest => f +:+ "," +:+ join_comma rest
  end.

(** The text [escapeCSVField] writes for a value: nothing for null and
    undefined, its string otherwise. *)
Definition cell_text (v : value) : string :=
  match v with
  | JNull | JUndefined => ""
  | _ => toString v
  end.

(** A text [escapeCSVField] leaves as it is. *)
Definition plain_text (s : string) : bool :=
  all_chars (fun d => negb (Ascii.eqb d ",") && negb (Ascii.eqb d Logger.dquote)
                      && negb (Ascii.eqb d Logger.newline)) s.

(** [validateEmailData] accepts the data. *)
Definition accepted (emailData : MailgunClient.EmailData) : bool :=
  match MailgunClient.validateEmailData emailData with
  | Ok _ => true
  | Throw _ => false
  end.

(** ** Order of a sorted array *)

(** By the strings of the elements, smaller or equal first. *)
Definition key_le {A : Type} (key : A -> string) (x y : A) : Prop :=
  String.leb (key x) (key y) = true.

(** ** Log entries *)

(** The key [groupLogsByStatus] files an entry under: the entry's status,
    or [unknown] when it has none. *)
Definition status_key (entry : obj) : string :=
  toString (or_else (get entry "status") (JStr "unknown")).

Definition has_status (status : string) (entry : obj) : bool :=
  String.eqb (status_key entry) status.

(** A group with more entries put at its end; no group is made for no entry. *)
Definition extend_group (group : option (list obj)) (entries : list obj)
    : option (list obj) :=
  match entries with
  | [] => group
  | _ => Some (default [] group ++ entries)
  end.

Definition is_failed (entry : obj) : bool := strict_eq_str (get entry "status") "failed".

(** The error [getUniqueErrors] reads from an entry. *)
Definition error_of (entry : obj) : value :=
  or_else (get entry "error") (JStr "Unknown error").

(** The results logged one by one as they arrive, [clock k] being the time
    read for the result at index [k]. *)
Definition log_results (logPath : string) (clock : nat -> string)
    (results : list MailgunClient.SendResult) (fs : Logger.files) : Logger.files :=
  fold_left (fun fs '(k, result) => Logger.logEmailResult logPath (clock k) result fs)
    (imap pair results) fs.

(** The entries logged for the results. *)
Definition logged_entries (clock : nat -> string)
    (results : list MailgunClient.SendResult) : list obj :=
  imap (fun k result => Logger.logEntry (clock k) result) results.

(** The lines [logger.log] and [exportResultsToCSV] write for the results
    numbered from [k] on. *)
Fixpoint csv_lines_from (clock : nat -> string) (k : nat)
    (results : list MailgunClient.SendResult) : string :=
  match results with
  | [] => ""
  | result :: rest =>
      Logger.csvLine (Logger.logEntry (clock k) result) +:+ csv_lines_from clock (S k) rest
  end.

Definition csv_lines (clock : nat -> string) (results : list MailgunClient.SendResult)
    : string :=
  csv_lines_from clock 0 results.

(** ** Tokens *)

(** A digest in hexadecimal, as SHA-256 gives it: 64 characters of [0-9a-f]. *)
Definition hex_digest (s : string) : bool :=
  Nat.eqb (String.length s) 64 && all_chars ConfirmationLinks.is_hex_lower s.

(** The address as the token functions compare it. *)
Definition normalized (e : string) : string := trim (toLowerCase e).

Definition no_dot (s : string) : bool := all_chars (fun c => negb (Ascii.eqb c ".")) s.

(** ** Rendering *)

(** The text a placeholder is replaced by, [context] giving the value that
    goes with its name: the value as a string, and nothing for a value that
    is falsy. *)
Definition placeholder_text (context : string -> value) (key : string) : string :=
  if truthy (context key) then toString (context key) else "".

(** A field of the template rendered in a context: every placeholder is
    replaced by its text; a field the template does not have is undefined. *)
Definition rendered (context : string -> value) (f : option string) : value :=
  match f with
  | Some s => JStr (replace_placeholders (placeholder_text context) s)
  | None => JUndefined
  end.

(** The context of the confirmation URL: the address percent-encoded, the
    token, and under any other name the subscriber's own field. *)
Definition url_context (subscriber : obj) (token : value) (key : string) : value :=
  if String.eqb key "email" then JStr (encodeURIComponent (get subscriber "email"))
  else if String.eqb key "confirmation_token" then token
  else get subscriber key.

(** The context of the subject and of the bodies: the rendered confirmation
    URL, the address, the token, and under any other name the subscriber's
    own field. *)
Definition message_context (template : Template) (subscriber : obj) (token : value)
    (key : string) : value :=
  if String.eqb key "confirmation_url"
  then rendered (url_context subscriber token) (confirmationUrl template)
  else if String.eqb key "email" then get subscriber "email"
  else if String.eqb key "confirmation_token" then token
  else get subscriber key.

(** ** Errors of the CSV validation *)

Definition empty_file : value := JStr "CSV file is empty".

Definition no_email_column : value :=
  JStr ("CSV must contain an " +:+ CsvParser.quoted "Email" +:+ " or "
        +:+ CsvParser.quoted "email" +:+ " column").

(** The outcome of a test that may throw, a throw counting as no. *)
Definition holds {A : Type} (p : A -> exc bool) (x : A) : bool :=
  match p x with
  | Ok b => b
  | Throw _ => false
  end.

(** ** Command-line arguments *)

(** What [parseArguments] stores: a string, or [true] for a flag without value. *)
Definition flag_value (v : value) : bool :=
  match v with
  | JStr _ | JBool true => true
  | _ => false
  end.

(** A flag that makes [validateArguments] skip its checks. *)
Definition skips_validation (args : obj) : bool :=
  truthy (get args "help") || truthy (get args "h")
  || truthy (get args "version") || truthy (get args "v").

(** The value a long name has after [normalizeArguments]. *)
Definition long_or_short (args : obj) (short long : string) : value :=
  if CsvParser.is_defined (get args long) then get args long else get args short.

(** The files [validateArguments] checks the extension of. *)
Definition file_flags (args : obj) : list value :=
  [or_else (get args "csv") (get args "c");
   or_else (get args "template") (get args "t");
   or_else (get args "output") (get args "o")].

(** A file flag on which [endsWith] cannot be called: one that is given
    and is not a string. *)
Definition not_a_path (file : value) : bool := truthy file && negb (is_string file).

Definition no_equals (s : string) : bool := all_chars (fun c => negb (Ascii.eqb c "=")) s.

(** * Properties *)

(** ** The placeholder scan *)

Lemma string_app_cons (c : ascii) (s t : string) :
  String c s +:+ t = String c (s +:+ t).
Proof. reflexivity. Qed.

Lemma string_app_nil_r (s : string) : s +:+ "" = s.
Proof.
  induction s as [|c s IH]; [reflexivity|].
  rewrite string_app_cons. now rewrite IH.
Qed.

Lemma string_length_app (s t : string) :
  String.length (s +:+ t) = (String.length s + String.length t)%nat.
Proof.
  induction s as [|c s IH]; [reflexivity|].
  rewrite string_app_cons. simpl. now rewrite IH.
Qed.

Section Replace.

Variable fn : string -> string.

Lemma take_word_length (s w r : string) :
  take_word s = (w, r) -> (String.length r <= String.length s)%nat.
Proof.
  revert w r; induction s as [|c s IH]; intros w r; simpl.
  - intros [= <- <-]; simpl; lia.
  - destruct (is_word c).
    + destruct (take_word s) as [w' r'] eqn:E. intros [= <- <-].
      specialize (IH _ _ eq_refl). lia.
    + intros [= <- <-]; simpl; lia.
Qed.

Lemma take_word_split (s w r : string) :
  take_word s = (w, r) -> s = w +:+ r /\ all_chars is_word w = true.
Proof.
  revert w r; induction s as [|c s IH]; intros w r; simpl.
  - intros [= <- <-]; auto.
  - destruct (is_word c) eqn:Hc.
    + destruct (take_word s) as [w' r'] eqn:E. intros [= <- <-].
      destruct (IH _ _ eq_refl) as [-> Hw]. simpl. rewrite Hc, Hw. auto.
    + intros [= <- <-]; auto.
Qed.

Lemma take_word_stops (w rest : string) :
  all_chars is_word w = true ->
  take_word (w +:+ String "}" rest) = (w, String "}" rest).
Proof.
  induction w as [|c w IH]; simpl; intros H.
  - reflexivity.
  - apply andb_true_iff in H as [Hc Hw]. rewrite Hc, (IH Hw). reflexivity.
Qed.

Lemma match_placeholder_inv (s key rest : string) :
  match_placeholder s = Some (key, rest) ->
  s = "{" +:+ key +:+ "}" +:+ rest /\ key <> "" /\ all_chars is_word key = true.
Proof.
  unfold match_placeholder. destruct s as [|c s]; [discriminate|].
  destruct (Ascii.eqb_spec c "{") as [->|_]; [|discriminate].
  destruct (take_word s) as [w r] eqn:E.
  destruct w as [|d w]; [discriminate|].
  destruct r as [|e r]; [discriminate|].
  destruct (Ascii.eqb_spec e "}") as [->|_]; [|discriminate].
  intros [= <- <-]. apply take_word_split in E as [-> Hw]. auto.
Qed.

Lemma match_placeholder_intro (key rest : string) :
  key <> "" -> all_chars is_word key = true ->
  match_placeholder ("{" +:+ key +:+ "}" +:+ rest) = Some (key, rest).
Proof.
  intros Hne Hw.
  change ("{" +:+ key +:+ "}" +:+ rest) with (String "{" (key +:+ String "}" rest)).
  unfold match_placeholder. change (Ascii.eqb "{" "{") with true. cbv iota.
  rewrite (take_word_stops _ _ Hw). destruct key; [congruence|]. reflexivity.
Qed.

Lemma match_placeholder_shorter (s key rest : string) :
  match_placeholder s = Some (key, rest) ->
  (String.length rest < String.length s)%nat.
Proof.
  intros H. apply match_placeholder_inv in H as (-> & _ & _).
  rewrite !string_length_app. simpl. lia.
Qed.

(** Any fuel that covers the text gives the same result. *)
Lemma replace_from_fuel (n m : nat) (s : string) :
  (String.length s <= n)%nat -> (String.length s <= m)%nat ->
  replace_from n fn s = replace_from m fn s.
Proof.
  revert m s. induction n as [|n IH]; intros m s Hn Hm.
  - destruct s; [|simpl in Hn; lia]. destruct m; reflexivity.
  - destruct m as [|m].
    + destruct s; [reflexivity|simpl in Hm; lia].
    + simpl. destruct (match_placeholder s) as [[key rest]|] eqn:E.
      * apply match_placeholder_shorter in E. f_equal. apply IH; lia.
      * destruct s as [|c s]; [reflexivity|]. simpl in Hn, Hm.
        f_equal. apply IH; lia.
Qed.

Lemma replace_placeholders_nil : replace_placeholders fn "" = "".
Proof. reflexivity. Qed.

Lemma replace_placeholders_match (s key rest : string) :
  match_placeholder s = Some (key, rest) ->
  replace_placeholders fn s = fn key +:+ replace_placeholders fn rest.
Proof.
  intros E. unfold replace_placeholders.
  pose proof (match_placeholder_shorter _ _ _ E) as Hlt.
  destruct (String.length s) as [|n] eqn:Hn; [lia|].
  simpl. rewrite E. f_equal. apply replace_from_fuel; lia.
Qed.

Lemma replace_placeholders_copy (c : ascii) (s : string) :
  match_placeholder (String c s) = None ->
  replace_placeholders fn (String c s) = String c (replace_placeholders fn s).
Proof.
  intros E. unfold replace_placeholders. cbn [String.length replace_from].
  rewrite E. reflexivity.
Qed.

(** A text without an opening brace holds no placeholder. *)
Lemma replace_placeholders_plain (s : string) :
  all_chars (fun c => negb (Ascii.eqb c "{")) s = true ->
  replace_placeholders fn s = s.
Proof.
  induction s as [|c s IH]; [reflexivity|]. simpl.
  intros [Hc Hs]%andb_true_iff. rewrite replace_placeholders_copy.
  - f_equal. auto.
  - simpl. destruct (Ascii.eqb c "{"); [discriminate|reflexivity].
Qed.

End Replace.

(** ** template-processor.js: [processTemplate] *)

Lemma substitute_truthy (data : obj) (key : string) :
  truthy (get data key) = true -> substitute data key = toString (get data key).
Proof. unfold substitute, or_else. now intros ->. Qed.

Lemma substitute_falsy (data : obj) (key : string) :
  truthy (get data key) = false -> substitute data key = "".
Proof. unfold substitute, or_else. now intros ->. Qed.

Lemma get_absent (data : obj) (key : string) :
  data !! key = None -> Object_prototype key = None -> get data key = JUndefined.
Proof. unfold get. now intros -> ->. Qed.

Lemma processTemplate_string (s : string) (data : obj) :
  processTemplate (JStr s) data = JStr (replace_placeholders (substitute data) s).
Proof. reflexivity. Qed.

(** The tests of the template processor. *)
Example processTemplate_single :
  processTemplate (JStr "Hello {first_name}!") {[ "first_name" := JStr "John" ]}
  = JStr "Hello John!".
Proof. vm_compute. reflexivity. Qed.

Example processTemplate_missing :
  processTemplate (JStr "Hello {first_name} {last_name}!") {[ "first_name" := JStr "John" ]}
  = JStr "Hello John !".
Proof. vm_compute. reflexivity. Qed.

Example processTemplate_empty_data :
  processTemplate (JStr "Hello {first_name}!") ∅ = JStr "Hello !".
Proof. vm_compute. reflexivity. Qed.

Example processTemplate_repeated :
  processTemplate (JStr "{first_name}, welcome {first_name}!") {[ "first_name" := JStr "John" ]}
  = JStr "John, welcome John!".
Proof. vm_compute. reflexivity. Qed.

Example processTemplate_no_placeholder :
  processTemplate (JStr "Hello World!") {[ "first_name" := JStr "John" ]}
  = JStr "Hello World!".
Proof. vm_compute. reflexivity. Qed.

(** C6, as stated, fails. An identifier that is present in the data with
    the value 0 is not replaced by its stringified value ["0"] but by the
    empty string, because the callback returns [data[key] || '']. And an
    identifier that is absent from the data is not always replaced by the
    empty string: [constructor] is found on Object.prototype. *)
Lemma processTemplate_drops_zero :
  (({[ "count" := JNum 0 ]} : obj) !! "count" = Some (JNum 0) /\
   toString (JNum 0) = "0" /\
   processTemplate (JStr "Items: {count}") {[ "count" := JNum 0 ]} = JStr "Items: ") /\
  ((∅ : obj) !! "constructor" = None /\
   processTemplate (JStr "{constructor}") ∅ = JStr "function Object() { [native code] }").
Proof. vm_compute. auto. Qed.

(** C6 (amended). [processTemplate] returns null, undefined and any other
    non-string template unchanged. On a string it scans from left to right:
    a placeholder, an opening brace, one or more word characters and a
    closing brace, is replaced and the scan resumes after it, so repeated
    and distinct placeholders are all substituted; a character where no
    placeholder starts is copied. The replacement is the stringified value
    of [data[identifier]] when that value is truthy, and the empty string
    when it is falsy (the empty string, 0, false, null, undefined), in
    particular when the identifier is absent from the data and names no
    member that every object inherits. *)
Theorem processTemplate_substitutes_placeholders :
  (forall (v : value) (data : obj),
      is_string v = false -> processTemplate v data = v) /\
  (forall data : obj, processTemplate (JStr "") data = JStr "") /\
  (forall (data : obj) (key rest : string),
      key <> "" -> all_chars is_word key = true ->
      processTemplate (JStr ("{" +:+ key +:+ "}" +:+ rest)) data
      = JStr (substitute data key +:+ toString (processTemplate (JStr rest) data))) /\
  (forall (data : obj) (c : ascii) (s : string),
      (forall key rest : string,
          key <> "" -> all_chars is_word key = true ->
          String c s <> "{" +:+ key +:+ "}" +:+ rest) ->
      processTemplate (JStr (String c s)) data
      = JStr (String c (toString (processTemplate (JStr s) data)))) /\
  (forall (data : obj) (key : string),
      truthy (get data key) = true ->
      substitute data key = toString (get data key)) /\
  (forall (data : obj) (key : string),
      truthy (get data key) = false -> substitute data key = "") /\
  (forall (data : obj) (key : string),
      data !! key = None -> Object_prototype key = None ->
      substitute data key = "").
Proof.
  split; [|split; [reflexivity|split; [|split; [|split; [|split]]]]].
  - intros v data Hv. destruct v; try reflexivity. discriminate.
  - intros data key rest Hne Hw. rewrite !processTemplate_string. cbn [toString].
    f_equal. apply replace_placeholders_match. now apply match_placeholder_intro.
  - intros data c s Hno. rewrite !processTemplate_string. cbn [toString].
    f_equal. apply replace_placeholders_copy.
    destruct (match_placeholder (String c s)) as [[key rest]|] eqn:E; [|reflexivity].
    apply match_placeholder_inv in E as (E & Hne & Hw). now destruct (Hno key rest).
  - apply substitute_truthy.
  - apply substitute_falsy.
  - intros data key Hown Hproto. apply substitute_falsy.
    now rewrite get_absent.
Qed.

Lemma processTemplate_substitutes_placeholders_witness :
  processTemplate (JStr ("{" +:+ "first_name" +:+ "}" +:+ ", welcome!"))
    {[ "first_name" := JStr "John" ]}
  = JStr (substitute {[ "first_name" := JStr "John" ]} "first_name"
          +:+ toString (processTemplate (JStr ", welcome!") {[ "first_name" := JStr "John" ]})).
Proof.
  apply (proj1 (proj2 (proj2 processTemplate_substitutes_placeholders))).
  - discriminate.
  - reflexivity.
Defined.

(** ** template-processor.js: [processTemplateForSubscriber] *)

(** The test with a text-only template. *)
Example processTemplateForSubscriber_text_only :
  map_to_list
    (processTemplateForSubscriber Samples.text_only_template Samples.test_subscriber
       (JStr "token123"))
  = [("subject", JStr "Welcome Test!"); ("text", JStr "Hello Test")].
Proof. vm_compute. reflexivity. Qed.

(** The address is percent-encoded in the confirmation URL. *)
Example processTemplateForSubscriber_encodes_email :
  processTemplateForSubscriber Samples.confirm_template Samples.tagged_subscriber
    (JStr "token123") !! "text"
  = Some (JStr
      "Confirm: https://example.com/confirm?token=token123&email=user%2Btag%40example.com").
Proof. vm_compute. reflexivity. Qed.

(** The full context of a subscriber: the token, the address, the rendered
    confirmation URL, and under any other name the subscriber's own field. *)
Lemma fullTemplateData_get (template : Template) (subscriber : obj) (token : value) :
  get (fullTemplateData template subscriber token) "confirmation_token" = token /\
  get (fullTemplateData template subscriber token) "email" = get subscriber "email" /\
  get (fullTemplateData template subscriber token) "confirmation_url"
  = confirmation_url template subscriber token /\
  (forall key : string,
      key <> "confirmation_token" -> key <> "email" -> key <> "confirmation_url" ->
      get (fullTemplateData template subscriber token) key = get subscriber key).
Proof.
  unfold fullTemplateData, templateData, get. split; [|split; [|split]].
  - rewrite !lookup_insert_ne by discriminate. now rewrite lookup_insert_eq.
  - rewrite lookup_insert_ne by discriminate. now rewrite lookup_insert_eq.
  - now rewrite lookup_insert_eq.
  - intros key H1 H2 H3. now rewrite !lookup_insert_ne by congruence.
Qed.

Lemma replace_from_pointwise (fn1 fn2 : string -> string) :
  (forall key, fn1 key = fn2 key) ->
  forall (fuel : nat) (s : string), replace_from fuel fn1 s = replace_from fuel fn2 s.
Proof.
  intros Hfn. induction fuel as [|fuel IH]; intros s; [reflexivity|].
  cbn [replace_from]. destruct (match_placeholder s) as [[key rest]|].
  - now rewrite Hfn, IH.
  - destruct s; [reflexivity|]. now rewrite IH.
Qed.

(** Rendering with an object as the data is rendering in the context of
    what the object holds. *)
Lemma processTemplate_rendered (data : obj) (context : string -> value) (f : option string) :
  (forall key, get data key = context key) ->
  processTemplate (field f) data = rendered context f.
Proof.
  intros Hdata. destruct f as [s|]; [|reflexivity].
  cbn [field from_option rendered]. rewrite processTemplate_string. f_equal.
  apply replace_from_pointwise. intros key.
  unfold substitute, placeholder_text, or_else. rewrite Hdata.
  now destruct (truthy (context key)).
Qed.

Lemma url_data_get (subscriber : obj) (token : value) (key : string) :
  get (<["email" := JStr (encodeURIComponent (get subscriber "email"))]>
         (templateData subscriber token)) key
  = url_context subscriber token key.
Proof.
  unfold url_context, templateData, get.
  destruct (String.eqb_spec key "email") as [->|Hemail].
  - now rewrite lookup_insert_eq.
  - rewrite !lookup_insert_ne by congruence.
    destruct (String.eqb_spec key "confirmation_token") as [->|Htoken].
    + now rewrite lookup_insert_eq.
    + now rewrite lookup_insert_ne by congruence.
Qed.

Lemma fullTemplateData_context (template : Template) (subscriber : obj) (token : value)
    (key : string) :
  get (fullTemplateData template subscriber token) key
  = message_context template subscriber token key.
Proof.
  destruct (fullTemplateData_get template subscriber token) as (Htoken & Hemail & Hurl & Hother).
  unfold message_context.
  destruct (String.eqb_spec key "confirmation_url") as [->|H1].
  - rewrite Hurl. unfold confirmation_url.
    apply processTemplate_rendered. apply url_data_get.
  - destruct (String.eqb_spec key "email") as [->|H2]; [exact Hemail|].
    destruct (String.eqb_spec key "confirmation_token") as [->|H3]; [exact Htoken|].
    now apply Hother.
Qed.

(** C9. For a template without an [html] field, whatever the subscriber and
    the token, the object [processTemplateForSubscriber] returns has no
    [html] key: its keys are exactly [subject] and [text], and each holds
    the template's field rendered: every placeholder in it is replaced, by
    the token for [confirmation_token], by the subscriber's address for
    [email], by the rendered confirmation URL (in which the address is
    percent-encoded) for [confirmation_url], by the subscriber's field of
    that name for any other name, and by nothing when that value is
    falsy. *)
Theorem processTemplateForSubscriber_omits_html
    (template : Template) (subscriber : obj) (token : value) :
  html template = None ->
  processTemplateForSubscriber template subscriber token !! "html" = None /\
  dom (processTemplateForSubscriber template subscriber token)
    = ({[ "subject"; "text" ]} : gset string) /\
  processTemplateForSubscriber template subscriber token !! "subject"
    = Some (rendered (message_context template subscriber token) (subject template)) /\
  processTemplateForSubscriber template subscriber token !! "text"
    = Some (rendered (message_context template subscriber token) (text template)).
Proof.
  intros Hhtml. unfold processTemplateForSubscriber.
  rewrite Hhtml. cbn [field from_option truthy].
  split; [|split; [|split]].
  - rewrite !lookup_insert_ne by discriminate. apply lookup_empty.
  - rewrite !dom_insert_L, dom_empty_L. set_solver.
  - rewrite lookup_insert_ne by discriminate. rewrite lookup_insert_eq. f_equal.
    apply (processTemplate_rendered _ _ (subject template)).
    apply fullTemplateData_context.
  - rewrite lookup_insert_eq. f_equal.
    apply (processTemplate_rendered _ _ (text template)).
    apply fullTemplateData_context.
Qed.

Lemma processTemplateForSubscriber_omits_html_witness :
  processTemplateForSubscriber Samples.confirm_template Samples.tagged_subscriber
    (JStr "token123") !! "html" = None /\
  processTemplateForSubscriber Samples.confirm_template Samples.tagged_subscriber
    (JStr "token123") !! "subject" = Some (JStr "Welcome User!") /\
  processTemplateForSubscriber Samples.confirm_template Samples.tagged_subscriber
    (JStr "token123") !! "text"
  = Some (JStr
      "Confirm: https://example.com/confirm?token=token123&email=user%2Btag%40example.com").
Proof.
  destruct (processTemplateForSubscriber_omits_html
              Samples.confirm_template Samples.tagged_subscriber (JStr "token123") eq_refl)
    as (Hhtml & _ & Hsubject & Htext).
  split; [exact Hhtml|]. split.
  - rewrite Hsubject. vm_compute. reflexivity.
  - rewrite Htext. vm_compute. reflexivity.
Defined.

(** ** confirmation-links.js: [generateTokenForSubscriber] *)

Lemma is_space_lower_char (c : ascii) : is_space (lower_char c) = is_space c.
Proof. destruct c as [[] [] [] [] [] [] [] []]; reflexivity. Qed.

Lemma toLowerCase_nil (s : string) : toLowerCase s = "" -> s = "".
Proof. destruct s; [reflexivity|discriminate]. Qed.

Lemma toLowerCase_trimStart (s : string) :
  toLowerCase (trimStart s) = trimStart (toLowerCase s).
Proof.
  induction s as [|c s IH]; [reflexivity|]. simpl.
  rewrite is_space_lower_char. destruct (is_space c); [exact IH|reflexivity].
Qed.

Lemma toLowerCase_trimEnd (s : string) :
  toLowerCase (trimEnd s) = trimEnd (toLowerCase s).
Proof.
  induction s as [|c s IH]; [reflexivity|]. simpl.
  rewrite <- IH, is_space_lower_char.
  destruct (trimEnd s) as [|d t]; simpl.
  - destruct (is_space c); reflexivity.
  - reflexivity.
Qed.

(** Lower-casing and trimming commute: the source lower-cases first. *)
Lemma toLowerCase_trim (s : string) : toLowerCase (trim s) = trim (toLowerCase s).
Proof. unfold trim. now rewrite toLowerCase_trimEnd, toLowerCase_trimStart. Qed.

Section Tokens.

Import ConfirmationLinks.

Variable hmac : string -> string -> string.
Variable secret : option string.

Lemma generateTokenForSubscriber_string (subscriber : obj) (e : string) :
  get subscriber "email" = JStr e -> e <> "" ->
  generateTokenForSubscriber hmac secret subscriber
  = Ok (substring0 32 (hmac (SECRET_KEY secret) (toLowerCase (trim e)))).
Proof.
  intros He Hne. unfold generateTokenForSubscriber. rewrite He. cbn [truthy].
  destruct (String.eqb_spec e "") as [->|_]; [congruence|].
  cbn [negb]. now rewrite toLowerCase_trim.
Qed.

Lemma generateTokenForSubscriber_no_email (subscriber : obj) :
  truthy (get subscriber "email") = false ->
  generateTokenForSubscriber hmac secret subscriber
  = Throw (JStr "Subscriber must have an email address").
Proof. intros H. unfold generateTokenForSubscriber. now rewrite H. Qed.

End Tokens.




(** The token depends on the address. *)
Example generateTokenForSubscriber_distinct :
  ConfirmationLinks.generateTokenForSubscriber Samples.sample_hex_hmac None
    {[ "email" := JStr "jane@example.com" ]}
  = Ok "6a616e65406578616d706c652e636f6d" /\
  ConfirmationLinks.generateTokenForSubscriber Samples.sample_hex_hmac None
    {[ "email" := JStr "john@example.com" ]}
  = Ok "6a6f686e406578616d706c652e636f6d".
Proof. split; vm_compute; reflexivity. Qed.

(** ** Numbers: rounding to a double *)

Section DoubleFacts.

Import Double.
Local Open Scope Q_scope.

Lemma two_neq_0 : ~ 2 == 0.
Proof. discriminate. Qed.

Lemma Qdiv_mul_cancel (x u : Q) : ~ u == 0 -> x / u * u == x.
Proof. intros Hu. field. exact Hu. Qed.

Lemma pow2_pos (e : Z) : 0 < pow2 e.
Proof. apply Qpower_0_lt. reflexivity. Qed.

Lemma pow2_add (a b : Z) : pow2 (a + b) == pow2 a * pow2 b.
Proof. apply Qpower_plus, two_neq_0. Qed.

Lemma pow2_sub (a b : Z) : pow2 (a - b) == pow2 a / pow2 b.
Proof. apply Qpower_minus, two_neq_0. Qed.

Lemma pow2_Z (a : Z) : (0 <= a)%Z -> pow2 a == inject_Z (2 ^ a).
Proof. intros Ha. symmetry. now apply (Zpower_Qpower 2). Qed.

Lemma pow2_le (a b : Z) : (a <= b)%Z -> pow2 a <= pow2 b.
Proof. intros Hab. apply Qpower_le_compat_l; [exact Hab|discriminate]. Qed.

Lemma pow2_lt_inv (a b : Z) : pow2 a < pow2 b -> (a < b)%Z.
Proof. intros H. apply (Qpower_lt_compat_l_inv 2); [exact H|reflexivity]. Qed.

Lemma frac_le (A B n : Z) (d : positive) :
  (0 < B)%Z -> (A * Zpos d <= n * B)%Z -> inject_Z A / inject_Z B <= n # d.
Proof.
  intros HB H. destruct B as [|B|B]; try lia.
  unfold Qle, Qdiv, Qmult, Qinv, inject_Z. simpl. lia.
Qed.

Lemma frac_lt (A B n : Z) (d : positive) :
  (0 < B)%Z -> (n * B < A * Zpos d)%Z -> n # d < inject_Z A / inject_Z B.
Proof.
  intros HB H. destruct B as [|B|B]; try lia.
  unfold Qlt, Qdiv, Qmult, Qinv, inject_Z. simpl. lia.
Qed.

Lemma exponent_spec (x : Q) :
  0 < x -> pow2 (exponent x) <= x /\ x < pow2 (exponent x + 1).
Proof.
  intros Hx. destruct x as [n d].
  assert (Hn : (0 < n)%Z) by (unfold Qlt in Hx; simpl in Hx; lia).
  unfold exponent. cbn [Qnum Qden].
  set (a := Z.log2 n). set (b := Z.log2 (Zpos d)).
  pose proof (Z.log2_spec n Hn) as [Ha1 Ha2]. fold a in Ha1, Ha2.
  pose proof (Z.log2_spec (Zpos d) ltac:(lia)) as [Hb1 Hb2]. fold b in Hb1, Hb2.
  assert (Ha : (0 <= a)%Z) by apply Z.log2_nonneg.
  assert (Hb : (0 <= b)%Z) by apply Z.log2_nonneg.
  assert (Hpa : (0 < 2 ^ a)%Z) by (apply Z.pow_pos_nonneg; lia).
  assert (Hpb : (0 < 2 ^ b)%Z) by (apply Z.pow_pos_nonneg; lia).
  rewrite Z.pow_succ_r in Ha2, Hb2 by assumption.
  assert (Hlow : pow2 (a - b - 1) <= n # d).
  { replace (a - b - 1)%Z with (a - (b + 1))%Z by lia.
    rewrite pow2_sub, !pow2_Z by lia.
    apply frac_le; [apply Z.pow_pos_nonneg; lia|].
    rewrite Z.pow_add_r by lia. change (2 ^ 1)%Z with 2%Z. nia. }
  assert (Hhigh : n # d < pow2 (a - b + 1)).
  { replace (a - b + 1)%Z with (a + 1 - b)%Z by lia.
    rewrite pow2_sub, !pow2_Z by lia.
    apply frac_lt; [assumption|].
    rewrite Z.pow_add_r by lia. change (2 ^ 1)%Z with 2%Z. nia. }
  destruct (Qle_bool (pow2 (a - b)) (n # d)) eqn:Htest.
  - apply Qle_bool_iff in Htest. now split.
  - split.
    + exact Hlow.
    + replace (a - b - 1 + 1)%Z with (a - b)%Z by lia.
      apply Qnot_le_lt. intros Hle. apply Qle_bool_iff in Hle. congruence.
Qed.

Lemma exponent_unique (x : Q) (e : Z) :
  pow2 e <= x -> x < pow2 (e + 1) -> exponent x = e.
Proof.
  intros Hlow Hhigh.
  assert (Hx : 0 < x) by (eapply Qlt_le_trans; [apply (pow2_pos e)|exact Hlow]).
  destruct (exponent_spec x Hx) as [Hlow' Hhigh'].
  assert (H1 : (exponent x < e + 1)%Z)
    by (apply pow2_lt_inv; eapply Qle_lt_trans; eassumption).
  assert (H2 : (e < exponent x + 1)%Z)
    by (apply pow2_lt_inv; eapply Qle_lt_trans; eassumption).
  lia.
Qed.

Lemma exponent_comp (x y : Q) : 0 < x -> x == y -> exponent x = exponent y.
Proof.
  intros Hx Hxy. destruct (exponent_spec x Hx) as [Hlow Hhigh].
  symmetry. apply exponent_unique; now rewrite <- Hxy.
Qed.

Lemma round_half_even_bounds (y : Q) :
  y - (1 # 2) <= inject_Z (round_half_even y) /\
  inject_Z (round_half_even y) <= y + (1 # 2).
Proof.
  unfold round_half_even.
  pose proof (Qfloor_le y) as Hlow. pose proof (Qlt_floor y) as Hhigh.
  rewrite inject_Z_plus in Hhigh. change (inject_Z 1) with 1 in Hhigh.
  destruct (y - inject_Z (Qfloor y) ?= 1 # 2) eqn:Hcmp.
  - apply Qeq_alt in Hcmp.
    destruct (Z.even (Qfloor y)); rewrite ?inject_Z_plus; change (inject_Z 1) with 1;
      set (f := inject_Z (Qfloor y)) in *; clearbody f; split; lra.
  - apply Qlt_alt in Hcmp. set (f := inject_Z (Qfloor y)) in *; clearbody f. split; lra.
  - apply Qgt_alt in Hcmp. rewrite inject_Z_plus. change (inject_Z 1) with 1.
    set (f := inject_Z (Qfloor y)) in *; clearbody f. split; lra.
Qed.

Lemma round_half_even_comp (x y : Q) : x == y -> round_half_even x = round_half_even y.
Proof.
  intros Hxy. unfold round_half_even.
  rewrite (Qfloor_comp x y Hxy).
  now rewrite (Qcompare_comp (x - inject_Z (Qfloor y)) (y - inject_Z (Qfloor y))
                 ltac:(now rewrite Hxy) (1 # 2) (1 # 2) ltac:(reflexivity)).
Qed.

Lemma Z_le_half (r m : Z) : inject_Z r <= inject_Z m + (1 # 2) -> (r <= m)%Z.
Proof.
  intros H. destruct (Z.le_gt_cases r m) as [|Hgt]; [assumption|].
  assert (H' : inject_Z m + 1 <= inject_Z r).
  { change 1 with (inject_Z 1). rewrite <- inject_Z_plus. rewrite <- Zle_Qle. lia. }
  lra.
Qed.

Lemma round_half_even_le (y : Q) (m : Z) : y <= inject_Z m -> (round_half_even y <= m)%Z.
Proof.
  intros Hy. apply Z_le_half. destruct (round_half_even_bounds y). lra.
Qed.

Lemma round_half_even_ge (y : Q) (m : Z) : inject_Z m <= y -> (m <= round_half_even y)%Z.
Proof.
  intros Hy. apply Z_le_half. destruct (round_half_even_bounds y). lra.
Qed.

Lemma Qabs_pos_eq (x : Q) : 0 <= x -> Qabs x = x.
Proof.
  destruct x as [n d]. unfold Qle. simpl. intros Hn. unfold Qabs. f_equal. lia.
Qed.

Lemma rn_pos (x : Q) :
  0 < x -> rn x = inject_Z (round_half_even (x / pow2 (exponent x - 52))) * pow2 (exponent x - 52).
Proof.
  intros Hx. unfold rn, ulp. rewrite (Qabs_pos_eq x) by lra.
  destruct (Qeq_bool x 0) eqn:E; [|reflexivity].
  apply Qeq_bool_iff in E. lra.
Qed.

Lemma rn_zero (x : Q) : x == 0 -> rn x = 0.
Proof. intros Hx. unfold rn. now rewrite (proj2 (Qeq_bool_iff x 0) Hx). Qed.

(** The error of a rounding is at most half a unit in the last place. *)
Lemma rn_error (x : Q) : 0 <= x -> x - eps * x <= rn x /\ rn x <= x + eps * x.
Proof.
  intros Hx. destruct (Qeq_dec x 0) as [Hzero|Hne].
  { rewrite (rn_zero x Hzero). unfold eps. split; lra. }
  assert (Hpos : 0 < x) by lra.
  rewrite (rn_pos x Hpos).
  destruct (exponent_spec x Hpos) as [Hlow _].
  set (e := exponent x) in *.
  pose proof (pow2_pos (e - 52)) as Hu.
  assert (Hue : pow2 (e - 52) == pow2 e * (1 # 4503599627370496)).
  { replace (e - 52)%Z with (e + -52)%Z by lia. rewrite pow2_add. reflexivity. }
  set (u := pow2 (e - 52)) in *.
  destruct (round_half_even_bounds (x / u)) as [Hr1 Hr2].
  assert (Hxu : x / u * u == x) by (apply Qdiv_mul_cancel; lra).
  set (r := inject_Z (round_half_even (x / u))) in *. clearbody r.
  set (y := x / u) in *. clearbody y.
  set (pe := pow2 e) in *. clearbody pe. clearbody u.
  unfold eps.
  assert (H1 : (y - (1 # 2)) * u <= r * u) by (apply Qmult_le_compat_r; lra).
  assert (H2 : r * u <= (y + (1 # 2)) * u) by (apply Qmult_le_compat_r; lra).
  split; lra.
Qed.

Lemma rn_nonneg (x : Q) : 0 <= x -> 0 <= rn x.
Proof. intros Hx. destruct (rn_error x Hx) as [H _]. unfold eps in H. lra. Qed.

Lemma rn_comp (x y : Q) : x == y -> rn x == rn y.
Proof.
  intros Hxy. unfold rn. rewrite (Qeqb_comp x y Hxy 0 0 ltac:(reflexivity)).
  destruct (Qeq_bool y 0) eqn:E; [reflexivity|].
  assert (Hy : ~ y == 0) by (intros H; apply Qeq_bool_iff in H; congruence).
  assert (Habs : 0 < Qabs x).
  { pose proof (Qabs_nonneg x). destruct (Qeq_dec (Qabs x) 0) as [Hz|]; [|lra].
    exfalso. apply Hy. rewrite <- Hxy.
    pose proof (Qle_Qabs x). pose proof (Qle_Qabs (- x)). rewrite Qabs_opp in *. lra. }
  unfold ulp. rewrite (exponent_comp (Qabs x) (Qabs y) Habs (Qabs_wd x y Hxy)).
  rewrite (round_half_even_comp (x / pow2 (exponent (Qabs y) - 52))
             (y / pow2 (exponent (Qabs y) - 52))) by (now rewrite Hxy).
  reflexivity.
Qed.

(** Rounding does not cross a whole number, up to 2^53. *)
Lemma rn_integer_bounds (x : Q) (m : Z) :
  0 < x -> x < inject_Z (2 ^ 53) ->
  (inject_Z m <= x -> inject_Z m <= rn x) /\ (x <= inject_Z m -> rn x <= inject_Z m).
Proof.
  intros Hpos Hbig. rewrite (rn_pos x Hpos).
  destruct (exponent_spec x Hpos) as [Hlow _].
  set (e := exponent x) in *.
  assert (He : (e < 53)%Z).
  { apply pow2_lt_inv. rewrite (pow2_Z 53) by lia. lra. }
  pose proof (pow2_pos (e - 52)) as Hu.
  assert (Hk : pow2 (e - 52) * inject_Z (2 ^ (52 - e)) == 1).
  { rewrite <- pow2_Z by lia. rewrite <- pow2_add.
    replace (e - 52 + (52 - e))%Z with 0%Z by lia. reflexivity. }
  set (u := pow2 (e - 52)) in *. set (k := (2 ^ (52 - e))%Z) in *.
  assert (Hy : x / u == x * inject_Z k).
  { apply Qmult_inj_r with u; [lra|]. rewrite (Qdiv_mul_cancel x u) by lra.
    rewrite <- Qmult_assoc, (Qmult_comm (inject_Z k)), Hk. ring. }
  assert (Hkpos : 0 < inject_Z k).
  { apply Qmult_lt_l with u; [exact Hu|]. rewrite Hk. lra. }
  rewrite (round_half_even_comp _ _ Hy).
  split; intros Hm.
  - assert (H : (m * k <= round_half_even (x * inject_Z k))%Z).
    { apply round_half_even_ge. rewrite inject_Z_mult. apply Qmult_le_compat_r; lra. }
    rewrite Zle_Qle, inject_Z_mult in H.
    assert (H' : inject_Z m * inject_Z k * u
                 <= inject_Z (round_half_even (x * inject_Z k)) * u)
      by (apply Qmult_le_compat_r; lra).
    rewrite <- Qmult_assoc, (Qmult_comm (inject_Z k)), Hk, Qmult_1_r in H'. exact H'.
  - assert (H : (round_half_even (x * inject_Z k) <= m * k)%Z).
    { apply round_half_even_le. rewrite inject_Z_mult. apply Qmult_le_compat_r; lra. }
    rewrite Zle_Qle, inject_Z_mult in H.
    assert (H' : inject_Z (round_half_even (x * inject_Z k)) * u
                 <= inject_Z m * inject_Z k * u)
      by (apply Qmult_le_compat_r; lra).
    rewrite <- Qmult_assoc, (Qmult_comm (inject_Z k)), Hk, Qmult_1_r in H'. exact H'.
Qed.

Lemma round_half_even_Z (m : Z) : round_half_even (inject_Z m) = m.
Proof.
  unfold round_half_even. rewrite Qfloor_Z.
  destruct (inject_Z m - inject_Z m ?= 1 # 2) eqn:Hcmp; [| reflexivity |].
  - apply Qeq_alt in Hcmp. lra.
  - apply Qgt_alt in Hcmp. lra.
Qed.

Lemma rn_nonzero (x : Q) :
  ~ x == 0 ->
  rn x = inject_Z (round_half_even (x / pow2 (exponent (Qabs x) - 52)))
         * pow2 (exponent (Qabs x) - 52).
Proof.
  intros Hx. unfold rn, ulp. destruct (Qeq_bool x 0) eqn:E; [|reflexivity].
  apply Qeq_bool_iff in E. contradiction.
Qed.

(** A whole number below 2^53, of either sign, is a double. *)
Lemma rn_Z (z : Z) : (Z.abs z < 2 ^ 53)%Z -> rn (inject_Z z) == inject_Z z.
Proof.
  intros Hbig. destruct (Z.eq_dec z 0%Z) as [->|Hne]; [reflexivity|].
  assert (Hx : ~ inject_Z z == 0).
  { unfold Qeq. simpl. lia. }
  rewrite (rn_nonzero _ Hx).
  change (Qabs (inject_Z z)) with (inject_Z (Z.abs z)).
  assert (Hpos : 0 < inject_Z (Z.abs z))
    by (change 0 with (inject_Z 0); rewrite <- Zlt_Qlt; lia).
  destruct (exponent_spec _ Hpos) as [Hlow _].
  set (e := exponent (inject_Z (Z.abs z))) in *.
  assert (He : (e < 53)%Z).
  { apply pow2_lt_inv. rewrite (pow2_Z 53) by lia.
    eapply Qle_lt_trans; [exact Hlow|]. rewrite <- Zlt_Qlt. exact Hbig. }
  pose proof (pow2_pos (e - 52)) as Hu.
  assert (Hk : pow2 (e - 52) * inject_Z (2 ^ (52 - e)) == 1).
  { rewrite <- pow2_Z by lia. rewrite <- pow2_add.
    replace (e - 52 + (52 - e))%Z with 0%Z by lia. reflexivity. }
  set (u := pow2 (e - 52)) in *. set (k := (2 ^ (52 - e))%Z) in *.
  assert (Hy : inject_Z z / u == inject_Z (z * k)).
  { rewrite inject_Z_mult. apply Qmult_inj_r with u; [lra|].
    rewrite (Qdiv_mul_cancel _ u) by lra.
    rewrite <- Qmult_assoc, (Qmult_comm (inject_Z k)), Hk. ring. }
  rewrite (round_half_even_comp _ _ Hy), round_half_even_Z, inject_Z_mult.
  rewrite <- Qmult_assoc, (Qmult_comm (inject_Z k)), Hk. ring.
Qed.

Lemma nearest_exact (z : Z) : (Z.abs z < 2 ^ 53)%Z -> nearest z = z.
Proof.
  intros Hz. unfold nearest. rewrite (Qfloor_comp _ _ (rn_Z z Hz)). apply Qfloor_Z.
Qed.

Lemma rn_upper (x : Q) (m : Z) :
  0 <= x -> x <= inject_Z m -> (m < 2 ^ 53)%Z -> rn x <= inject_Z m.
Proof.
  intros Hx Hm Hbig. destruct (Qeq_dec x 0) as [Hzero|Hne].
  - rewrite (rn_zero x Hzero). lra.
  - assert (Hlt : x < inject_Z (2 ^ 53)).
    { eapply Qle_lt_trans; [exact Hm|]. rewrite <- Zlt_Qlt. exact Hbig. }
    destruct (rn_integer_bounds x m ltac:(lra) Hlt) as [_ H]. exact (H Hm).
Qed.

Lemma Qfloor_unique (y : Q) (m : Z) :
  inject_Z m <= y -> y < inject_Z m + 1 -> Qfloor y = m.
Proof.
  intros Hlow Hhigh.
  pose proof (Qfloor_le y) as H1. pose proof (Qlt_floor y) as H2.
  rewrite inject_Z_plus in H2. change (inject_Z 1) with 1 in H2.
  assert (Ha : inject_Z (Qfloor y) < inject_Z (m + 1)).
  { rewrite inject_Z_plus. change (inject_Z 1) with 1. lra. }
  assert (Hb : inject_Z m < inject_Z (Qfloor y + 1)).
  { rewrite inject_Z_plus. change (inject_Z 1) with 1. lra. }
  rewrite <- Zlt_Qlt in Ha, Hb. lia.
Qed.

(** The whole part of a quotient of whole numbers is that of the division
    in doubles, for a dividend below 2^53. *)
Lemma floor_div (n d : Z) :
  (0 <= n < 2 ^ 53)%Z -> (0 < d)%Z ->
  Qfloor (rn (inject_Z n / inject_Z d)) = (n / d)%Z.
Proof.
  intros [Hn Hbig] Hd.
  assert (Hdq : 0 < inject_Z d) by (change 0 with (inject_Z 0); rewrite <- Zlt_Qlt; lia).
  destruct (Z.eq_dec n 0%Z) as [->|Hne].
  { rewrite rn_zero; [now rewrite Z.div_0_l by lia|]. unfold Qdiv. ring. }
  set (x := inject_Z n / inject_Z d).
  assert (Hnq : 0 < inject_Z n) by (change 0 with (inject_Z 0); rewrite <- Zlt_Qlt; lia).
  assert (Hx : 0 < x) by (apply Qlt_shift_div_l; lra).
  assert (Hxn : x <= inject_Z n).
  { apply Qle_shift_div_r; [exact Hdq|].
    assert (1 <= inject_Z d) by (change 1 with (inject_Z 1); rewrite <- Zle_Qle; lia).
    assert (H0 : inject_Z n * 1 <= inject_Z n * inject_Z d)
      by (apply Qmult_le_l; lra).
    lra. }
  assert (Hxbig : x < inject_Z (2 ^ 53)).
  { eapply Qle_lt_trans; [exact Hxn|]. rewrite <- Zlt_Qlt. lia. }
  pose proof (Z.mul_div_le n d Hd) as Hdiv1.
  pose proof (Z.mul_succ_div_gt n d Hd) as Hdiv2.
  assert (Hlow : inject_Z (n / d) <= x).
  { apply Qle_shift_div_l; [exact Hdq|]. rewrite <- inject_Z_mult, <- Zle_Qle. lia. }
  assert (Hhigh : x * inject_Z d + 1 <= (inject_Z (n / d) + 1) * inject_Z d).
  { unfold x. rewrite Qdiv_mul_cancel by lra.
    change 1 with (inject_Z 1). rewrite <- !inject_Z_plus, <- inject_Z_mult.
    rewrite <- Zle_Qle. lia. }
  destruct (rn_integer_bounds x (n / d) Hx Hxbig) as [Hge _].
  destruct (rn_error x ltac:(lra)) as [_ Herr].
  apply Qfloor_unique; [now apply Hge|].
  assert (Heps : eps * x * inject_Z d < 1).
  { unfold x. rewrite <- Qmult_assoc, Qdiv_mul_cancel by lra. unfold eps.
    assert (inject_Z n < inject_Z (2 ^ 53)) by (rewrite <- Zlt_Qlt; lia).
    change (inject_Z (2 ^ 53)) with (9007199254740992 # 1) in *. lra. }
  apply Qmult_lt_r with (inject_Z d); [exact Hdq|].
  set (r := rn x) in *. clearbody r. set (q := inject_Z (n / d)) in *. clearbody q.
  set (dq := inject_Z d) in *. clearbody dq. clearbody x.
  assert (H3 : r * dq <= (x + eps * x) * dq) by (apply Qmult_le_compat_r; lra).
  lra.
Qed.


(** The rate of success, step by step: the quotient [q], the percentage
    [rn (rn q * 100)], its hundredths and their rounding. *)
Lemma rate_steps (q : Q) :
  0 <= q -> q <= 1 ->
  let b := mul (rn q) 100 in
  let c := mul b 100 in
  let h := Qfloor (c + (1 # 2)) in
  let r := div (inject_Z h) 100 in
  (0 <= b /\ b <= 100 /\
   q * 100 - (1 # 1000000000000) <= b /\ b <= q * 100 + (1 # 1000000000000)) /\
  ((0 <= h <= 10000)%Z /\
   q * 100 * 100 - (1 # 2) - (1 # 100000000000) <= inject_Z h /\
   inject_Z h <= q * 100 * 100 + (1 # 2) + (1 # 100000000000)) /\
  (0 <= r /\ r <= 100 /\
   q * 100 - (1 # 200) - (1 # 1000000000000) <= r /\
   r <= q * 100 + (1 # 200) + (1 # 1000000000000)).
Proof.
  intros Hq0 Hq1. unfold mul, div. cbv zeta.
  pose proof (rn_error q Hq0) as [Ha1 Ha2].
  pose proof (rn_nonneg q Hq0) as Ha0.
  pose proof (rn_upper q 1 Hq0 Hq1 ltac:(lia)) as Ha3.
  change (inject_Z 1) with 1 in Ha3.
  set (a := rn q) in *. clearbody a.
  assert (Hb : 0 <= a * 100) by lra.
  pose proof (rn_error (a * 100) Hb) as [Hb1 Hb2].
  pose proof (rn_nonneg (a * 100) Hb) as Hb0.
  pose proof (rn_upper (a * 100) 100 Hb ltac:(change (inject_Z 100) with 100; lra)
                ltac:(lia)) as Hb3.
  change (inject_Z 100) with 100 in Hb3.
  set (b := rn (a * 100)) in *. clearbody b.
  assert (Hc : 0 <= b * 100) by lra.
  pose proof (rn_error (b * 100) Hc) as [Hc1 Hc2].
  pose proof (rn_nonneg (b * 100) Hc) as Hc0.
  pose proof (rn_upper (b * 100) 10000 Hc ltac:(change (inject_Z 10000) with 10000; lra)
                ltac:(lia)) as Hc3.
  change (inject_Z 10000) with 10000 in Hc3.
  set (c := rn (b * 100)) in *. clearbody c.
  pose proof (Qfloor_le (c + (1 # 2))) as Hh1.
  pose proof (Qlt_floor (c + (1 # 2))) as Hh2.
  rewrite inject_Z_plus in Hh2. change (inject_Z 1) with 1 in Hh2.
  assert (Hh : (0 <= Qfloor (c + (1 # 2)) <= 10000)%Z).
  { split.
    - change 0%Z with (Qfloor 0). apply Qfloor_resp_le. lra.
    - change 10000%Z with (Qfloor (10000 + (1 # 2))). apply Qfloor_resp_le. lra. }
  set (h := Qfloor (c + (1 # 2))) in *. clearbody h.
  assert (Hh0 : 0 <= inject_Z h) by (change 0 with (inject_Z 0); rewrite <- Zle_Qle; lia).
  assert (Hh3 : inject_Z h <= 10000)
    by (change 10000 with (inject_Z 10000); rewrite <- Zle_Qle; lia).
  assert (Hr : 0 <= inject_Z h / 100) by (change (inject_Z h / 100) with (inject_Z h * (1 # 100)); lra).
  pose proof (rn_error _ Hr) as [Hr1 Hr2].
  pose proof (rn_nonneg _ Hr) as Hr0.
  pose proof (rn_upper (inject_Z h / 100) 100 Hr
                ltac:(change (inject_Z h / 100) with (inject_Z h * (1 # 100));
                      change (inject_Z 100) with 100; lra) ltac:(lia)) as Hr3.
  change (inject_Z 100) with 100 in Hr3.
  set (r := rn (inject_Z h / 100)) in *.
  change (inject_Z h / 100) with (inject_Z h * (1 # 100)) in *.
  clearbody r. set (hq := inject_Z h) in *. clearbody hq.
  unfold eps in *.
  repeat split; try lra; lia.
Qed.


Lemma quotient_bounds (k t : Z) :
  (0 <= k <= t)%Z -> (0 < t)%Z -> 0 <= inject_Z k / inject_Z t /\ inject_Z k / inject_Z t <= 1.
Proof.
  intros Hk Ht.
  assert (Hpos : 0 < inject_Z t) by (change 0 with (inject_Z 0); rewrite <- Zlt_Qlt; exact Ht).
  split.
  - apply Qle_shift_div_l; [exact Hpos|]. rewrite Qmult_0_l.
    change 0 with (inject_Z 0). rewrite <- Zle_Qle. lia.
  - apply Qle_shift_div_r; [exact Hpos|]. rewrite Qmult_1_l. rewrite <- Zle_Qle. lia.
Qed.

(** Below 2^53 a whole number is printed with all its digits. *)
Lemma toString_exact (z : Z) :
  (Z.abs z < 2 ^ 53)%Z -> Double.toString z = JS.toString (JNum z).
Proof.
  intros Hz. unfold Double.toString, print_whole.
  destruct z as [|p|p].
  - reflexivity.
  - change (Z.pos p <? 0)%Z with false. cbv iota.
    destruct (Z.ltb_spec (Z.pos p) (2 ^ 53)) as [_|Hbig]; [reflexivity|].
    change (Z.abs (Z.pos p)) with (Z.pos p) in Hz. lia.
  - change (Z.neg p <? 0)%Z with true. cbv iota.
    change (- Z.neg p)%Z with (Z.pos p).
    destruct (Z.ltb_spec (Z.pos p) (2 ^ 53)) as [_|Hbig]; [reflexivity|].
    change (Z.abs (Z.neg p)) with (Z.pos p) in Hz. lia.
Qed.

End DoubleFacts.

(** ** logger.js: [getLogStats] *)

Lemma filter_complement_length {A : Type} (p : A -> bool) (l : list A) :
  (List.length (List.filter p l)
   + List.length (List.filter (fun x => negb (p x)) l) = List.length l)%nat.
Proof.
  induction l as [|x l IH]; [reflexivity|]. simpl.
  destruct (p x); simpl; lia.
Qed.

Lemma is_success_iff (entry : obj) :
  Logger.is_success entry = true <-> get entry "status" = JStr "success".
Proof.
  unfold Logger.is_success, strict_eq_str.
  destruct (get entry "status") as [| | | |s|]; try (split; discriminate).
  rewrite String.eqb_eq. split; congruence.
Qed.

Example getLogStats_empty :
  Logger.getLogStats [] = Logger.mkLogStats 0 0 0 0.
Proof. reflexivity. Qed.

Example getLogStats_mixed :
  let stats :=
    Logger.getLogStats
      [Samples.log_success; Samples.log_failed; Samples.log_success;
       Samples.log_failed; Samples.log_success] in
  Logger.total stats = 5%Z /\ Logger.successful stats = 3%Z /\ Logger.failed stats = 2%Z /\
  (Logger.successRate stats == 60)%Q.
Proof. vm_compute. repeat split. Qed.

Example getLogStats_all_successful :
  (Logger.successRate
     (Logger.getLogStats [Samples.log_success; Samples.log_success; Samples.log_success])
   == 100)%Q.
Proof. vm_compute. reflexivity. Qed.

(** The hundredths are those of the product as the doubles give it: with
    23 successes among 160 entries the percentage is 14.375, the product in
    doubles is a little below 1437.5, and the rate is 14.37. *)
Example getLogStats_rounds_the_double :
  (Logger.successRate
     (Logger.getLogStats (repeat Samples.log_success 23 ++ repeat Samples.log_failed 137))
   == Double.rn (1437 # 100))%Q /\
  (inject_Z 23 / inject_Z 160 * 100 == 14375 # 1000)%Q /\
  (Double.mul (Double.mul (Double.div (inject_Z 23) (inject_Z 160)) 100) 100 < 14375 # 10)%Q.
Proof. vm_compute. repeat split. Qed.

(** C8, as stated, fails: with one success among three entries the rate is
    33.33, the double nearest to it, and neither 1/3 * 100 nor what the
    doubles give for it. *)
Lemma getLogStats_rate_is_rounded :
  (Logger.successRate
     (Logger.getLogStats [Samples.log_success; Samples.log_failed; Samples.log_failed])
   == Double.rn (3333 # 100))%Q /\
  ~ (Logger.successRate
       (Logger.getLogStats [Samples.log_success; Samples.log_failed; Samples.log_failed])
     == (1 / 3) * 100)%Q /\
  ~ (Logger.successRate
       (Logger.getLogStats [Samples.log_success; Samples.log_failed; Samples.log_failed])
     == Double.mul (Double.div 1 3) 100)%Q.
Proof. vm_compute. repeat split; discriminate. Qed.

(** C8 (amended). For every list of log entries, [total] is the number of
    entries, [successful] the number of entries whose status is the string
    success, [failed] is [total - successful], and [successRate] is 0 when
    there is no entry and otherwise successful / total * 100 rounded to two
    decimals in the arithmetic of doubles: the double nearest to a whole
    number of hundredths, between 0 and 10000, that is within a half, and
    the error of the roundings, below 1e-11, of the exact hundredths; the
    rate is within 0.005, and 1e-12, of the exact percentage. *)
Theorem getLogStats_counts_and_rate (logData : list obj) :
  Logger.total (Logger.getLogStats logData) = Z.of_nat (List.length logData) /\
  Logger.successful (Logger.getLogStats logData)
    = Z.of_nat (List.length (List.filter Logger.is_success logData)) /\
  Logger.failed (Logger.getLogStats logData)
    = (Logger.total (Logger.getLogStats logData)
       - Logger.successful (Logger.getLogStats logData))%Z /\
  (logData = [] -> Logger.successRate (Logger.getLogStats logData) = 0%Q) /\
  (logData <> [] ->
   exists hundredths : Z,
     (0 <= hundredths <= 10000)%Z /\
     (Logger.successRate (Logger.getLogStats logData)
      == Double.div (inject_Z hundredths) 100 /\
      inject_Z (Logger.successful (Logger.getLogStats logData))
        / inject_Z (Logger.total (Logger.getLogStats logData)) * 100 * 100
        - (1 # 2) - (1 # 100000000000)
      <= inject_Z hundredths /\
      inject_Z hundredths
      <= inject_Z (Logger.successful (Logger.getLogStats logData))
           / inject_Z (Logger.total (Logger.getLogStats logData)) * 100 * 100
         + (1 # 2) + (1 # 100000000000) /\
      inject_Z (Logger.successful (Logger.getLogStats logData))
        / inject_Z (Logger.total (Logger.getLogStats logData)) * 100
        - (1 # 200) - (1 # 1000000000000)
      <= Logger.successRate (Logger.getLogStats logData) /\
      Logger.successRate (Logger.getLogStats logData)
      <= inject_Z (Logger.successful (Logger.getLogStats logData))
           / inject_Z (Logger.total (Logger.getLogStats logData)) * 100
         + (1 # 200) + (1 # 1000000000000))%Q).
Proof.
  split; [reflexivity|]. split; [reflexivity|]. split; [reflexivity|]. split.
  - intros ->. reflexivity.
  - intros Hne. unfold Logger.getLogStats. cbn [Logger.total Logger.successful Logger.successRate].
    pose proof (filter_complement_length Logger.is_success logData) as Hsum.
    set (t := Z.of_nat (List.length logData)).
    set (k := Z.of_nat (List.length (List.filter Logger.is_success logData))).
    assert (Ht : (0 < t)%Z) by (subst t; destruct logData; [congruence|simpl; lia]).
    assert (Hk : (0 <= k <= t)%Z) by (subst t k; lia).
    destruct (Z.ltb_spec 0 t) as [_|]; [|lia].
    destruct (quotient_bounds k t Hk Ht) as [Hq0 Hq1].
    destruct (rate_steps (inject_Z k / inject_Z t) Hq0 Hq1)
      as (_ & (Hh & Hh1 & Hh2) & (_ & _ & Hr1 & Hr2)).
    exists (Logger.Math_round
              (Double.mul (Double.mul (Double.div (inject_Z k) (inject_Z t)) 100) 100)).
    split; [exact Hh|]. split; [reflexivity|].
    split; [exact Hh1|]. split; [exact Hh2|]. split; [exact Hr1|exact Hr2].
Qed.

Lemma getLogStats_counts_and_rate_witness :
  exists hundredths : Z,
    (0 <= hundredths <= 10000)%Z /\
    (Logger.successRate
       (Logger.getLogStats [Samples.log_success; Samples.log_failed; Samples.log_failed])
     == Double.div (inject_Z hundredths) 100)%Q.
Proof.
  destruct (proj2 (proj2 (proj2 (proj2
    (getLogStats_counts_and_rate
       [Samples.log_success; Samples.log_failed; Samples.log_failed]))))
    ltac:(discriminate)) as [h [Hrange [Hh _]]].
  exists h. split; [exact Hrange|exact Hh].
Defined.

(** C10. For every list of log entries, whatever their statuses,
    [successful + failed = total]: [successful] counts the entries whose
    status is exactly the string success, and every other entry, also one
    with another status or with none, is counted in [failed]. *)
Theorem getLogStats_failed_is_the_rest (logData : list obj) :
  (Logger.successful (Logger.getLogStats logData)
   + Logger.failed (Logger.getLogStats logData)
   = Logger.total (Logger.getLogStats logData))%Z /\
  Logger.successful (Logger.getLogStats logData)
  = Z.of_nat (List.length
      (List.filter (fun entry => bool_decide (get entry "status" = JStr "success")) logData)) /\
  Logger.failed (Logger.getLogStats logData)
  = Z.of_nat (List.length
      (List.filter (fun entry => negb (bool_decide (get entry "status" = JStr "success")))
         logData)).
Proof.
  assert (Hext : forall l : list obj,
            List.filter Logger.is_success l
            = List.filter (fun entry => bool_decide (get entry "status" = JStr "success")) l).
  { intros l. apply List.filter_ext. intros entry.
    destruct (Logger.is_success entry) eqn:E.
    - apply is_success_iff in E. symmetry. now apply bool_decide_eq_true.
    - symmetry. apply bool_decide_eq_false. intros H. apply is_success_iff in H. congruence. }
  unfold Logger.getLogStats.
  cbn [Logger.total Logger.successful Logger.failed].
  rewrite Hext.
  pose proof (filter_complement_length
                (fun entry => bool_decide (get entry "status" = JStr "success")) logData).
  repeat split; lia.
Qed.

(** ** csv-parser.js: [validateEmail] and [validateCSVStructure] *)

(** The addresses of the parser's tests. *)
Example validateEmail_accepts :
  forallb (fun s => CsvParser.validateEmail (JStr s))
    ["test@example.com"; "user.name@domain.co.uk"; "user+tag@example.org";
     "firstname.lastname@company.com"; "email@123.123.123.123";
     "user@domain-name.com"] = true.
Proof. vm_compute. reflexivity. Qed.

Example validateEmail_rejects :
  existsb CsvParser.validateEmail
    [JStr "invalid-email"; JStr "@example.com"; JStr "user@";
     JStr "user..name@example.com"; JStr "user@.com"; JStr "user@domain.";
     JStr ""; JNull; JUndefined; JStr "user name@example.com";
     JStr "user@domain..com"] = false.
Proof. vm_compute. reflexivity. Qed.

Lemma csv_row_get (row : obj) (k : string) :
  csv_row row -> k = "Email" \/ k = "email" ->
  get row k = JUndefined \/ exists s, get row k = JStr s.
Proof.
  intros Hrow Hk. unfold get. destruct (row !! k) as [v|] eqn:E.
  - right. apply Hrow in E. destruct v; try discriminate. eauto.
  - left. destruct Hk as [-> | ->]; reflexivity.
Qed.

Lemma csv_row_trim (row : obj) :
  csv_row row ->
  CsvParser.optional_trim (or_else (get row "Email") (get row "email"))
  = Ok (trimmed_email row).
Proof.
  intros Hrow. unfold trimmed_email.
  destruct (csv_row_get row "Email" Hrow (or_introl eq_refl)) as [-> | [s ->]];
    destruct (csv_row_get row "email" Hrow (or_intror eq_refl)) as [-> | [t ->]];
    unfold or_else; cbn [truthy]; repeat case_match; reflexivity.
Qed.

Lemma skipped_from_cons (i : nat) (row : obj) (rows : list obj) :
  skipped_from i (row :: rows)
  = (if valid_row row then [] else [skipped_entry i row]) ++ skipped_from (S i) rows.
Proof.
  unfold skipped_from. rewrite imap_cons. cbn [omap list_omap].
  replace (i + 0)%nat with i by lia.
  rewrite (imap_ext _ (fun j (x : obj) => (S i + j, x)%nat) rows)
    by (intros j x _; simpl; f_equal; lia).
  destruct (valid_row row); reflexivity.
Qed.

(** The loop, from any index and with any rows already sorted out. *)
Lemma validate_rows_from (rows : list obj) (i : nat)
    (validData : list obj) (skippedEmails : list CsvParser.Skipped) :
  Forall csv_row rows ->
  CsvParser.validate_rows rows (Z.of_nat i) validData skippedEmails
  = Ok (validData ++ List.filter valid_row rows, skippedEmails ++ skipped_from i rows).
Proof.
  intros Hrows. revert i validData skippedEmails.
  induction Hrows as [|row rows Hrow _ IH]; intros i validData skippedEmails.
  - simpl. now rewrite !app_nil_r.
  - cbn [CsvParser.validate_rows]. rewrite (csv_row_trim row Hrow).
    rewrite skipped_from_cons. cbn [List.filter]. fold (valid_row row).
    replace (Z.of_nat i + 1)%Z with (Z.of_nat (S i)) by lia.
    destruct (valid_row row); cbn [negb]; rewrite IH.
    + now rewrite <- app_assoc.
    + rewrite <- app_assoc. unfold skipped_entry.
      now replace (Z.of_nat i + 1)%Z with (Z.of_nat (S i)) by lia.
Qed.

(** The filtering test of the specification. *)
Example validateCSVStructure_three_rows :
  CsvParser.validateCSVStructure Samples.three_rows
  = Ok (CsvParser.mkValidation
          [ {[ "email" := JStr "valid@example.com" ]};
            {[ "email" := JStr "another@valid.com"; "first_name" := JStr "Jane" ]} ]
          [CsvParser.mkSkipped 2 (JStr "not-an-email") "Invalid email format"]
          3 2 1).
Proof. vm_compute. reflexivity. Qed.

(** The earlier revision stops at the invalid row instead. *)
Example validateCSVStructure_fail_fast_three_rows :
  CsvParserFailFast.validateCSVStructure Samples.three_rows
  = Throw (JStr "Invalid email address found: not-an-email").
Proof. vm_compute. reflexivity. Qed.

(** C5. For every non-empty list of CSV rows whose first row has an [Email]
    or [email] column, [validateCSVStructure] does not throw: it returns the
    rows whose address is valid, in their order, as [validData], and one
    entry for each other row, in their order, as [skippedEmails], made of
    the 1-based row number, the trimmed address (the word empty when there
    is none) and the reason Invalid email format. *)
Theorem validateCSVStructure_skips_invalid_rows (data : list obj) (firstRow : obj) :
  head data = Some firstRow ->
  is_Some (firstRow !! "Email") \/ is_Some (firstRow !! "email") ->
  Forall csv_row data ->
  CsvParser.validateCSVStructure data
  = Ok (CsvParser.mkValidation
          (List.filter valid_row data)
          (skipped_entries data)
          (Z.of_nat (List.length data))
          (Z.of_nat (List.length (List.filter valid_row data)))
          (Z.of_nat (List.length (skipped_entries data)))).
Proof.
  intros Hhead Hcolumn Hrows.
  destruct data as [|row rows]; [discriminate|]. injection Hhead as ->.
  unfold CsvParser.validateCSVStructure.
  assert (Hown : negb (hasOwnProperty firstRow "Email")
                 && negb (hasOwnProperty firstRow "email") = false).
  { unfold hasOwnProperty.
    destruct Hcolumn as [H|H]; rewrite (bool_decide_eq_true_2 _ H); cbn [negb];
      [reflexivity|apply andb_false_r]. }
  rewrite <- andb_assoc, Hown, andb_false_r.
  pose proof (validate_rows_from (firstRow :: rows) 0 [] [] Hrows) as Hloop.
  change (Z.of_nat 0) with 0%Z in Hloop. rewrite Hloop. reflexivity.
Qed.

Ltac solve_csv_row :=
  unfold csv_row;
  repeat (apply map_Forall_insert_2; [reflexivity|]);
  first [apply map_Forall_empty | apply map_Forall_singleton; reflexivity].

Lemma three_rows_are_csv_rows : Forall csv_row Samples.three_rows.
Proof.
  unfold Samples.three_rows.
  repeat (apply Forall_cons_2; [solve_csv_row|]). apply Forall_nil_2.
Qed.

Lemma validateCSVStructure_skips_invalid_rows_witness :
  CsvParser.validateCSVStructure Samples.three_rows
  = Ok (CsvParser.mkValidation
          (List.filter valid_row Samples.three_rows)
          (skipped_entries Samples.three_rows)
          (Z.of_nat (List.length Samples.three_rows))
          (Z.of_nat (List.length (List.filter valid_row Samples.three_rows)))
          (Z.of_nat (List.length (skipped_entries Samples.three_rows)))).
Proof.
  apply (validateCSVStructure_skips_invalid_rows Samples.three_rows
           {[ "email" := JStr "valid@example.com" ]}).
  - reflexivity.
  - right. exists (JStr "valid@example.com"). reflexivity.
  - exact three_rows_are_csv_rows.
Defined.

(** ** mailgun-client.js: [sendEmail] and [sendBulkEmails] *)

Section Dispatch.

Import MailgunClient.

Context {provider : Type}.
Variable create : provider -> string -> obj -> provider * Settled.
Variable config : Config.
Variable emailTemplate : Template.

Lemma sendEmail_effects (st : provider) (emailData : EmailData) :
  forallb is_create (sendEmail create config st emailData).2 = true.
Proof.
  unfold sendEmail. destruct (validateEmailData emailData); [|reflexivity].
  destruct (create st _ _) as [st' [response|m]]; reflexivity.
Qed.

Lemma sendEmail_invalid (st : provider) (emailData : EmailData) (m : value) :
  validateEmailData emailData = Throw m ->
  sendEmail create config st emailData = (st, mkEmailResult false None None (Some m), []).
Proof. unfold sendEmail. now intros ->. Qed.

Lemma sendEmail_rejected (st st' : provider) (emailData : EmailData) (m : value) :
  validateEmailData emailData = Ok tt ->
  create st (domain config) (messageData config emailData) = (st', Rejected m) ->
  sendEmail create config st emailData
  = (st', mkEmailResult false None None (Some m),
     [Create (domain config) (messageData config emailData)]).
Proof. unfold sendEmail. now intros -> ->. Qed.

Lemma sendEmail_resolved (st st' : provider) (emailData : EmailData) (response : obj) :
  validateEmailData emailData = Ok tt ->
  create st (domain config) (messageData config emailData) = (st', Resolved response) ->
  sendEmail create config st emailData
  = (st',
     mkEmailResult true (Some (get response "id")) (Some (get response "message")) None,
     [Create (domain config) (messageData config emailData)]).
Proof. unfold sendEmail. now intros -> ->. Qed.

Lemma send_each_length (st : provider) (subscribers : list obj) :
  List.length (send_each create config emailTemplate st subscribers).2 = List.length subscribers.
Proof.
  revert st. induction subscribers as [|subscriber rest IH]; intros st; [reflexivity|].
  simpl. destruct (sendEmail _ _ _ _) as [[st1 result] sent].
  specialize (IH st1). destruct (send_each create config emailTemplate st1 rest) as [st2 items]. simpl in *. lia.
Qed.

Lemma send_each_app (st : provider) (l1 l2 : list obj) :
  send_each create config emailTemplate st (l1 ++ l2)
  = ((send_each create config emailTemplate (send_each create config emailTemplate st l1).1 l2).1,
     (send_each create config emailTemplate st l1).2 ++ (send_each create config emailTemplate (send_each create config emailTemplate st l1).1 l2).2).
Proof.
  revert st. induction l1 as [|subscriber rest IH]; intros st.
  - simpl. now destruct (send_each create config emailTemplate st l2).
  - simpl. destruct (sendEmail _ _ _ _) as [[st1 result] sent].
    rewrite IH. destruct (send_each create config emailTemplate st1 rest) as [st2 items]. reflexivity.
Qed.

(** The loop from index [i] on, in terms of [send_each]. *)
Lemma sendBulkEmails_loop_spec (d : Q) (n : nat) (todo : list obj) (i : nat)
    (st : provider) (results : list SendResult) (trace : list effect) :
  n = (i + List.length todo)%nat ->
  sendBulkEmails_loop create config emailTemplate d n todo i st results trace
  = ((send_each create config emailTemplate st todo).1,
     results ++ map fst (send_each create config emailTemplate st todo).2,
     trace ++ interleave (SetTimeout d) (map snd (send_each create config emailTemplate st todo).2)).
Proof.
  revert i st results trace.
  induction todo as [|subscriber todo' IH]; intros i st results trace Hn.
  - simpl. now rewrite !app_nil_r.
  - cbn [sendBulkEmails_loop send_each].
    destruct (sendEmail _ _ _ _) as [[st1 result] sent].
    rewrite IH by (simpl in Hn; lia).
    destruct (send_each create config emailTemplate st1 todo') as [st2 items] eqn:Heach.
    assert (Hlen : List.length items = List.length todo').
    { pose proof (send_each_length st1 todo') as H. now rewrite Heach in H. }
    cbn [fst snd map]. f_equal; [f_equal; now rewrite <- app_assoc|].
    destruct items as [|item items].
    + destruct todo'; [|discriminate]. simpl in Hn.
      destruct (Z.ltb_spec (Z.of_nat i) (Z.of_nat n - 1)); [lia|].
      simpl. now rewrite app_nil_r.
    + destruct todo' as [|s todo'']; [discriminate|]. simpl in Hn.
      destruct (Z.ltb_spec (Z.of_nat i) (Z.of_nat n - 1)); [|lia].
      cbn [interleave map]. now rewrite <- !app_assoc.
Qed.

Lemma sendBulkEmails_spec (st : provider) (subscribers : list obj) (options : Options) :
  sendBulkEmails create config st subscribers emailTemplate options
  = ((send_each create config emailTemplate st subscribers).1,
     map fst (send_each create config emailTemplate st subscribers).2,
     interleave (SetTimeout (1000 / default (10 : Q) (rateLimit options)))
       (map snd (send_each create config emailTemplate st subscribers).2)).
Proof. unfold sendBulkEmails. now rewrite sendBulkEmails_loop_spec. Qed.

(** The item at index [i]: it is sent in the state the provider is in after
    the items before it. *)
Lemma send_each_lookup (st : provider) (subscribers : list obj) (i : nat) (subscriber : obj) :
  subscribers !! i = Some subscriber ->
  (send_each create config emailTemplate st subscribers).2 !! i
  = Some (mkSendResult (get subscriber "email")
            (sendEmail create config (send_each create config emailTemplate st (take i subscribers)).1
               (processedEmail emailTemplate subscriber)).1.2,
          (sendEmail create config (send_each create config emailTemplate st (take i subscribers)).1
             (processedEmail emailTemplate subscriber)).2).
Proof.
  intros Hi.
  rewrite <- (take_drop_middle subscribers i subscriber Hi) at 1.
  rewrite send_each_app. cbn [snd].
  assert (Hlen : List.length (send_each create config emailTemplate st (take i subscribers)).2 = i).
  { rewrite send_each_length, length_take. apply lookup_lt_Some in Hi. lia. }
  rewrite lookup_app_r by lia. rewrite Hlen, Nat.sub_diag.
  cbn [send_each]. destruct (sendEmail _ _ _ _) as [[st1 result] sent].
  now destruct (send_each create config emailTemplate st1 _).
Qed.

Lemma send_each_emails (st : provider) (subscribers : list obj) :
  map (fun item => email item.1) (send_each create config emailTemplate st subscribers).2
  = map (fun subscriber => get subscriber "email") subscribers.
Proof.
  revert st. induction subscribers as [|subscriber rest IH]; intros st; [reflexivity|].
  simpl. destruct (sendEmail _ _ _ _) as [[st1 result] sent].
  specialize (IH st1). destruct (send_each create config emailTemplate st1 rest) as [st2 items].
  simpl in *. now rewrite IH.
Qed.

Lemma send_each_effects (st : provider) (subscribers : list obj) :
  Forall (fun segment => forallb is_create segment = true)
    (map snd (send_each create config emailTemplate st subscribers).2).
Proof.
  revert st. induction subscribers as [|subscriber rest IH]; intros st.
  - apply Forall_nil_2.
  - simpl. pose proof (sendEmail_effects st (processedEmail emailTemplate subscriber)) as Hsent.
    destruct (sendEmail _ _ _ _) as [[st1 result] sent].
    specialize (IH st1). destruct (send_each create config emailTemplate st1 rest) as [st2 items].
    simpl in *. now apply Forall_cons_2.
Qed.

(** A list of one subscriber whose data passes [validateEmailData]: one
    request, and no pause. *)
Lemma sendBulkEmails_single (st : provider) (subscriber : obj) (options : Options) :
  validateEmailData (processedEmail emailTemplate subscriber) = Ok tt ->
  (sendBulkEmails create config st [subscriber] emailTemplate options).2
  = [Create (domain config) (messageData config (processedEmail emailTemplate subscriber))].
Proof.
  intros Hvalid. rewrite sendBulkEmails_spec. cbn [send_each snd].
  unfold sendEmail. rewrite Hvalid.
  now destruct (create st _ _) as [st' [response|m]].
Qed.

End Dispatch.

Lemma filter_creates (p : MailgunClient.effect -> bool)
    (segment : list MailgunClient.effect) :
  (forall e, is_create e = true -> p e = false) ->
  forallb is_create segment = true -> List.filter p segment = [].
Proof.
  intros Hp. induction segment as [|e segment IH]; [reflexivity|]. simpl.
  intros [He Hs]%andb_true_iff. now rewrite (Hp e He), IH.
Qed.

Lemma interleave_cons {A : Type} (sep : A) (s1 s2 : list A) (rest : list (list A)) :
  interleave sep (s1 :: s2 :: rest) = s1 ++ sep :: interleave sep (s2 :: rest).
Proof. reflexivity. Qed.

(** Between [n] segments of provider calls there are [n - 1] pauses. *)
Lemma interleave_timeouts (d : Q) (segments : list (list MailgunClient.effect)) :
  Forall (fun segment => forallb is_create segment = true) segments ->
  List.filter is_timeout (interleave (MailgunClient.SetTimeout d) segments)
  = repeat (MailgunClient.SetTimeout d) (List.length segments - 1).
Proof.
  induction 1 as [|segment rest Hseg Hrest IH]; [reflexivity|].
  assert (Hnone : List.filter is_timeout segment = []).
  { apply filter_creates; [|exact Hseg]. now intros []. }
  destruct rest as [|segment' rest].
  - simpl. exact Hnone.
  - rewrite interleave_cons, List.filter_app, Hnone.
    change (List.filter is_timeout (MailgunClient.SetTimeout d :: ?l))
      with (MailgunClient.SetTimeout d :: List.filter is_timeout l).
    rewrite IH. cbn [List.length]. rewrite !Nat.sub_succ, !Nat.sub_0_r. reflexivity.
Qed.

Lemma interleave_no_progress (d : Q) (segments : list (list MailgunClient.effect)) :
  Forall (fun segment => forallb is_create segment = true) segments ->
  List.filter is_progress (interleave (MailgunClient.SetTimeout d) segments) = [].
Proof.
  induction 1 as [|segment rest Hseg Hrest IH]; [reflexivity|].
  assert (Hnone : List.filter is_progress segment = []).
  { apply filter_creates; [|exact Hseg]. now intros []. }
  destruct rest as [|segment' rest].
  - simpl. exact Hnone.
  - rewrite interleave_cons, List.filter_app, Hnone. exact IH.
Qed.

(** The failure-isolation test of the specification: the provider rejects
    the second of three messages. *)
Example sendBulkEmails_second_of_three_fails :
  map (fun r => (MailgunClient.email r, MailgunClient.success (MailgunClient.result r),
                 MailgunClient.error (MailgunClient.result r)))
    (MailgunClient.sendBulkEmails Samples.second_fails Samples.config 0%nat
       [Samples.test_subscriber; Samples.tagged_subscriber; Samples.test_subscriber]
       Samples.text_only_template (MailgunClient.mkOptions (Some 10%Q) None)).1.2
  = [(JStr "test@example.com", true, None);
     (JStr "user+tag@example.com", false, Some (JStr "Forbidden"));
     (JStr "test@example.com", true, None)].
Proof. vm_compute. reflexivity. Qed.

(** C3. For every provider, list of subscribers, template and options,
    [sendBulkEmails] returns one result per subscriber, in the order of the
    subscribers: the result at index [i] carries the address of the
    subscriber at index [i] and the outcome of that subscriber's own send,
    made in the state the provider is in after the sends before it, whatever
    their outcomes. A send whose data is refused by [validateEmailData] or
    whose request the provider rejects gives [success = false] and [error]
    set to the message thrown. *)
Theorem sendBulkEmails_isolates_failures {provider : Type}
    (create : provider -> string -> obj -> provider * MailgunClient.Settled)
    (config : MailgunClient.Config) (st : provider) (subscribers : list obj)
    (emailTemplate : Template) (options : MailgunClient.Options) :
  List.length (MailgunClient.sendBulkEmails create config st subscribers emailTemplate options).1.2
  = List.length subscribers /\
  map MailgunClient.email
    (MailgunClient.sendBulkEmails create config st subscribers emailTemplate options).1.2
  = map (fun subscriber => get subscriber "email") subscribers /\
  (forall (i : nat) (subscriber : obj),
      subscribers !! i = Some subscriber ->
      (MailgunClient.sendBulkEmails create config st subscribers emailTemplate options).1.2 !! i
      = Some (MailgunClient.mkSendResult (get subscriber "email")
                (MailgunClient.sendEmail create config
                   (MailgunClient.sendBulkEmails create config st (take i subscribers)
                      emailTemplate options).1.1
                   (MailgunClient.processedEmail emailTemplate subscriber)).1.2)) /\
  (forall (st0 : provider) (emailData : MailgunClient.EmailData) (m : value),
      MailgunClient.validateEmailData emailData = Throw m ->
      (MailgunClient.sendEmail create config st0 emailData).1.2
      = MailgunClient.mkEmailResult false None None (Some m)) /\
  (forall (st0 st1 : provider) (emailData : MailgunClient.EmailData) (m : value),
      MailgunClient.validateEmailData emailData = Ok tt ->
      create st0 (MailgunClient.domain config) (MailgunClient.messageData config emailData)
      = (st1, MailgunClient.Rejected m) ->
      (MailgunClient.sendEmail create config st0 emailData).1.2
      = MailgunClient.mkEmailResult false None None (Some m)).
Proof.
  rewrite sendBulkEmails_spec. cbn [fst snd].
  split; [|split; [|split; [|split]]].
  - now rewrite length_map, send_each_length.
  - rewrite <- send_each_emails with (create := create) (config := config)
      (emailTemplate := emailTemplate) (st := st).
    now rewrite map_map.
  - intros i subscriber Hi. rewrite sendBulkEmails_spec. cbn [fst snd].
    rewrite list_lookup_fmap, (send_each_lookup _ _ _ _ _ _ _ Hi). reflexivity.
  - intros st0 emailData m Hthrow. now rewrite (sendEmail_invalid _ _ _ _ _ Hthrow).
  - intros st0 st1 emailData m Hvalid Hrejected.
    now rewrite (sendEmail_rejected _ _ _ _ _ _ Hvalid Hrejected).
Qed.

Lemma sendBulkEmails_isolates_failures_witness :
  (MailgunClient.sendBulkEmails Samples.second_fails Samples.config 0%nat
     [Samples.test_subscriber; Samples.tagged_subscriber; Samples.test_subscriber]
     Samples.text_only_template (MailgunClient.mkOptions (Some 10%Q) None)).1.2 !! 2%nat
  = Some (MailgunClient.mkSendResult (get Samples.test_subscriber "email")
            (MailgunClient.sendEmail Samples.second_fails Samples.config
               (MailgunClient.sendBulkEmails Samples.second_fails Samples.config 0%nat
                  (take 2 [Samples.test_subscriber; Samples.tagged_subscriber;
                           Samples.test_subscriber])
                  Samples.text_only_template (MailgunClient.mkOptions (Some 10%Q) None)).1.1
               (MailgunClient.processedEmail Samples.text_only_template
                  Samples.test_subscriber)).1.2).
Proof.
  apply (proj1 (proj2 (proj2
    (sendBulkEmails_isolates_failures Samples.second_fails Samples.config 0%nat
       [Samples.test_subscriber; Samples.tagged_subscriber; Samples.test_subscriber]
       Samples.text_only_template (MailgunClient.mkOptions (Some 10%Q) None))))).
  reflexivity.
Defined.

(** The calls made for five subscribers at ten per second: five requests
    with a pause of 100 ms between two of them, none after the last. *)
Example sendBulkEmails_five_at_ten_per_second :
  map (fun e => match e with
                | MailgunClient.SetTimeout ms => Some (Qred ms)
                | _ => None
                end)
    (MailgunClient.sendBulkEmails Samples.second_fails Samples.config 0%nat
       (repeat Samples.test_subscriber 5) Samples.text_only_template
       (MailgunClient.mkOptions (Some 10%Q) None)).2
  = [None; Some 100%Q; None; Some 100%Q; None; Some 100%Q; None; Some 100%Q; None].
Proof. vm_compute. reflexivity. Qed.

(** C4. For every list of n subscribers, n >= 1, and every rate limit
    greater than 0, the calls [sendBulkEmails] makes are the calls of the
    first subscriber's send, a pause, the calls of the second one's, a
    pause, and so on up to the calls of the last one's: n groups of
    provider calls with one pause of 1000 / rateLimit milliseconds, a
    positive time, between two consecutive groups, n - 1 pauses in all, and
    none after the last group. *)
Theorem sendBulkEmails_pauses_between_items {provider : Type}
    (create : provider -> string -> obj -> provider * MailgunClient.Settled)
    (config : MailgunClient.Config) (st : provider) (subscribers : list obj)
    (emailTemplate : Template) (options : MailgunClient.Options) (limit : Q) :
  (1 <= List.length subscribers)%nat ->
  (0 < limit)%Q ->
  MailgunClient.rateLimit options = Some limit ->
  (MailgunClient.sendBulkEmails create config st subscribers emailTemplate options).2
  = interleave (MailgunClient.SetTimeout (1000 / limit))
      (map snd (send_each create config emailTemplate st subscribers).2) /\
  List.length (map snd (send_each create config emailTemplate st subscribers).2)
  = List.length subscribers /\
  Forall (fun segment => forallb is_create segment = true)
    (map snd (send_each create config emailTemplate st subscribers).2) /\
  List.filter is_timeout
    (MailgunClient.sendBulkEmails create config st subscribers emailTemplate options).2
  = repeat (MailgunClient.SetTimeout (1000 / limit)) (List.length subscribers - 1) /\
  (0 < 1000 / limit)%Q.
Proof.
  intros Hn Hlimit Hoption. rewrite sendBulkEmails_spec, Hoption. cbn [snd default].
  pose proof (send_each_effects create config emailTemplate st subscribers) as Hsegments.
  assert (Hlen : List.length (map snd (send_each create config emailTemplate st subscribers).2)
                 = List.length subscribers)
    by now rewrite length_map, send_each_length.
  split; [reflexivity|]. split; [exact Hlen|]. split; [exact Hsegments|]. split.
  - now rewrite interleave_timeouts, Hlen.
  - apply Qlt_shift_div_l; [exact Hlimit|]. now rewrite Qmult_0_l.
Qed.

Lemma sendBulkEmails_pauses_between_items_witness :
  List.filter is_timeout
    (MailgunClient.sendBulkEmails Samples.second_fails Samples.config 0%nat
       (repeat Samples.test_subscriber 5) Samples.text_only_template
       (MailgunClient.mkOptions (Some 10%Q) None)).2
  = repeat (MailgunClient.SetTimeout (1000 / 10)) (5 - 1).
Proof.
  refine (proj1 (proj2 (proj2 (proj2
    (sendBulkEmails_pauses_between_items Samples.second_fails Samples.config 0%nat
       (repeat Samples.test_subscriber 5) Samples.text_only_template
       (MailgunClient.mkOptions (Some 10%Q) None) 10%Q _ _ _))))).
  - simpl. lia.
  - reflexivity.
  - reflexivity.
Defined.

(** C2 fails on the code: [sendBulkEmails] reads only [rateLimit] from its
    options. With a progress callback supplied the run is the same as
    without one and makes no progress call at all; for one subscriber it
    makes one request to the provider and returns one result, and the
    callback is not invoked. *)
Theorem sendBulkEmails_ignores_onProgress :
  (forall (provider : Type)
      (create : provider -> string -> obj -> provider * MailgunClient.Settled)
      (config : MailgunClient.Config) (st : provider) (subscribers : list obj)
      (emailTemplate : Template) (limit : option Q)
      (callback : MailgunClient.ProgressData -> unit),
      MailgunClient.sendBulkEmails create config st subscribers emailTemplate
        (MailgunClient.mkOptions limit (Some callback))
      = MailgunClient.sendBulkEmails create config st subscribers emailTemplate
          (MailgunClient.mkOptions limit None) /\
      List.filter is_progress
        (MailgunClient.sendBulkEmails create config st subscribers emailTemplate
           (MailgunClient.mkOptions limit (Some callback))).2 = []) /\
  map is_create
    (MailgunClient.sendBulkEmails Samples.second_fails Samples.config 0%nat
       [Samples.test_subscriber] Samples.text_only_template
       (MailgunClient.mkOptions (Some 10%Q) (Some (fun _ => tt)))).2 = [true] /\
  List.length
    (MailgunClient.sendBulkEmails Samples.second_fails Samples.config 0%nat
       [Samples.test_subscriber] Samples.text_only_template
       (MailgunClient.mkOptions (Some 10%Q) (Some (fun _ => tt)))).1.2 = 1%nat.
Proof.
  split; [|split; vm_compute; reflexivity].
  intros provider create config st subscribers emailTemplate limit callback.
  split; [reflexivity|].
  rewrite sendBulkEmails_spec. cbn [snd].
  apply interleave_no_progress, send_each_effects.
Qed.

(** C1 fails on the code: [sendBulkEmails] renders the template with its own
    [processTemplate] over the subscriber's fields alone; it computes no
    token and does not call [processTemplateForSubscriber]. For the
    subscriber user+tag@example.com and a text that holds the placeholder
    [confirmation_url], the message posted to the provider has the text
    "Confirm: ", the placeholder left empty, where the rendering of
    [processTemplateForSubscriber] with the subscriber's token has the
    confirmation link. *)
Theorem sendBulkEmails_leaves_confirmation_url_empty :
  forall (provider : Type)
    (create : provider -> string -> obj -> provider * MailgunClient.Settled)
    (st : provider) (options : MailgunClient.Options)
    (hmac : string -> string -> string) (secret : option string),
    (MailgunClient.sendBulkEmails create Samples.config st [Samples.tagged_subscriber]
       Samples.confirm_template options).2
    = [MailgunClient.Create "mg.example.com"
         (MailgunClient.messageData Samples.config
            (MailgunClient.processedEmail Samples.confirm_template
               Samples.tagged_subscriber))] /\
    MailgunClient.messageData Samples.config
      (MailgunClient.processedEmail Samples.confirm_template Samples.tagged_subscriber)
      !! "text" = Some (JStr "Confirm: ") /\
    exists token : string,
      ConfirmationLinks.generateTokenForSubscriber hmac secret Samples.tagged_subscriber
      = Ok token /\
      processTemplateForSubscriber Samples.confirm_template Samples.tagged_subscriber
        (JStr token) !! "text"
      = Some (JStr ("Confirm: https://example.com/confirm?token=" +:+ token
                    +:+ "&email=user%2Btag%40example.com")).
Proof.
  intros provider create st options hmac secret. split; [|split].
  - apply (sendBulkEmails_single create Samples.config Samples.confirm_template st
             Samples.tagged_subscriber options).
    vm_compute. reflexivity.
  - vm_compute. reflexivity.
  - eexists. split.
    + apply generateTokenForSubscriber_string with (e := "user+tag@example.com");
        [reflexivity|discriminate].
    + set (token := substring0 32 _). clearbody token.
      destruct token as [|a token]; vm_compute; [reflexivity|].
      do 2 f_equal.
      repeat match goal with
             | |- String ?c _ = String ?c _ => apply (f_equal (String c))
             end.
      exact (string_app_nil_r (token +:+ "&email=user%2Btag%40example.com")).
Qed.

(** * Further properties *)

(** ** The placeholder scan, by cases *)

(** A property holds of every text when it holds of the empty text, of a
    text that starts with a placeholder when it holds of what follows it,
    and of a text that starts with another character when it holds of the
    rest. *)
Lemma placeholder_scan_ind (P : string -> Prop) :
  P "" ->
  (forall s key rest, match_placeholder s = Some (key, rest) -> P rest -> P s) ->
  (forall c s, match_placeholder (String c s) = None -> P s -> P (String c s)) ->
  forall s, P s.
Proof.
  intros Hnil Hmatch Hcopy s.
  remember (String.length s) as n eqn:Hn. revert s Hn.
  induction n as [n IH] using lt_wf_ind. intros s Hn.
  destruct (match_placeholder s) as [[key rest]|] eqn:E.
  - apply (Hmatch s key rest E).
    apply (IH (String.length rest)); [|reflexivity].
    pose proof (match_placeholder_shorter s key rest E). lia.
  - destruct s as [|c s]; [exact Hnil|].
    apply (Hcopy c s E). apply (IH (String.length s)); [|reflexivity].
    simpl in Hn. lia.
Qed.

Lemma matches_from_fuel (n m : nat) (s : string) :
  (String.length s <= n)%nat -> (String.length s <= m)%nat ->
  matches_from n s = matches_from m s.
Proof.
  revert m s. induction n as [|n IH]; intros m s Hn Hm.
  - destruct s; [|simpl in Hn; lia]. destruct m; reflexivity.
  - destruct m as [|m].
    + destruct s; [reflexivity|simpl in Hm; lia].
    + simpl. destruct (match_placeholder s) as [[key rest]|] eqn:E.
      * apply match_placeholder_shorter in E. f_equal. apply IH; lia.
      * destruct s as [|c s]; [reflexivity|]. simpl in Hn, Hm. apply IH; lia.
Qed.

Lemma match_placeholders_match (s key rest : string) :
  match_placeholder s = Some (key, rest) ->
  match_placeholders s = ("{" +:+ key +:+ "}") :: match_placeholders rest.
Proof.
  intros E. unfold match_placeholders.
  pose proof (match_placeholder_shorter _ _ _ E) as Hlt.
  destruct (String.length s) as [|n] eqn:Hn; [lia|].
  simpl. rewrite E. f_equal. apply matches_from_fuel; lia.
Qed.

Lemma match_placeholders_copy (c : ascii) (s : string) :
  match_placeholder (String c s) = None ->
  match_placeholders (String c s) = match_placeholders s.
Proof.
  intros E. unfold match_placeholders. cbn [String.length matches_from].
  now rewrite E.
Qed.

Lemma drop_last_brace (key : string) : drop_last (key +:+ "}") = key.
Proof.
  induction key as [|c key IH]; [reflexivity|].
  rewrite string_app_cons. cbn [drop_last]. rewrite IH.
  destruct key; reflexivity.
Qed.

Lemma slice_inner_placeholder (key : string) : slice_inner ("{" +:+ key +:+ "}") = key.
Proof. exact (drop_last_brace key). Qed.

(** ** Sets in insertion order, and sorting *)

Section Sets.

Context {A : Type} `{EqDecision A}.

Lemma set_add_elem (set : list A) (x y : A) :
  y ∈ set_add set x <-> y ∈ set \/ y = x.
Proof.
  unfold set_add. case_bool_decide as Hx.
  - split; [auto|]. intros [Hy| ->]; assumption.
  - rewrite elem_of_app, list_elem_of_singleton. reflexivity.
Qed.

Lemma set_add_NoDup (set : list A) (x : A) : NoDup set -> NoDup (set_add set x).
Proof.
  intros Hset. unfold set_add. case_bool_decide as Hx; [assumption|].
  apply NoDup_app. split; [assumption|]. split.
  - intros y Hy ->%list_elem_of_singleton. contradiction.
  - apply NoDup_singleton.
Qed.

Lemma fold_set_add_elem (l set : list A) (y : A) :
  y ∈ fold_left set_add l set <-> y ∈ set \/ y ∈ l.
Proof.
  revert set. induction l as [|x l IH]; intros set; simpl.
  - rewrite elem_of_nil. tauto.
  - rewrite IH, set_add_elem, elem_of_cons. tauto.
Qed.

Lemma fold_set_add_NoDup (l set : list A) : NoDup set -> NoDup (fold_left set_add l set).
Proof.
  revert set. induction l as [|x l IH]; intros set Hset; simpl; [assumption|].
  apply IH, set_add_NoDup, Hset.
Qed.

Lemma new_Set_elem (l : list A) (y : A) : y ∈ new_Set l <-> y ∈ l.
Proof. unfold new_Set. rewrite fold_set_add_elem, elem_of_nil. tauto. Qed.

Lemma new_Set_NoDup (l : list A) : NoDup (new_Set l).
Proof. apply fold_set_add_NoDup, NoDup_nil_2. Qed.

End Sets.

Section Sorting.

Context {A : Type} (key : A -> string).

Local Abbreviation key_le := (key_le key).

Lemma ltb_leb (s t : string) : String.ltb s t = true -> String.leb s t = true.
Proof.
  unfold String.ltb, String.leb. now destruct (String.compare s t).
Qed.

Lemma not_ltb_leb (s t : string) : String.ltb s t = false -> String.leb t s = true.
Proof.
  unfold String.ltb, String.leb. rewrite (String.compare_antisym s t).
  now destruct (String.compare t s).
Qed.

Lemma sort_insert_perm (x : A) (sorted : list A) : sort_insert key x sorted ≡ₚ x :: sorted.
Proof.
  induction sorted as [|y rest IH]; simpl; [reflexivity|].
  destruct (String.ltb (key x) (key y)); [reflexivity|].
  rewrite IH. apply Permutation_swap.
Qed.

Lemma sort_insert_HdRel (x y : A) (sorted : list A) :
  key_le y x -> HdRel key_le y sorted -> HdRel key_le y (sort_insert key x sorted).
Proof.
  intros Hyx Hhd. destruct sorted as [|z rest]; simpl.
  - now constructor.
  - destruct (String.ltb (key x) (key z)); constructor; [assumption|].
    now inversion Hhd.
Qed.

Lemma sort_insert_sorted (x : A) (sorted : list A) :
  Sorted key_le sorted -> Sorted key_le (sort_insert key x sorted).
Proof.
  induction 1 as [|y rest Hrest IH Hhd]; simpl.
  - repeat constructor.
  - destruct (String.ltb (key x) (key y)) eqn:E.
    + constructor; [now constructor|]. constructor. now apply ltb_leb.
    + constructor; [exact IH|]. apply sort_insert_HdRel; [|exact Hhd].
      now apply not_ltb_leb.
Qed.

Lemma sort_fold_perm (l sorted : list A) :
  fold_left (fun sorted x => sort_insert key x sorted) l sorted ≡ₚ sorted ++ l.
Proof.
  revert sorted. induction l as [|x l IH]; intros sorted; simpl.
  - now rewrite app_nil_r.
  - rewrite IH, sort_insert_perm. simpl. apply Permutation_middle.
Qed.

Lemma sort_fold_sorted (l sorted : list A) :
  Sorted key_le sorted ->
  Sorted key_le (fold_left (fun sorted x => sort_insert key x sorted) l sorted).
Proof.
  revert sorted. induction l as [|x l IH]; intros sorted Hs; simpl; [assumption|].
  apply IH, sort_insert_sorted, Hs.
Qed.

Lemma sort_by_perm (l : list A) : sort_by key l ≡ₚ l.
Proof. unfold sort_by. now rewrite sort_fold_perm. Qed.

Lemma sort_by_sorted (l : list A) : Sorted key_le (sort_by key l).
Proof. apply sort_fold_sorted. constructor. Qed.

Lemma sort_by_elem (l : list A) (x : A) : x ∈ sort_by key l <-> x ∈ l.
Proof. now rewrite sort_by_perm. Qed.

Lemma sort_by_NoDup (l : list A) : NoDup l -> NoDup (sort_by key l).
Proof. now rewrite sort_by_perm. Qed.

End Sorting.

(** ** template-processor.js: [getTemplateVariables] *)

Lemma placeholder_keys_match (s key rest : string) :
  match_placeholder s = Some (key, rest) ->
  map slice_inner (match_placeholders s) = key :: map slice_inner (match_placeholders rest).
Proof.
  intros E. rewrite (match_placeholders_match s key rest E). cbn [map].
  now rewrite slice_inner_placeholder.
Qed.

Lemma placeholder_keys_copy (c : ascii) (s : string) :
  match_placeholder (String c s) = None ->
  map slice_inner (match_placeholders (String c s)) = map slice_inner (match_placeholders s).
Proof. intros E. now rewrite (match_placeholders_copy c s E). Qed.

(** The replacement is only asked about the names that are matched. *)
Lemma replace_placeholders_ext (fn1 fn2 : string -> string) (s : string) :
  (forall key, key ∈ map slice_inner (match_placeholders s) -> fn1 key = fn2 key) ->
  replace_placeholders fn1 s = replace_placeholders fn2 s.
Proof.
  induction s as [|s key rest E IH|c s E IH] using placeholder_scan_ind; intros Hfn.
  - reflexivity.
  - rewrite (placeholder_keys_match s key rest E) in Hfn.
    rewrite !(replace_placeholders_match _ s key rest E).
    rewrite (Hfn key) by apply list_elem_of_here.
    f_equal. apply IH. intros k Hk. apply Hfn. now apply list_elem_of_further.
  - rewrite (placeholder_keys_copy c s E) in Hfn.
    rewrite !(replace_placeholders_copy _ c s E). f_equal. now apply IH.
Qed.

Lemma replace_placeholders_no_match (fn : string -> string) (s : string) :
  map slice_inner (match_placeholders s) = [] -> replace_placeholders fn s = s.
Proof.
  induction s as [|s key rest E IH|c s E IH] using placeholder_scan_ind; intros Hnone.
  - reflexivity.
  - now rewrite (placeholder_keys_match s key rest E) in Hnone.
  - rewrite (placeholder_keys_copy c s E) in Hnone.
    rewrite (replace_placeholders_copy _ c s E). f_equal. now apply IH.
Qed.

Lemma placeholder_keys_words (s key : string) :
  key ∈ map slice_inner (match_placeholders s) ->
  key <> "" /\ all_chars is_word key = true.
Proof.
  induction s as [|s k rest E IH|c s E IH] using placeholder_scan_ind.
  - intros H. now apply elem_of_nil in H.
  - rewrite (placeholder_keys_match s k rest E). intros [->|H]%elem_of_cons; [|auto].
    now apply match_placeholder_inv in E as (_ & Hne & Hw).
  - now rewrite (placeholder_keys_copy c s E).
Qed.

Lemma getTemplateVariables_string (s : string) :
  getTemplateVariables (JStr s) = new_Set (map slice_inner (match_placeholders s)).
Proof.
  unfold getTemplateVariables. cbn [truthy].
  destruct (String.eqb_spec s "") as [->|_]; reflexivity.
Qed.

(** X1. The variables [getTemplateVariables] extracts from a string are
    distinct identifiers of word characters, and they are all the rendering
    depends on: two data objects that agree on them render the string
    alike, and a string without variables is rendered unchanged. A template
    that is not a string has no variables. *)
Theorem getTemplateVariables_frame_rendering (s : string) :
  NoDup (getTemplateVariables (JStr s)) /\
  (forall key : string,
      key ∈ getTemplateVariables (JStr s) ->
      key <> "" /\ all_chars is_word key = true) /\
  (forall data1 data2 : obj,
      (forall key : string,
          key ∈ getTemplateVariables (JStr s) -> get data1 key = get data2 key) ->
      processTemplate (JStr s) data1 = processTemplate (JStr s) data2) /\
  (getTemplateVariables (JStr s) = [] ->
   forall data : obj, processTemplate (JStr s) data = JStr s) /\
  (forall v : value, is_string v = false -> getTemplateVariables v = []).
Proof.
  rewrite getTemplateVariables_string.
  split; [apply new_Set_NoDup|]. split; [|split; [|split]].
  - intros key Hkey. apply (proj1 (new_Set_elem _ _)) in Hkey.
    now apply placeholder_keys_words in Hkey.
  - intros data1 data2 Hagree. rewrite !processTemplate_string. f_equal.
    apply replace_placeholders_ext. intros key Hkey.
    apply (proj2 (new_Set_elem _ _)) in Hkey.
    unfold substitute. now rewrite (Hagree key).
  - intros Hnone data. rewrite processTemplate_string. f_equal.
    apply replace_placeholders_no_match.
    destruct (map slice_inner (match_placeholders s)) as [|key keys] eqn:E; [reflexivity|].
    assert (Hin : key ∈ new_Set (key :: keys))
      by (apply (proj2 (new_Set_elem _ _)), list_elem_of_here).
    rewrite Hnone in Hin. now apply elem_of_nil in Hin.
  - intros v Hv. destruct v; try reflexivity. discriminate.
Qed.

Lemma getTemplateVariables_frame_rendering_witness :
  processTemplate (JStr "Hello {first_name}!")
    {[ "first_name" := JStr "John"; "email" := JStr "john@example.com" ]}
  = processTemplate (JStr "Hello {first_name}!") {[ "first_name" := JStr "John" ]}.
Proof.
  apply (proj1 (proj2 (proj2 (getTemplateVariables_frame_rendering "Hello {first_name}!")))).
  intros key Hkey.
  assert (Hvars : getTemplateVariables (JStr "Hello {first_name}!") = ["first_name"])
    by (vm_compute; reflexivity).
  rewrite Hvars in Hkey. apply list_elem_of_singleton in Hkey as ->. reflexivity.
Defined.

(** The tests of [getTemplateVariables]. *)
Example getTemplateVariables_first_occurrences :
  getTemplateVariables (JStr "{first_name}, welcome {first_name}! {last_name}")
  = ["first_name"; "last_name"].
Proof. vm_compute. reflexivity. Qed.

(** ** template-processor.js: [getAllTemplateVariables] and
    [validateSubscriberForTemplate] *)

Lemma add_field_variables_elem (allVariables : list string) (f : option string) (key : string) :
  key ∈ add_field_variables allVariables f
  <-> key ∈ allVariables \/ key ∈ getTemplateVariables (field f).
Proof.
  unfold add_field_variables. destruct (truthy (field f)) eqn:Hf.
  - apply fold_set_add_elem.
  - assert (Hnone : getTemplateVariables (field f) = []).
    { destruct f as [s|]; [|reflexivity]. unfold getTemplateVariables.
      cbn [field from_option] in *. now rewrite Hf. }
    rewrite Hnone, elem_of_nil. tauto.
Qed.

Lemma add_field_variables_NoDup (allVariables : list string) (f : option string) :
  NoDup allVariables -> NoDup (add_field_variables allVariables f).
Proof.
  intros Hall. unfold add_field_variables.
  destruct (truthy (field f)); [|assumption]. now apply fold_set_add_NoDup.
Qed.

Lemma Object_keys_elem (o : obj) (key : string) :
  key ∈ Object_keys o <-> is_Some (o !! key).
Proof.
  unfold Object_keys. rewrite list_elem_of_fmap. split.
  - intros [[k v] [-> Hkv]]. apply elem_of_map_to_list in Hkv. now exists v.
  - intros [v Hv]. exists (key, v). split; [reflexivity|]. now apply elem_of_map_to_list.
Qed.

(** X2. [getAllTemplateVariables] returns the variables of the subject, the
    text, the html and the confirmation URL of a template, each once, in
    sorted order. *)
Theorem getAllTemplateVariables_sorted_union (template : Template) :
  Sorted (key_le id) (getAllTemplateVariables template) /\
  NoDup (getAllTemplateVariables template) /\
  (forall key : string,
      key ∈ getAllTemplateVariables template
      <-> key ∈ getTemplateVariables (field (subject template)) \/
          key ∈ getTemplateVariables (field (text template)) \/
          key ∈ getTemplateVariables (field (html template)) \/
          key ∈ getTemplateVariables (field (confirmationUrl template))).
Proof.
  unfold getAllTemplateVariables. split; [apply sort_by_sorted|]. split.
  - apply sort_by_NoDup. cbn [fold_left].
    repeat apply add_field_variables_NoDup. apply NoDup_nil_2.
  - intros key. rewrite sort_by_elem. cbn [fold_left].
    rewrite !add_field_variables_elem, elem_of_nil. tauto.
Qed.

Lemma validateSubscriberForTemplate_required_elem (subscriber : obj) (template : Template)
    (f : string) :
  f ∈ required (validateSubscriberForTemplate subscriber template)
  <-> f = "email" \/
      (f ∈ getAllTemplateVariables template /\
       f <> "confirmation_token" /\ f <> "confirmation_url").
Proof.
  unfold validateSubscriberForTemplate. cbn [required].
  rewrite new_Set_elem. cbn [app]. rewrite elem_of_cons.
  rewrite list_elem_of_In, List.filter_In, <- list_elem_of_In.
  unfold array_includes. rewrite negb_true_iff, bool_decide_eq_false.
  rewrite !elem_of_cons, elem_of_nil. tauto.
Qed.

Lemma validateSubscriberForTemplate_missing_elem (subscriber : obj) (template : Template)
    (f : string) :
  f ∈ missing (validateSubscriberForTemplate subscriber template)
  <-> f ∈ required (validateSubscriberForTemplate subscriber template) /\
      subscriber !! f = None.
Proof.
  unfold validateSubscriberForTemplate at 1. cbn [missing].
  rewrite list_elem_of_In, List.filter_In, <- list_elem_of_In.
  unfold array_includes. rewrite negb_true_iff, bool_decide_eq_false.
  rewrite Object_keys_elem, <- eq_None_not_Some. reflexivity.
Qed.

Lemma validateSubscriberForTemplate_valid (subscriber : obj) (template : Template) :
  valid (validateSubscriberForTemplate subscriber template) = true
  <-> forall f : string,
        f ∈ required (validateSubscriberForTemplate subscriber template) ->
        is_Some (subscriber !! f).
Proof.
  split.
  - intros Hvalid f Hf.
    destruct (subscriber !! f) as [v|] eqn:E; [now exists v|].
    assert (Hm : f ∈ missing (validateSubscriberForTemplate subscriber template))
      by now apply validateSubscriberForTemplate_missing_elem.
    unfold validateSubscriberForTemplate in Hvalid, Hm. cbn [valid missing] in Hvalid, Hm.
    apply Nat.eqb_eq, nil_length_inv in Hvalid. rewrite Hvalid in Hm.
    now apply elem_of_nil in Hm.
  - intros Hall.
    destruct (missing (validateSubscriberForTemplate subscriber template)) as [|f fs] eqn:E.
    + unfold validateSubscriberForTemplate in *. cbn [valid missing] in *. now rewrite E.
    + assert (Hm : f ∈ missing (validateSubscriberForTemplate subscriber template))
        by (rewrite E; apply list_elem_of_here).
      apply validateSubscriberForTemplate_missing_elem in Hm as [Hreq Hnone].
      destruct (Hall f Hreq) as [v Hv]. congruence.
Qed.

(** X3. [validateSubscriberForTemplate] requires [email] and every variable
    of the template but the two the renderer supplies itself; it reports
    as missing exactly the required names the subscriber does not have, and
    as valid exactly the subscribers that have them all. For a valid
    subscriber every variable of the template is a property of the context
    [processTemplateForSubscriber] renders with. *)
Theorem validateSubscriberForTemplate_reports_missing
    (subscriber : obj) (template : Template) :
  (forall f : string,
      f ∈ required (validateSubscriberForTemplate subscriber template)
      <-> f = "email" \/
          (f ∈ getAllTemplateVariables template /\
           f <> "confirmation_token" /\ f <> "confirmation_url")) /\
  (forall f : string,
      f ∈ missing (validateSubscriberForTemplate subscriber template)
      <-> f ∈ required (validateSubscriberForTemplate subscriber template) /\
          subscriber !! f = None) /\
  (valid (validateSubscriberForTemplate subscriber template) = true
   <-> forall f : string,
         f ∈ required (validateSubscriberForTemplate subscriber template) ->
         is_Some (subscriber !! f)) /\
  (valid (validateSubscriberForTemplate subscriber template) = true ->
   forall (token : value) (key : string),
     key ∈ getAllTemplateVariables template ->
     is_Some (fullTemplateData template subscriber token !! key)).
Proof.
  split; [apply validateSubscriberForTemplate_required_elem|].
  split; [apply validateSubscriberForTemplate_missing_elem|].
  split; [apply validateSubscriberForTemplate_valid|].
  intros Hvalid token key Hkey. unfold fullTemplateData, templateData.
  destruct (decide (key = "confirmation_url")) as [->|Hurl];
    [rewrite lookup_insert_eq; eauto|].
  rewrite lookup_insert_ne by congruence.
  destruct (decide (key = "email")) as [->|Hemail];
    [rewrite lookup_insert_eq; eauto|].
  rewrite lookup_insert_ne by congruence.
  destruct (decide (key = "confirmation_token")) as [->|Htoken];
    [rewrite lookup_insert_eq; eauto|].
  rewrite lookup_insert_ne by congruence.
  apply (proj1 (validateSubscriberForTemplate_valid subscriber template) Hvalid).
  apply validateSubscriberForTemplate_required_elem. auto.
Qed.

Lemma validateSubscriberForTemplate_reports_missing_witness :
  is_Some (fullTemplateData Samples.confirm_template Samples.tagged_subscriber
             (JStr "token123") !! "first_name").
Proof.
  apply (proj2 (proj2 (proj2
    (validateSubscriberForTemplate_reports_missing Samples.tagged_subscriber
       Samples.confirm_template)))).
  - vm_compute. reflexivity.
  - apply list_elem_of_In. vm_compute. auto 10.
Defined.

(** A subscriber without the name the subject asks for. *)
Example validateSubscriberForTemplate_no_first_name :
  missing (validateSubscriberForTemplate {[ "email" := JStr "jane@example.com" ]}
             Samples.confirm_template) = ["first_name"].
Proof. vm_compute. reflexivity. Qed.

(** ** mailgun-client.js: the local [processTemplate] *)

Lemma local_processTemplate_agrees (template : option string) (data : obj) :
  MailgunClient.processTemplate template data
  = TemplateProcessor.processTemplate (field template) data.
Proof.
  unfold MailgunClient.processTemplate. destruct template as [s|]; [|reflexivity].
  cbn [field from_option truthy processTemplate].
  destruct (String.eqb_spec s "") as [->|_]; reflexivity.
Qed.

(** X4. The local [processTemplate] of mailgun-client.js and the exported
    one of template-processor.js return the same value on every field of a
    template. So what [sendBulkEmails] renders for a field that uses
    neither [confirmation_token] nor [confirmation_url] is what
    [processTemplateForSubscriber] renders for it, with any token. *)
Theorem sendBulkEmails_rendering_agrees
    (template : Template) (subscriber : obj) (token : value) (f : option string) :
  MailgunClient.processTemplate f subscriber
  = TemplateProcessor.processTemplate (field f) subscriber /\
  ("confirmation_token" ∉ getTemplateVariables (field f) ->
   "confirmation_url" ∉ getTemplateVariables (field f) ->
   MailgunClient.processTemplate f subscriber
   = TemplateProcessor.processTemplate (field f)
       (fullTemplateData template subscriber token)).
Proof.
  split; [apply local_processTemplate_agrees|].
  intros Htoken Hurl. rewrite local_processTemplate_agrees.
  destruct f as [s|]; [|reflexivity]. cbn [field from_option] in *.
  rewrite !processTemplate_string. f_equal.
  apply replace_placeholders_ext. intros key Hkey.
  assert (Hvar : key ∈ getTemplateVariables (JStr s))
    by (rewrite getTemplateVariables_string; now apply (proj2 (new_Set_elem _ _))).
  unfold substitute. f_equal. f_equal.
  destruct (fullTemplateData_get template subscriber token) as (_ & Hemail & _ & Hother).
  destruct (decide (key = "email")) as [->|Hne]; [now rewrite Hemail|].
  symmetry. apply Hother; congruence.
Qed.

Lemma sendBulkEmails_rendering_agrees_witness :
  MailgunClient.processTemplate (Some "Welcome {first_name}!") Samples.tagged_subscriber
  = TemplateProcessor.processTemplate (JStr "Welcome {first_name}!")
      (fullTemplateData Samples.confirm_template Samples.tagged_subscriber (JStr "token123")).
Proof.
  apply (proj2 (sendBulkEmails_rendering_agrees Samples.confirm_template
                  Samples.tagged_subscriber (JStr "token123")
                  (Some "Welcome {first_name}!"))).
  - intros H. apply list_elem_of_In in H. vm_compute in H. intuition discriminate.
  - intros H. apply list_elem_of_In in H. vm_compute in H. intuition discriminate.
Defined.

(** ** mailgun-client.js: [validateEmailData], [sendEmail] and the message *)

Lemma validateEmailData_ok (emailData : MailgunClient.EmailData) :
  MailgunClient.validateEmailData emailData = Ok tt
  <-> truthy (MailgunClient.to emailData) = true /\
      CsvParser.validateEmail (MailgunClient.to emailData) = true /\
      truthy (MailgunClient.email_subject emailData) = true /\
      (truthy (MailgunClient.email_text emailData) = true \/
       truthy (MailgunClient.email_html emailData) = true).
Proof.
  unfold MailgunClient.validateEmailData.
  destruct (truthy (MailgunClient.to emailData));
    destruct (CsvParser.validateEmail (MailgunClient.to emailData));
    destruct (truthy (MailgunClient.email_subject emailData));
    destruct (truthy (MailgunClient.email_text emailData));
    destruct (truthy (MailgunClient.email_html emailData));
    cbn; intuition discriminate.
Qed.

Lemma validateEmailData_cases (emailData : MailgunClient.EmailData) :
  MailgunClient.validateEmailData emailData = Ok tt \/
  exists m, MailgunClient.validateEmailData emailData = Throw m.
Proof.
  destruct (MailgunClient.validateEmailData emailData) as [[]|m]; eauto.
Qed.

(** X5. [sendEmail] makes no request for data [validateEmailData] refuses
    and leaves the provider as it was, returning the failure; for data it
    accepts it makes exactly one request, with the message built from the
    data, and returns what the provider answers. It never throws, and its
    result has an error exactly when it is not a success. *)
Theorem sendEmail_requests_once {provider : Type}
    (create : provider -> string -> obj -> provider * MailgunClient.Settled)
    (config : MailgunClient.Config) (st : provider) (emailData : MailgunClient.EmailData) :
  (forall m : value,
      MailgunClient.validateEmailData emailData = Throw m ->
      MailgunClient.sendEmail create config st emailData
      = (st, MailgunClient.mkEmailResult false None None (Some m), [])) /\
  (MailgunClient.validateEmailData emailData = Ok tt ->
   (MailgunClient.sendEmail create config st emailData).2
   = [MailgunClient.Create (MailgunClient.domain config)
        (MailgunClient.messageData config emailData)] /\
   (MailgunClient.sendEmail create config st emailData).1.1
   = (create st (MailgunClient.domain config)
        (MailgunClient.messageData config emailData)).1) /\
  (MailgunClient.success (MailgunClient.sendEmail create config st emailData).1.2 = true
   <-> MailgunClient.error (MailgunClient.sendEmail create config st emailData).1.2 = None) /\
  (MailgunClient.success (MailgunClient.sendEmail create config st emailData).1.2 = true
   -> MailgunClient.validateEmailData emailData = Ok tt /\
      exists response : obj,
        (create st (MailgunClient.domain config)
           (MailgunClient.messageData config emailData)).2
        = MailgunClient.Resolved response).
Proof.
  split; [intros m Hm; now apply sendEmail_invalid|].
  unfold MailgunClient.sendEmail.
  destruct (MailgunClient.validateEmailData emailData) as [[]|m] eqn:Hvalid.
  - destruct (create st _ _) as [st' [response|m]] eqn:Hcreate; cbn.
    + repeat split; eauto; discriminate.
    + repeat split; try discriminate.
  - cbn. repeat split; discriminate.
Qed.

Lemma sendEmail_requests_once_witness :
  MailgunClient.sendEmail Samples.second_fails Samples.config 0%nat
    (MailgunClient.processedEmail Samples.text_only_template
       {[ "email" := JStr "not-an-email" ]})
  = (0%nat,
     MailgunClient.mkEmailResult false None None (Some (JStr "Invalid recipient email format")),
     []).
Proof.
  apply (proj1 (sendEmail_requests_once Samples.second_fails Samples.config 0%nat
                  (MailgunClient.processedEmail Samples.text_only_template
                     {[ "email" := JStr "not-an-email" ]}))).
  vm_compute. reflexivity.
Defined.

Lemma header_key_inj (k1 k2 : string) : "h:" +:+ k1 = "h:" +:+ k2 -> k1 = k2.
Proof. intros H. now injection H. Qed.

(** The headers folded into a message [m0]. *)
Lemma fold_headers_lookup (m0 hs : obj) :
  (forall k : string,
      map_fold (fun key v (m : obj) => <["h:" +:+ key := v]> m) m0 hs !! ("h:" +:+ k)
      = match hs !! k with Some v => Some v | None => m0 !! ("h:" +:+ k) end) /\
  (forall j : string,
      (forall k : string, j <> "h:" +:+ k) ->
      map_fold (fun key v (m : obj) => <["h:" +:+ key := v]> m) m0 hs !! j = m0 !! j).
Proof.
  apply (map_fold_weak_ind
    (fun (r : obj) (hs : obj) =>
       (forall k : string,
           r !! ("h:" +:+ k)
           = match hs !! k with Some v => Some v | None => m0 !! ("h:" +:+ k) end) /\
       (forall j : string, (forall k : string, j <> "h:" +:+ k) -> r !! j = m0 !! j))).
  - split; [|reflexivity]. intros k. now rewrite lookup_empty.
  - intros i x m r Hi [IHh IHo]. split.
    + intros k. destruct (decide (i = k)) as [->|Hne].
      * now rewrite !lookup_insert_eq.
      * rewrite !lookup_insert_ne; [apply IHh|assumption|].
        intros H. apply Hne. now apply header_key_inj.
    + intros j Hj. rewrite lookup_insert_ne; [now apply IHo|].
      intros H. now apply (Hj i).
Qed.

(** X6. In the message [sendEmail] posts, [from], [to], [subject], [text]
    and [html] are those of the configuration and of the email data,
    whatever the custom headers; each custom header is under its name
    prefixed with [h:], and there is no other [h:] field. *)
Theorem messageData_headers_are_prefixed
    (config : MailgunClient.Config) (emailData : MailgunClient.EmailData) :
  MailgunClient.messageData config emailData !! "from"
  = Some (JStr (MailgunClient.fromName config +:+ " <"
                +:+ MailgunClient.fromEmail config +:+ ">")) /\
  MailgunClient.messageData config emailData !! "to"
  = Some (MailgunClient.to emailData) /\
  MailgunClient.messageData config emailData !! "subject"
  = Some (MailgunClient.email_subject emailData) /\
  MailgunClient.messageData config emailData !! "text"
  = Some (MailgunClient.email_text emailData) /\
  MailgunClient.messageData config emailData !! "html"
  = Some (MailgunClient.email_html emailData) /\
  (forall k : string,
      MailgunClient.messageData config emailData !! ("h:" +:+ k)
      = default ∅ (MailgunClient.email_headers emailData) !! k).
Proof.
  unfold MailgunClient.messageData.
  set (m0 := <["html" := _]> _).
  assert (Hbase : forall k : string, m0 !! ("h:" +:+ k) = None).
  { intros k. subst m0. change ("h:" +:+ k) with (String "h" (String ":" k)).
    do 5 (rewrite lookup_insert_ne; [|discriminate]). apply lookup_empty. }
  assert (Hfields :
            m0 !! "from"
            = Some (JStr (MailgunClient.fromName config +:+ " <"
                          +:+ MailgunClient.fromEmail config +:+ ">")) /\
            m0 !! "to" = Some (MailgunClient.to emailData) /\
            m0 !! "subject" = Some (MailgunClient.email_subject emailData) /\
            m0 !! "text" = Some (MailgunClient.email_text emailData) /\
            m0 !! "html" = Some (MailgunClient.email_html emailData)).
  { subst m0. repeat split;
      repeat (rewrite lookup_insert_ne by discriminate); apply lookup_insert_eq. }
  destruct Hfields as (Hfrom & Hto & Hsubject & Htext & Hhtml).
  destruct (MailgunClient.email_headers emailData) as [hs|]; cbn [default].
  - destruct (fold_headers_lookup m0 hs) as [Hh Ho].
    assert (Hfield : forall j : string,
              j ∈ ["from"; "to"; "subject"; "text"; "html"] ->
              forall k : string, j <> "h:" +:+ k).
    { intros j Hj k. change ("h:" +:+ k) with (String "h" (String ":" k)).
      repeat (apply elem_of_cons in Hj as [->|Hj]; [discriminate|]).
      now apply elem_of_nil in Hj. }
    split; [rewrite Ho; [exact Hfrom|apply Hfield; set_solver]|].
    split; [rewrite Ho; [exact Hto|apply Hfield; set_solver]|].
    split; [rewrite Ho; [exact Hsubject|apply Hfield; set_solver]|].
    split; [rewrite Ho; [exact Htext|apply Hfield; set_solver]|].
    split; [rewrite Ho; [exact Hhtml|apply Hfield; set_solver]|].
    intros k. rewrite Hh, Hbase. unfold id. now destruct (hs !! k).
  - split; [exact Hfrom|]. split; [exact Hto|]. split; [exact Hsubject|].
    split; [exact Htext|]. split; [exact Hhtml|].
    intros k. now rewrite Hbase, lookup_empty.
Qed.

(** A header named like a field of the message does not replace it. *)
Example messageData_header_named_subject :
  MailgunClient.messageData Samples.config
    (MailgunClient.mkEmailData (JStr "a@b.co") (JStr "Hello") (JStr "Hi") JUndefined
       (Some {[ "subject" := JStr "Other" ]})) !! "subject" = Some (JStr "Hello").
Proof. vm_compute. reflexivity. Qed.

(** ** mailgun-client.js: the requests of [sendBulkEmails] *)

Lemma interleave_creates (d : Q) (segments : list (list MailgunClient.effect)) :
  Forall (fun segment => forallb is_create segment = true) segments ->
  List.filter is_create (interleave (MailgunClient.SetTimeout d) segments)
  = concat segments.
Proof.
  induction 1 as [|segment rest Hseg Hrest IH]; [reflexivity|].
  assert (Hall : List.filter is_create segment = segment).
  { clear -Hseg. induction segment as [|e segment IH]; [reflexivity|].
    simpl in *. apply andb_true_iff in Hseg as [He Hs]. rewrite He. f_equal. auto. }
  destruct rest as [|segment' rest].
  - simpl. now rewrite app_nil_r.
  - rewrite interleave_cons, List.filter_app, Hall.
    change (List.filter is_create (MailgunClient.SetTimeout d :: ?l))
      with (List.filter is_create l).
    now rewrite IH.
Qed.

Lemma send_each_requests {provider : Type}
    (create : provider -> string -> obj -> provider * MailgunClient.Settled)
    (config : MailgunClient.Config) (emailTemplate : Template)
    (st : provider) (subscribers : list obj) :
  concat (map snd (send_each create config emailTemplate st subscribers).2)
  = map (fun subscriber =>
           MailgunClient.Create (MailgunClient.domain config)
             (MailgunClient.messageData config
                (MailgunClient.processedEmail emailTemplate subscriber)))
      (List.filter
         (fun subscriber => accepted (MailgunClient.processedEmail emailTemplate subscriber))
         subscribers).
Proof.
  revert st. induction subscribers as [|subscriber rest IH]; intros st; [reflexivity|].
  cbn [send_each List.filter]. unfold accepted at 1. unfold MailgunClient.sendEmail.
  destruct (MailgunClient.validateEmailData _) as [[]|m].
  - destruct (create st _ _) as [st1 [response|m]];
      specialize (IH st1);
      destruct (send_each create config emailTemplate st1 rest) as [st2 items];
      cbn in *; now rewrite IH.
  - specialize (IH st).
    destruct (send_each create config emailTemplate st rest) as [st2 items].
    cbn in *. exact IH.
Qed.

(** X7. The requests [sendBulkEmails] makes to the provider are, in the
    order of the subscribers, one for each subscriber whose rendered email
    [validateEmailData] accepts, and no other: whatever the provider
    answers, no request is made for a subscriber with an invalid address,
    and none is repeated after a failure. *)
Theorem sendBulkEmails_requests {provider : Type}
    (create : provider -> string -> obj -> provider * MailgunClient.Settled)
    (config : MailgunClient.Config) (st : provider) (subscribers : list obj)
    (emailTemplate : Template) (options : MailgunClient.Options) :
  List.filter is_create
    (MailgunClient.sendBulkEmails create config st subscribers emailTemplate options).2
  = map (fun subscriber =>
           MailgunClient.Create (MailgunClient.domain config)
             (MailgunClient.messageData config
                (MailgunClient.processedEmail emailTemplate subscriber)))
      (List.filter
         (fun subscriber => accepted (MailgunClient.processedEmail emailTemplate subscriber))
         subscribers).
Proof.
  rewrite sendBulkEmails_spec. cbn [snd].
  rewrite interleave_creates by apply send_each_effects.
  apply send_each_requests.
Qed.

(** ** logger.js: [escapeCSVField] *)

Lemma string_app_assoc (s t u : string) : (s +:+ t) +:+ u = s +:+ (t +:+ u).
Proof.
  induction s as [|c s IH]; [reflexivity|].
  rewrite !string_app_cons. now rewrite IH.
Qed.

Lemma includes_char (s : string) (c : ascii) :
  includes s (String c "") = negb (all_chars (fun d => negb (Ascii.eqb d c)) s).
Proof.
  induction s as [|d s IH]; [reflexivity|].
  cbn [includes all_chars String.prefix]. rewrite IH.
  destruct (ascii_dec c d) as [->|Hne].
  - rewrite Ascii.eqb_refl. now destruct s.
  - destruct (Ascii.eqb_spec d c) as [->|_]; [contradiction|]. reflexivity.
Qed.

Lemma escapeCSVField_cases (v : value) :
  (plain_text (cell_text v) = true /\ Logger.escapeCSVField v = cell_text v) \/
  Logger.escapeCSVField v
  = String Logger.dquote (Logger.double_quotes (cell_text v)) +:+ String Logger.dquote "".
Proof.
  assert (Hstr : forall s : string,
            (plain_text s = true /\
             (if includes s "," || includes s (String Logger.dquote "")
                 || includes s (String Logger.newline "")
              then String Logger.dquote (Logger.double_quotes s) +:+ String Logger.dquote ""
              else s) = s) \/
            (if includes s "," || includes s (String Logger.dquote "")
                || includes s (String Logger.newline "")
             then String Logger.dquote (Logger.double_quotes s) +:+ String Logger.dquote ""
             else s)
            = String Logger.dquote (Logger.double_quotes s) +:+ String Logger.dquote "").
  { intros s. rewrite !includes_char.
    assert (Hplain : plain_text s
                     = all_chars (fun d => negb (Ascii.eqb d ",")) s
                       && all_chars (fun d => negb (Ascii.eqb d Logger.dquote)) s
                       && all_chars (fun d => negb (Ascii.eqb d Logger.newline)) s).
    { unfold plain_text. induction s as [|d s IH]; [reflexivity|]. cbn [all_chars].
      rewrite IH.
      destruct (negb (Ascii.eqb d ",")); destruct (negb (Ascii.eqb d Logger.dquote));
        destruct (negb (Ascii.eqb d Logger.newline));
        destruct (all_chars (fun d => negb (Ascii.eqb d ",")) s);
        destruct (all_chars (fun d => negb (Ascii.eqb d Logger.dquote)) s);
        destruct (all_chars (fun d => negb (Ascii.eqb d Logger.newline)) s);
        reflexivity. }
    rewrite Hplain.
    destruct (all_chars (fun d => negb (Ascii.eqb d ",")) s);
      destruct (all_chars (fun d => negb (Ascii.eqb d Logger.dquote)) s);
      destruct (all_chars (fun d => negb (Ascii.eqb d Logger.newline)) s); cbn; auto. }
  destruct v; cbn [Logger.escapeCSVField cell_text]; apply Hstr.
Qed.

(** A plain text in front of the end of the record or of a comma. *)
Lemma read_unquoted_plain (s f : string) :
  plain_text s = true ->
  read_fields Unquoted f s = Some [f +:+ s] /\
  (forall rest : string,
      read_fields Unquoted f (s +:+ String "," rest)
      = cons (f +:+ s) <$> read_fields AtStart "" rest).
Proof.
  revert f. induction s as [|c s IH]; intros f Hplain.
  - rewrite string_app_nil_r. split; [reflexivity|]. intros rest. reflexivity.
  - cbn [plain_text all_chars] in Hplain.
    apply andb_true_iff in Hplain as [Hc Hs].
    apply andb_true_iff in Hc as [Hc Hnl]. apply andb_true_iff in Hc as [Hcomma Hquote].
    apply negb_true_iff in Hcomma, Hquote, Hnl.
    destruct (IH (f +:+ String c "") Hs) as [IHend IHcomma].
    rewrite string_app_assoc in IHend, IHcomma.
    split.
    + cbn [read_fields]. rewrite Hcomma, Hquote, Hnl. exact IHend.
    + intros rest. rewrite string_app_cons. cbn [read_fields].
      rewrite Hcomma, Hquote, Hnl. apply IHcomma.
Qed.

Lemma read_start_plain (s : string) :
  plain_text s = true ->
  read_fields AtStart "" s = Some [s] /\
  (forall rest : string,
      read_fields AtStart "" (s +:+ String "," rest)
      = cons s <$> read_fields AtStart "" rest).
Proof.
  intros Hplain. destruct s as [|c s].
  - split; [reflexivity|]. intros rest. reflexivity.
  - pose proof Hplain as Hall. cbn [plain_text all_chars] in Hplain.
    apply andb_true_iff in Hplain as [Hc Hs].
    apply andb_true_iff in Hc as [Hc Hnl]. apply andb_true_iff in Hc as [Hcomma Hquote].
    apply negb_true_iff in Hcomma, Hquote, Hnl.
    destruct (read_unquoted_plain s (String c "") Hs) as [Hend Hrest].
    split.
    + cbn [read_fields]. rewrite Hcomma, Hquote, Hnl. exact Hend.
    + intros rest. rewrite string_app_cons. cbn [read_fields].
      rewrite Hcomma, Hquote, Hnl. apply Hrest.
Qed.

(** A quoted text, from inside its quotes on. *)
Lemma read_quoted_text (s f rest : string) :
  read_fields Quoted f (Logger.double_quotes s +:+ String Logger.dquote rest)
  = read_fields QuoteSeen (f +:+ s) rest.
Proof.
  revert f. induction s as [|c s IH]; intros f.
  - rewrite string_app_nil_r. cbn. reflexivity.
  - cbn [Logger.double_quotes]. destruct (Ascii.eqb_spec c Logger.dquote) as [->|Hne].
    + rewrite !string_app_cons. cbn [read_fields]. rewrite ?Ascii.eqb_refl.
      cbn [read_fields]. rewrite ?Ascii.eqb_refl. rewrite IH.
      now rewrite string_app_assoc.
    + rewrite string_app_cons. cbn [read_fields].
      destruct (Ascii.eqb_spec c Logger.dquote) as [->|_]; [contradiction|].
      rewrite IH. now rewrite string_app_assoc.
Qed.

(** A field as [escapeCSVField] writes it, at the end of the record or
    before a comma. *)
Lemma read_escaped_field (v : value) :
  read_fields AtStart "" (Logger.escapeCSVField v) = Some [cell_text v] /\
  (forall rest : string,
      read_fields AtStart "" (Logger.escapeCSVField v +:+ String "," rest)
      = cons (cell_text v) <$> read_fields AtStart "" rest).
Proof.
  destruct (escapeCSVField_cases v) as [[Hplain ->] | ->].
  - now apply read_start_plain.
  - split.
    + rewrite string_app_cons. cbn [read_fields]. rewrite ?Ascii.eqb_refl.
      now rewrite read_quoted_text.
    + intros rest. rewrite string_app_assoc, !string_app_cons.
      change ("" +:+ String "," rest) with (String "," rest).
      cbn [read_fields]. rewrite ?Ascii.eqb_refl.
      rewrite read_quoted_text. reflexivity.
Qed.

(** X8. A record made of fields written by [escapeCSVField] and joined by
    commas, as [logger.log] and [exportResultsToCSV] make them, reads back
    field by field: the reader yields, for each value, the empty text when
    it is null or undefined and its string otherwise, also when the string
    holds commas, double quotes or line feeds. *)
Theorem escapeCSVField_reads_back (values : list value) :
  values <> [] ->
  read_csv_record (join_comma (map Logger.escapeCSVField values))
  = Some (map cell_text values).
Proof.
  unfold read_csv_record. induction values as [|v values IH]; [congruence|]. intros _.
  destruct values as [|w values].
  - cbn [map join_comma]. apply read_escaped_field.
  - change (join_comma (map Logger.escapeCSVField (v :: w :: values)))
      with (Logger.escapeCSVField v +:+ ","
            +:+ join_comma (map Logger.escapeCSVField (w :: values))).
    change ("," +:+ ?r) with (String "," r).
    rewrite (proj2 (read_escaped_field v)), IH by congruence. reflexivity.
Qed.

Lemma escapeCSVField_reads_back_witness :
  read_csv_record
    (join_comma
       (map Logger.escapeCSVField
          [JStr "2024-01-01T00:00:00.000Z"; JStr "a@b.co"; JStr "failed"; JUndefined;
           JStr ("Rejected, " +:+ CsvParser.quoted "quota" +:+ " exceeded")]))
  = Some (map cell_text
            [JStr "2024-01-01T00:00:00.000Z"; JStr "a@b.co"; JStr "failed"; JUndefined;
             JStr ("Rejected, " +:+ CsvParser.quoted "quota" +:+ " exceeded")]).
Proof.
  apply (escapeCSVField_reads_back
           [JStr "2024-01-01T00:00:00.000Z"; JStr "a@b.co"; JStr "failed"; JUndefined;
            JStr ("Rejected, " +:+ CsvParser.quoted "quota" +:+ " exceeded")]).
  discriminate.
Defined.

(** ** logger.js: [groupLogsByStatus] *)

Lemma group_entry_eq (groups : gmap string (list obj)) (entry : obj) :
  Logger.group_entry groups entry
  = match groups !! status_key entry with
    | Some group => Ok (<[status_key entry := group ++ [entry]]> groups)
    | None =>
        match Object_prototype (status_key entry) with
        | Some _ => Throw CsvParser.TypeError
        | None => Ok (<[status_key entry := [entry]]> groups)
        end
    end.
Proof. reflexivity. Qed.

Lemma has_status_own (entry : obj) : has_status (status_key entry) entry = true.
Proof. unfold has_status. apply String.eqb_refl. Qed.

Lemma has_status_other (status : string) (entry : obj) :
  status_key entry <> status -> has_status status entry = false.
Proof. intros Hne. unfold has_status. now apply String.eqb_neq. Qed.

Lemma extend_group_snoc (group : list obj) (entry : obj) (entries : list obj) :
  extend_group (Some (group ++ [entry])) entries
  = extend_group (Some group) (entry :: entries).
Proof.
  destruct entries as [|e entries]; [reflexivity|].
  unfold extend_group. simpl. now rewrite <- app_assoc.
Qed.

Lemma group_entries_ok (logData : list obj) :
  Forall (fun entry => Object_prototype (status_key entry) = None) logData ->
  forall groups : gmap string (list obj),
  exists groups' : gmap string (list obj),
    Logger.group_entries logData groups = Ok groups' /\
    forall status : string,
      groups' !! status
      = extend_group (groups !! status) (List.filter (has_status status) logData).
Proof.
  induction 1 as [|entry logData Hentry _ IH]; intros groups.
  - exists groups. split; [reflexivity|]. intros status. reflexivity.
  - cbn [Logger.group_entries]. rewrite group_entry_eq, Hentry.
    destruct (groups !! status_key entry) as [group|] eqn:Hgroup.
    + destruct (IH (<[status_key entry := group ++ [entry]]> groups)) as (groups' & Hrun & Hget).
      exists groups'. split; [exact Hrun|]. intros status. rewrite Hget.
      cbn [List.filter].
      destruct (decide (status_key entry = status)) as [<-|Hne].
      * rewrite lookup_insert_eq, has_status_own, Hgroup. apply extend_group_snoc.
      * rewrite lookup_insert_ne by exact Hne. now rewrite has_status_other.
    + destruct (IH (<[status_key entry := [entry]]> groups)) as (groups' & Hrun & Hget).
      exists groups'. split; [exact Hrun|]. intros status. rewrite Hget.
      cbn [List.filter].
      destruct (decide (status_key entry = status)) as [<-|Hne].
      * rewrite lookup_insert_eq, has_status_own, Hgroup.
        apply (extend_group_snoc [] entry).
      * rewrite lookup_insert_ne by exact Hne. now rewrite has_status_other.
Qed.

Lemma group_entries_throw (logData : list obj) :
  Exists (fun entry => Object_prototype (status_key entry) <> None) logData ->
  forall groups : gmap string (list obj),
    (forall k : string, is_Some (groups !! k) -> Object_prototype k = None) ->
    Logger.group_entries logData groups = Throw CsvParser.TypeError.
Proof.
  induction logData as [|entry logData IH]; intros Hex groups Hown.
  - inversion Hex.
  - cbn [Logger.group_entries]. rewrite group_entry_eq.
    destruct (Object_prototype (status_key entry)) as [member|] eqn:Hmember.
    + destruct (groups !! status_key entry) as [group|] eqn:Hgroup; [|reflexivity].
      rewrite Hown in Hmember by (rewrite Hgroup; eauto). discriminate.
    + assert (Hrest : Exists (fun entry => Object_prototype (status_key entry) <> None) logData).
      { inversion Hex as [? ? Hhere|]; [congruence|assumption]. }
      assert (Hown' : forall (group : list obj) (k : string),
                 is_Some (<[status_key entry := group]> groups !! k) ->
                 Object_prototype k = None).
      { intros group k. destruct (decide (status_key entry = k)) as [<-|Hne].
        - intros _. exact Hmember.
        - rewrite lookup_insert_ne by exact Hne. apply Hown. }
      destruct (groups !! status_key entry) as [group|];
        (apply IH; [exact Hrest|apply Hown']).
Qed.

(** X9. [groupLogsByStatus], on entries none of whose statuses names a
    member every object inherits: the group filed under a status holds
    exactly the entries of that status, in the order of the log; an entry
    without a status is filed under [unknown]; a status no entry has gets
    no group. *)
Theorem groupLogsByStatus_groups (logData : list obj) :
  Forall (fun entry => Object_prototype (status_key entry) = None) logData ->
  exists groups : gmap string (list obj),
    Logger.groupLogsByStatus logData = Ok groups /\
    forall status : string,
      groups !! status
      = match List.filter (has_status status) logData with
        | [] => None
        | group => Some group
        end.
Proof.
  intros Hplain.
  destruct (group_entries_ok logData Hplain ∅) as (groups & Hrun & Hget).
  exists groups. split; [exact Hrun|]. intros status. rewrite Hget, lookup_empty.
  now destruct (List.filter (has_status status) logData).
Qed.

Lemma groupLogsByStatus_groups_witness :
  exists groups : gmap string (list obj),
    Logger.groupLogsByStatus [Samples.log_success; Samples.log_failed; ∅; Samples.log_success]
    = Ok groups /\
    groups !! "success" = Some [Samples.log_success; Samples.log_success] /\
    groups !! "unknown" = Some [∅] /\
    groups !! "pending" = None.
Proof.
  destruct (groupLogsByStatus_groups
              [Samples.log_success; Samples.log_failed; ∅; Samples.log_success])
    as (groups & Hrun & Hget).
  - repeat (apply Forall_cons_2; [vm_compute; reflexivity|]). apply Forall_nil_2.
  - exists groups. split; [exact Hrun|]. rewrite !Hget.
    repeat split; vm_compute; reflexivity.
Defined.

(** X10. [groupLogsByStatus] throws on a log with an entry whose status
    names a member every object inherits, [constructor] or [toString] for
    one: the lookup [groups[status]] finds that member, no array is made,
    and the member has no [push]. *)
Theorem groupLogsByStatus_inherited_status (logData : list obj) :
  Exists (fun entry => Object_prototype (status_key entry) <> None) logData ->
  Logger.groupLogsByStatus logData = Throw CsvParser.TypeError.
Proof.
  intros Hex. apply group_entries_throw; [exact Hex|].
  intros k [group Hgroup]. rewrite lookup_empty in Hgroup. discriminate.
Qed.

Lemma groupLogsByStatus_inherited_status_witness :
  Logger.groupLogsByStatus [Samples.log_success; {[ "status" := JStr "constructor" ]}]
  = Throw CsvParser.TypeError.
Proof.
  apply (groupLogsByStatus_inherited_status
           [Samples.log_success; {[ "status" := JStr "constructor" ]}]).
  apply Exists_cons_tl, Exists_cons_hd. vm_compute. discriminate.
Defined.

(** ** logger.js: [getUniqueErrors] *)

(** X11. [getUniqueErrors] returns, ordered by their strings and without
    duplicates, exactly the errors of the entries whose status is the string
    failed, an entry without an error counting as Unknown error; no element
    is empty, null or undefined. *)
Theorem getUniqueErrors_sorted_distinct (logData : list obj) :
  Sorted (key_le toString) (Logger.getUniqueErrors logData) /\
  NoDup (Logger.getUniqueErrors logData) /\
  (forall e : value,
      e ∈ Logger.getUniqueErrors logData
      <-> exists entry : obj,
            entry ∈ logData /\ is_failed entry = true /\ e = error_of entry) /\
  (forall e : value, e ∈ Logger.getUniqueErrors logData -> truthy e = true).
Proof.
  assert (Helem : forall e : value,
             e ∈ Logger.getUniqueErrors logData
             <-> exists entry : obj,
                   entry ∈ logData /\ is_failed entry = true /\ e = error_of entry).
  { intros e. unfold Logger.getUniqueErrors. rewrite sort_by_elem, new_Set_elem.
    rewrite list_elem_of_In, in_map_iff. split.
    - intros (entry & <- & Hin). apply filter_In in Hin as [Hin Hfailed].
      exists entry. split; [now apply list_elem_of_In|]. split; [exact Hfailed|reflexivity].
    - intros (entry & Hin & Hfailed & ->). exists entry. split; [reflexivity|].
      apply filter_In. split; [now apply list_elem_of_In|exact Hfailed]. }
  split; [apply sort_by_sorted|]. split; [apply sort_by_NoDup, new_Set_NoDup|].
  split; [exact Helem|].
  intros e He. apply Helem in He as (entry & _ & _ & ->).
  unfold error_of, or_else. destruct (truthy (get entry "error")) eqn:E; [exact E|reflexivity].
Qed.

Example getUniqueErrors_of_a_log :
  Logger.getUniqueErrors
    [ {[ "status" := JStr "failed"; "error" := JStr "Rate limited" ]};
      Samples.log_success;
      {[ "status" := JStr "failed" ]};
      {[ "status" := JStr "failed"; "error" := JStr "Forbidden" ]};
      {[ "status" := JStr "failed"; "error" := JStr "Rate limited" ]} ]
  = [JStr "Forbidden"; JStr "Rate limited"; JStr "Unknown error"].
Proof. vm_compute. reflexivity. Qed.

(** ** logger.js: [formatDuration] *)

(** X12. For a duration of a whole number of milliseconds that is not
    negative and is below 2^53, where the whole numbers are doubles,
    [formatDuration] shows the whole seconds of the duration split into
    hours, minutes below 60 and seconds below 60: the hours are shown when
    there are any, the minutes when there are hours or minutes, the seconds
    always. *)
Theorem formatDuration_parts (milliseconds : Z) :
  (0 <= milliseconds < 9007199254740992)%Z ->
  exists h m s : Z,
    (0 <= h /\ 0 <= m < 60 /\ 0 <= s < 60 /\
     h * 3600 + m * 60 + s = milliseconds / 1000)%Z /\
    Logger.formatDuration milliseconds
    = if (0 <? h)%Z then
        toString (JNum h) +:+ "h " +:+ toString (JNum m) +:+ "m "
        +:+ toString (JNum s) +:+ "s"
      else if (0 <? m)%Z then toString (JNum m) +:+ "m " +:+ toString (JNum s) +:+ "s"
      else toString (JNum s) +:+ "s".
Proof.
  intros Hms. unfold Logger.formatDuration, Logger.Math_floor, Double.div.
  change 1000%Q with (inject_Z 1000). change 60%Q with (inject_Z 60).
  rewrite (floor_div milliseconds 1000)
    by (change (2 ^ 53)%Z with 9007199254740992%Z; lia).
  set (seconds := (milliseconds / 1000)%Z).
  assert (Hseconds : (0 <= seconds <= milliseconds)%Z)
    by (subst seconds; Z.div_mod_to_equations; lia).
  rewrite (floor_div seconds 60) by (change (2 ^ 53)%Z with 9007199254740992%Z; lia).
  set (minutes := (seconds / 60)%Z).
  assert (Hminutes : (0 <= minutes <= seconds)%Z)
    by (subst minutes; Z.div_mod_to_equations; lia).
  rewrite (floor_div minutes 60) by (change (2 ^ 53)%Z with 9007199254740992%Z; lia).
  set (hours := (minutes / 60)%Z).
  assert (Hhours : (0 <= hours <= minutes)%Z)
    by (subst hours; Z.div_mod_to_equations; lia).
  rewrite !Z.rem_mod_nonneg by lia.
  pose proof (Z.div_mod seconds 60 ltac:(lia)) as Hs.
  pose proof (Z.div_mod minutes 60 ltac:(lia)) as Hm.
  pose proof (Z.mod_pos_bound seconds 60 ltac:(lia)) as Hsb.
  pose proof (Z.mod_pos_bound minutes 60 ltac:(lia)) as Hmb.
  fold minutes in Hs. fold hours in Hm.
  rewrite !toString_exact by (change (2 ^ 53)%Z with 9007199254740992%Z; lia).
  exists hours, (minutes mod 60)%Z, (seconds mod 60)%Z.
  split; [lia|].
  destruct (Z.ltb_spec 0 hours) as [_|Hzero]; [reflexivity|].
  assert (Hsmall : (minutes mod 60 = minutes)%Z) by lia.
  rewrite Hsmall.
  destruct (Z.ltb_spec 0 minutes) as [_|Hzero']; [reflexivity|].
  assert (Hsmall' : (seconds mod 60 = seconds)%Z) by lia.
  now rewrite Hsmall'.
Qed.

Lemma formatDuration_parts_witness :
  exists h m s : Z,
    (0 <= h /\ 0 <= m < 60 /\ 0 <= s < 60 /\ h * 3600 + m * 60 + s = 3725999 / 1000)%Z /\
    Logger.formatDuration 3725999
    = if (0 <? h)%Z then
        toString (JNum h) +:+ "h " +:+ toString (JNum m) +:+ "m "
        +:+ toString (JNum s) +:+ "s"
      else if (0 <? m)%Z then toString (JNum m) +:+ "m " +:+ toString (JNum s) +:+ "s"
      else toString (JNum s) +:+ "s".
Proof.
  apply (formatDuration_parts 3725999). lia.
Defined.

Example formatDuration_examples :
  Logger.formatDuration 3725999 = "1h 2m 5s" /\
  Logger.formatDuration 125000 = "2m 5s" /\
  Logger.formatDuration 999 = "0s" /\
  Logger.formatDuration 3600000 = "1h 0m 0s".
Proof. repeat split; vm_compute; reflexivity. Qed.

(** Beyond 2^53 the quotients are rounded: 2^63 ms are
    9223372036854775.808 s, which the division gives as 9223372036854776,
    and the seconds shown are 56 where the whole seconds end in 55. *)
Example formatDuration_rounds :
  Logger.formatDuration (2 ^ 63) = "2562047788015h 12m 56s" /\
  ((2 ^ 63 / 1000) mod 60 = 55)%Z.
Proof. split; vm_compute; reflexivity. Qed.

(** ** logger.js: [createLogger], [logEmailResult] and [exportResultsToCSV] *)

Lemma log_fold (logPath : string) (clock : nat -> string)
    (items : list (nat * MailgunClient.SendResult)) :
  forall (fs : Logger.files) (content : string),
    fs !! logPath = Some content ->
    fold_left (fun fs '(k, result) => Logger.logEmailResult logPath (clock k) result fs)
      items fs
    = <[logPath :=
          fold_left (fun csvContent '(k, result) =>
                       csvContent +:+ Logger.csvLine (Logger.logEntry (clock k) result))
            items content]> fs.
Proof.
  induction items as [|[k result] items IH]; intros fs content Hcontent.
  - cbn [fold_left]. symmetry. now apply insert_id.
  - cbn [fold_left].
    unfold Logger.logEmailResult at 2, Logger.log, Logger.appendFile.
    rewrite Hcontent. cbn [default from_option id].
    rewrite (IH _ (content +:+ Logger.csvLine (Logger.logEntry (clock k) result)))
      by apply lookup_insert_eq.
    apply insert_insert_eq.
Qed.

Lemma csv_content_fold (clock : nat -> string) (results : list MailgunClient.SendResult) :
  forall (k : nat) (content : string),
    fold_left (fun csvContent '(j, result) =>
                 csvContent +:+ Logger.csvLine (Logger.logEntry (clock j) result))
      (imap (fun j => pair (k + j)%nat) results) content
    = content +:+ csv_lines_from clock k results.
Proof.
  induction results as [|result results IH]; intros k content.
  - cbn. now rewrite string_app_nil_r.
  - cbn [imap fold_left csv_lines_from]. rewrite Nat.add_0_r.
    rewrite <- string_app_assoc.
    rewrite <- (IH (S k)). f_equal. apply imap_ext. intros j r _. cbn. f_equal. lia.
Qed.

Lemma createLogger_lookup (logPath : string) (fs : Logger.files) :
  Logger.createLogger logPath fs !! logPath = Some (default Logger.headers (fs !! logPath)).
Proof.
  unfold Logger.createLogger. destruct (fs !! logPath) as [content|] eqn:Hcontent.
  - rewrite bool_decide_eq_true_2 by eauto. exact Hcontent.
  - rewrite bool_decide_eq_false_2 by (intros [? ?]; discriminate).
    apply lookup_insert_eq.
Qed.

Lemma log_results_spec (logPath : string) (clock : nat -> string)
    (results : list MailgunClient.SendResult) (fs : Logger.files) (content : string) :
  fs !! logPath = Some content ->
  log_results logPath clock results fs
  = <[logPath := content +:+ csv_lines clock results]> fs.
Proof.
  intros Hcontent. unfold log_results, csv_lines.
  rewrite (log_fold _ _ _ _ _ Hcontent). f_equal.
  apply (csv_content_fold clock results 0).
Qed.

(** X13. [exportResultsToCSV] writes the file that [createLogger] followed
    by one [logEmailResult] for each result, in their order, leaves at a
    path where there was no file: the header line, then one line for each
    result. *)
Theorem exportResultsToCSV_is_a_fresh_log (clock : nat -> string)
    (results : list MailgunClient.SendResult) (path : string) (fs : Logger.files) :
  fs !! path = None ->
  log_results path clock results (Logger.createLogger path fs)
  = Logger.exportResultsToCSV clock results path fs /\
  Logger.exportResultsToCSV clock results path fs !! path
  = Some (Logger.headers +:+ csv_lines clock results).
Proof.
  intros Hnone.
  assert (Hexport : Logger.exportResultsToCSV clock results path fs
                    = <[path := Logger.headers +:+ csv_lines clock results]> fs).
  { unfold Logger.exportResultsToCSV, csv_lines. f_equal.
    apply (csv_content_fold clock results 0). }
  split.
  - rewrite (log_results_spec path clock results _ Logger.headers).
    + rewrite Hexport. unfold Logger.createLogger.
      rewrite bool_decide_eq_false_2 by (rewrite Hnone; intros [? ?]; discriminate).
      apply insert_insert_eq.
    + rewrite createLogger_lookup, Hnone. reflexivity.
  - rewrite Hexport. apply lookup_insert_eq.
Qed.

Lemma exportResultsToCSV_is_a_fresh_log_witness :
  Logger.exportResultsToCSV (fun _ => "2024-01-01T00:00:00.000Z")
    [MailgunClient.mkSendResult (JStr "a@b.co")
       (MailgunClient.mkEmailResult false None None (Some (JStr "Forbidden, sorry")))]
    "out/results.csv" ∅ !! "out/results.csv"
  = Some (Logger.headers
          +:+ csv_lines (fun _ => "2024-01-01T00:00:00.000Z")
                [MailgunClient.mkSendResult (JStr "a@b.co")
                   (MailgunClient.mkEmailResult false None None
                      (Some (JStr "Forbidden, sorry")))]).
Proof.
  apply (exportResultsToCSV_is_a_fresh_log (fun _ => "2024-01-01T00:00:00.000Z")
           [MailgunClient.mkSendResult (JStr "a@b.co")
              (MailgunClient.mkEmailResult false None None (Some (JStr "Forbidden, sorry")))]
           "out/results.csv" ∅).
  reflexivity.
Defined.

(** X14. A log opened with [createLogger] and written with [logEmailResult]
    only grows: the file holds what it held before, or the header line when
    it did not exist, followed by one line for each result; every other
    file is left as it was; and opening the log again changes nothing, so
    the header line is written once. *)
Theorem createLogger_appends (clock : nat -> string)
    (results : list MailgunClient.SendResult) (logPath : string) (fs : Logger.files) :
  log_results logPath clock results (Logger.createLogger logPath fs) !! logPath
  = Some (default Logger.headers (fs !! logPath) +:+ csv_lines clock results) /\
  (forall other : string,
      other <> logPath ->
      log_results logPath clock results (Logger.createLogger logPath fs) !! other
      = fs !! other) /\
  Logger.createLogger logPath
    (log_results logPath clock results (Logger.createLogger logPath fs))
  = log_results logPath clock results (Logger.createLogger logPath fs).
Proof.
  rewrite (log_results_spec logPath clock results _ _ (createLogger_lookup logPath fs)).
  split; [apply lookup_insert_eq|]. split.
  - intros other Hother. rewrite lookup_insert_ne by congruence.
    unfold Logger.createLogger. destruct (negb _); [|reflexivity].
    now rewrite lookup_insert_ne by congruence.
  - unfold Logger.createLogger at 1.
    rewrite bool_decide_eq_true_2; [reflexivity|].
    rewrite lookup_insert_eq. eauto.
Qed.

(** ** mailgun-client.js: [getBulkEmailStats], against the log *)

Lemma logEntry_status (timestamp : string) (result : MailgunClient.SendResult) :
  get (Logger.logEntry timestamp result) "status"
  = JStr (if MailgunClient.success (MailgunClient.result result)
          then "success" else "failed").
Proof.
  unfold get, Logger.logEntry.
  rewrite lookup_insert_ne by discriminate.
  rewrite lookup_insert_ne by discriminate.
  now rewrite lookup_insert_eq.
Qed.

Lemma is_success_logEntry (timestamp : string) (result : MailgunClient.SendResult) :
  Logger.is_success (Logger.logEntry timestamp result)
  = MailgunClient.success (MailgunClient.result result).
Proof.
  unfold Logger.is_success. rewrite logEntry_status.
  now destruct (MailgunClient.success (MailgunClient.result result)).
Qed.

Lemma filter_imap_length {A B : Type} (p : B -> bool) (q : A -> bool) (l : list A) :
  forall f : nat -> A -> B,
    (forall k x, p (f k x) = q x) ->
    List.length (List.filter p (imap f l)) = List.length (List.filter q l).
Proof.
  induction l as [|x l IH]; intros f Hf; [reflexivity|].
  cbn [imap List.filter]. rewrite Hf.
  destruct (q x); cbn [List.length];
    rewrite (IH (f ∘ S)) by (intros; apply Hf); reflexivity.
Qed.

(** X15. The statistics [getBulkEmailStats] computes from the results of a
    run are those [getLogStats] computes from the log of the run, one entry
    logged for each result: the same total, the same number of successes
    and of failures, [successful + failed] being the total. The rate of
    [getBulkEmailStats] lies between 0 and 100, and the rate of
    [getLogStats], which is rounded to the hundredth, is within 0.005, and
    the error of the roundings, below 1e-11, of it. *)
Theorem getBulkEmailStats_agrees_with_log (clock : nat -> string)
    (results : list MailgunClient.SendResult) :
  MailgunClient.stats_total (MailgunClient.getBulkEmailStats results)
  = Logger.total (Logger.getLogStats (logged_entries clock results)) /\
  MailgunClient.stats_successful (MailgunClient.getBulkEmailStats results)
  = Logger.successful (Logger.getLogStats (logged_entries clock results)) /\
  MailgunClient.stats_failed (MailgunClient.getBulkEmailStats results)
  = Logger.failed (Logger.getLogStats (logged_entries clock results)) /\
  (MailgunClient.stats_successful (MailgunClient.getBulkEmailStats results)
   + MailgunClient.stats_failed (MailgunClient.getBulkEmailStats results)
   = MailgunClient.stats_total (MailgunClient.getBulkEmailStats results))%Z /\
  (0 <= MailgunClient.stats_successRate (MailgunClient.getBulkEmailStats results) /\
   MailgunClient.stats_successRate (MailgunClient.getBulkEmailStats results) <= 100 /\
   MailgunClient.stats_successRate (MailgunClient.getBulkEmailStats results)
   - (1 # 200) - (1 # 100000000000)
   <= Logger.successRate (Logger.getLogStats (logged_entries clock results)) /\
   Logger.successRate (Logger.getLogStats (logged_entries clock results))
   <= MailgunClient.stats_successRate (MailgunClient.getBulkEmailStats results)
      + (1 # 200) + (1 # 100000000000))%Q.
Proof.
  unfold MailgunClient.getBulkEmailStats, Logger.getLogStats, logged_entries.
  cbn [MailgunClient.stats_total MailgunClient.stats_successful MailgunClient.stats_failed
       MailgunClient.stats_successRate Logger.total Logger.successful Logger.failed
       Logger.successRate].
  rewrite length_imap.
  rewrite (filter_imap_length Logger.is_success
             (fun r => MailgunClient.success (MailgunClient.result r)))
    by (intros; apply is_success_logEntry).
  pose proof (filter_complement_length
                (fun r => MailgunClient.success (MailgunClient.result r)) results) as Hsum.
  cbv beta in Hsum.
  set (t := Z.of_nat (List.length results)).
  set (k := Z.of_nat (List.length
                        (List.filter (fun r => MailgunClient.success (MailgunClient.result r))
                           results))).
  assert (Hfailed : Z.of_nat (List.length
                      (List.filter
                         (fun r => negb (MailgunClient.success (MailgunClient.result r)))
                         results)) = (t - k)%Z) by (subst t k; lia).
  rewrite Hfailed.
  split; [reflexivity|]. split; [reflexivity|]. split; [reflexivity|]. split; [lia|].
  destruct (Z.ltb_spec 0 t) as [Ht|Ht].
  - destruct (quotient_bounds k t ltac:(subst t k; lia) Ht) as [Hq0 Hq1].
    destruct (rate_steps (inject_Z k / inject_Z t) Hq0 Hq1)
      as ((Hb0 & Hb1 & Hb2 & Hb3) & _ & (_ & _ & Hr1 & Hr2)).
    unfold Logger.Math_round.
    set (bulk := Double.mul (Double.rn (inject_Z k / inject_Z t)) 100) in *.
    change (Double.mul (Double.div (inject_Z k) (inject_Z t)) 100) with bulk.
    set (logged := Double.div (inject_Z (Qfloor (Double.mul bulk 100 + (1 # 2)))) 100) in *.
    set (q := (inject_Z k / inject_Z t)%Q) in *.
    clearbody logged bulk q. repeat split; lra.
  - repeat split; lra.
Qed.

(** ** confirmation-links.js: issuing and validating tokens *)

Lemma lower_char_idempotent (c : ascii) : lower_char (lower_char c) = lower_char c.
Proof. destruct c as [[] [] [] [] [] [] [] []]; reflexivity. Qed.

Lemma toLowerCase_idempotent (s : string) : toLowerCase (toLowerCase s) = toLowerCase s.
Proof.
  induction s as [|c s IH]; [reflexivity|]. cbn [toLowerCase].
  now rewrite lower_char_idempotent, IH.
Qed.

Lemma trimStart_shape (s : string) :
  trimStart s = "" \/ exists c t, trimStart s = String c t /\ is_space c = false.
Proof.
  induction s as [|c s IH]; [now left|]. cbn [trimStart].
  destruct (is_space c) eqn:E; [exact IH|]. right. now exists c, s.
Qed.

Lemma trimEnd_idempotent (s : string) : trimEnd (trimEnd s) = trimEnd s.
Proof.
  induction s as [|c s IH]; [reflexivity|]. cbn [trimEnd].
  destruct (trimEnd s) as [|d t] eqn:E.
  - destruct (is_space c) eqn:Hc; [reflexivity|]. cbn [trimEnd]. now rewrite Hc.
  - cbn [trimEnd]. cbn [trimEnd] in IH. now rewrite IH.
Qed.

Lemma trimStart_trimEnd (c : ascii) (s : string) :
  is_space c = false -> trimStart (trimEnd (String c s)) = trimEnd (String c s).
Proof.
  intros Hc. cbn [trimEnd]. destruct (trimEnd s); rewrite ?Hc; cbn [trimStart]; now rewrite Hc.
Qed.

Lemma trim_idempotent (s : string) : trim (trim s) = trim s.
Proof.
  unfold trim. destruct (trimStart_shape s) as [->|(c & t & -> & Hc)]; [reflexivity|].
  rewrite (trimStart_trimEnd c t Hc). apply trimEnd_idempotent.
Qed.

Lemma normalized_idempotent (e : string) : normalized (normalized e) = normalized e.
Proof.
  unfold normalized. rewrite (toLowerCase_trim (toLowerCase e)), toLowerCase_idempotent.
  apply trim_idempotent.
Qed.

Lemma normalized_nil (e : string) : normalized e <> "" -> e <> "".
Proof. intros Hne ->. now apply Hne. Qed.

Lemma get_singleton (k : string) (v : value) : get {[ k := v ]} k = v.
Proof. unfold get. now rewrite lookup_singleton_eq. Qed.

Lemma all_chars_substring (p : ascii -> bool) (n : nat) (s : string) :
  all_chars p s = true -> all_chars p (String.substring 0 n s) = true.
Proof.
  revert s. induction n as [|n IH]; intros [|c s] Hs; try reflexivity.
  cbn [String.substring all_chars] in *. apply andb_true_iff in Hs as [Hc Hs].
  now rewrite Hc, IH.
Qed.

Lemma length_substring (n : nat) (s : string) :
  (n <= String.length s)%nat -> String.length (String.substring 0 n s) = n.
Proof.
  revert s. induction n as [|n IH]; intros [|c s] Hs; try reflexivity.
  - cbn in Hs. lia.
  - cbn [String.substring String.length] in *. rewrite IH; lia.
Qed.

Lemma all_chars_impl (p q : ascii -> bool) (s : string) :
  (forall c, p c = true -> q c = true) -> all_chars p s = true -> all_chars q s = true.
Proof.
  intros Hpq. induction s as [|c s IH]; [reflexivity|]. cbn [all_chars].
  intros H. apply andb_true_iff in H as [Hc Hs]. now rewrite (Hpq c Hc), IH.
Qed.

Lemma is_hex_lower_unreserved (c : ascii) :
  ConfirmationLinks.is_hex_lower c = true -> is_unreserved c = true.
Proof. destruct c as [[] [] [] [] [] [] [] []]; intros H; (reflexivity || discriminate H). Qed.

Lemma is_hex_lower_no_dot (c : ascii) :
  ConfirmationLinks.is_hex_lower c = true -> negb (Ascii.eqb c ".") = true.
Proof. destruct c as [[] [] [] [] [] [] [] []]; intros H; (reflexivity || discriminate H). Qed.

Lemma percent_encode_unreserved (s : string) :
  all_chars is_unreserved s = true -> percent_encode s = s.
Proof.
  induction s as [|c s IH]; [reflexivity|]. cbn [all_chars percent_encode].
  intros H. apply andb_true_iff in H as [Hc Hs]. now rewrite Hc, IH.
Qed.

(** The first [n] characters of a digest. *)
Lemma digest_prefix (n : nat) (digest : string) :
  (n <= 64)%nat -> hex_digest digest = true ->
  String.length (String.substring 0 n digest) = n /\
  all_chars ConfirmationLinks.is_hex_lower (String.substring 0 n digest) = true.
Proof.
  intros Hn Hdigest. apply andb_true_iff in Hdigest as [Hlen Hhex].
  apply Nat.eqb_eq in Hlen. split.
  - apply length_substring. lia.
  - now apply all_chars_substring.
Qed.

Lemma length_nil (s : string) : String.length s <> 0%nat -> s <> "".
Proof. now intros H ->. Qed.

Section Confirmation.

Import ConfirmationLinks.

Variable hmac : string -> string -> string.
Variable secret : option string.

Lemma generateTokenForSubscriber_normalized (subscriber : obj) (e : string) :
  get subscriber "email" = JStr e -> e <> "" ->
  generateTokenForSubscriber hmac secret subscriber
  = Ok (substring0 32 (hmac (SECRET_KEY secret) (normalized e))).
Proof. intros He Hne. unfold generateTokenForSubscriber. rewrite He. cbn [truthy].
  destruct (String.eqb_spec e "") as [->|_]; [congruence|]. reflexivity.
Qed.

Lemma validateConfirmationToken_string (token : value) (e : string) :
  normalized e <> "" ->
  validateConfirmationToken hmac secret token (JStr e)
  = truthy token
    && strict_eq_str token (substring0 32 (hmac (SECRET_KEY secret) (normalized e))).
Proof.
  intros Hne. pose proof (normalized_nil e Hne) as He.
  unfold validateConfirmationToken. fold (normalized e).
  rewrite (generateTokenForSubscriber_normalized _ (normalized e) (get_singleton _ _) Hne).
  rewrite normalized_idempotent. cbn [truthy].
  destruct (String.eqb_spec e "") as [->|_]; [congruence|].
  destruct (truthy token); reflexivity.
Qed.

Lemma validateConfirmationToken_blank (token : value) (e : string) :
  normalized e = "" -> validateConfirmationToken hmac secret token (JStr e) = false.
Proof.
  intros Hblank. unfold validateConfirmationToken. fold (normalized e). rewrite Hblank.
  rewrite (generateTokenForSubscriber_no_email hmac secret)
    by (now rewrite get_singleton).
  now destruct (negb (truthy token) || negb (truthy (JStr e))).
Qed.

End Confirmation.

(** X16. A token [generateTokenForSubscriber] issues for a subscriber whose
    address is not blank is accepted by [validateConfirmationToken] for that
    address, and for every address with the same trimmed lower-case form;
    no other value is accepted as a token for the address. *)
Theorem validateConfirmationToken_accepts_issued_token
    (hmac : string -> string -> string) (secret : option string)
    (subscriber : obj) (e token : string) :
  get subscriber "email" = JStr e ->
  normalized e <> "" ->
  ConfirmationLinks.generateTokenForSubscriber hmac secret subscriber = Ok token ->
  token <> "" ->
  (forall e' : string,
      normalized e' = normalized e ->
      ConfirmationLinks.validateConfirmationToken hmac secret (JStr token) (JStr e') = true) /\
  (forall other : value,
      other <> JStr token ->
      ConfirmationLinks.validateConfirmationToken hmac secret other (JStr e) = false).
Proof.
  intros He Hne Hissued Htoken.
  rewrite (generateTokenForSubscriber_normalized hmac secret subscriber e He
             (normalized_nil e Hne)) in Hissued.
  injection Hissued as Hissued. split.
  - intros e' He'. rewrite validateConfirmationToken_string by (now rewrite He').
    rewrite He', Hissued. cbn [truthy strict_eq_str].
    rewrite String.eqb_refl. now destruct (String.eqb_spec token "").
  - intros other Hother. rewrite validateConfirmationToken_string by exact Hne.
    rewrite Hissued. destruct other as [| | | |t|]; cbn [strict_eq_str]; try apply andb_false_r.
    destruct (String.eqb_spec t token) as [->|_]; [congruence|apply andb_false_r].
Qed.

Lemma validateConfirmationToken_accepts_issued_token_witness :
  ConfirmationLinks.validateConfirmationToken Samples.sample_hex_hmac None
    (JStr "6a6f686e2e646f65406578616d706c65")
    (JStr "  John.Doe@Example.COM ") = true.
Proof.
  refine (proj1 (validateConfirmationToken_accepts_issued_token
                   Samples.sample_hex_hmac None
                   {[ "email" := JStr "john.doe@example.com" ]}
                   "john.doe@example.com" "6a6f686e2e646f65406578616d706c65" _ _ _ _)
            "  John.Doe@Example.COM " _).
  - reflexivity.
  - vm_compute. discriminate.
  - vm_compute. reflexivity.
  - discriminate.
  - vm_compute. reflexivity.
Defined.

(** X17. An address that is blank, white space only, is never confirmed:
    [validateConfirmationToken] refuses every token for it, also the token
    [generateTokenForSubscriber] issues for that very address. *)
Theorem validateConfirmationToken_rejects_blank_address
    (hmac : string -> string -> string) (secret : option string) (e : string) :
  normalized e = "" ->
  (forall token : value,
      ConfirmationLinks.validateConfirmationToken hmac secret token (JStr e) = false) /\
  (e <> "" ->
   exists issued : string,
     ConfirmationLinks.generateTokenForSubscriber hmac secret {[ "email" := JStr e ]}
     = Ok issued /\
     ConfirmationLinks.validateConfirmationToken hmac secret (JStr issued) (JStr e) = false).
Proof.
  intros Hblank. split.
  - intros token. now apply validateConfirmationToken_blank.
  - intros He. eexists. split.
    + apply (generateTokenForSubscriber_normalized hmac secret _ e (get_singleton _ _) He).
    + now apply validateConfirmationToken_blank.
Qed.

Lemma validateConfirmationToken_rejects_blank_address_witness :
  exists issued : string,
    ConfirmationLinks.generateTokenForSubscriber Samples.sample_hex_hmac None
      {[ "email" := JStr " " ]} = Ok issued /\
    ConfirmationLinks.validateConfirmationToken Samples.sample_hex_hmac None
      (JStr issued) (JStr " ") = false.
Proof.
  apply (validateConfirmationToken_rejects_blank_address Samples.sample_hex_hmac None " ").
  - reflexivity.
  - discriminate.
Defined.

(** X18. When the keyed hash is a digest in hexadecimal, the token issued
    for a subscriber is 32 characters of [0-9a-f]: [parseConfirmationToken]
    finds it valid and [encodeURIComponent] leaves it as it is. *)
Theorem generateTokenForSubscriber_token_format
    (hmac : string -> string -> string) (secret : option string)
    (subscriber : obj) (e : string) :
  get subscriber "email" = JStr e ->
  e <> "" ->
  hex_digest (hmac (ConfirmationLinks.SECRET_KEY secret) (normalized e)) = true ->
  exists token : string,
    ConfirmationLinks.generateTokenForSubscriber hmac secret subscriber = Ok token /\
    String.length token = 32%nat /\
    ConfirmationLinks.parseConfirmationToken (JStr token)
    = ConfirmationLinks.ParsedValid token /\
    encodeURIComponent (JStr token) = token.
Proof.
  intros He Hne Hdigest.
  destruct (digest_prefix 32 _ ltac:(lia) Hdigest) as [Hlen Hhex].
  exists (substring0 32 (hmac (ConfirmationLinks.SECRET_KEY secret) (normalized e))).
  split; [now apply generateTokenForSubscriber_normalized|].
  unfold substring0.
  set (token := String.substring 0 32 _) in *.
  assert (Htoken : token <> "") by (apply length_nil; rewrite Hlen; discriminate).
  split; [exact Hlen|]. split.
  - unfold ConfirmationLinks.parseConfirmationToken, ConfirmationLinks.hex_test.
    cbn [truthy]. rewrite Hlen, Hhex.
    now destruct (String.eqb_spec token "").
  - unfold encodeURIComponent. cbn [toString]. apply percent_encode_unreserved.
    exact (all_chars_impl _ _ _ is_hex_lower_unreserved Hhex).
Qed.

Lemma generateTokenForSubscriber_token_format_witness :
  exists token : string,
    ConfirmationLinks.generateTokenForSubscriber Samples.sample_hex_hmac None
      Samples.tagged_subscriber = Ok token /\
    String.length token = 32%nat /\
    ConfirmationLinks.parseConfirmationToken (JStr token)
    = ConfirmationLinks.ParsedValid token /\
    encodeURIComponent (JStr token) = token.
Proof.
  apply (generateTokenForSubscriber_token_format Samples.sample_hex_hmac None
           Samples.tagged_subscriber "user+tag@example.com").
  - vm_compute. reflexivity.
  - discriminate.
  - vm_compute. reflexivity.
Defined.

(** ** confirmation-links.js: tokens that expire *)

Lemma pieces_single (s : string) : no_dot s = true -> CsvParser.pieces "." s = [s].
Proof.
  unfold no_dot. induction s as [|c s IH]; [reflexivity|]. cbn [all_chars CsvParser.pieces].
  intros H. apply andb_true_iff in H as [Hc Hs]. apply negb_true_iff in Hc.
  now rewrite Hc, (IH Hs).
Qed.

Lemma pieces_first (s rest : string) :
  no_dot s = true ->
  CsvParser.pieces "." (s +:+ String "." rest) = s :: CsvParser.pieces "." rest.
Proof.
  unfold no_dot. induction s as [|c s IH]; [reflexivity|].
  rewrite string_app_cons. cbn [all_chars CsvParser.pieces].
  intros H. apply andb_true_iff in H as [Hc Hs]. apply negb_true_iff in Hc.
  now rewrite Hc, (IH Hs).
Qed.

Lemma string_of_uint_digits (d : Decimal.uint) :
  all_chars is_digit (NilEmpty.string_of_uint d) = true.
Proof. induction d; cbn [NilEmpty.string_of_uint all_chars]; auto. Qed.

Lemma take_digits_all (s : string) :
  all_chars is_digit s = true -> ConfirmationLinks.take_digits s = s.
Proof.
  induction s as [|c s IH]; [reflexivity|]. cbn [all_chars ConfirmationLinks.take_digits].
  intros H. apply andb_true_iff in H as [Hc Hs]. now rewrite Hc, (IH Hs).
Qed.

Lemma is_digit_plain (c : ascii) :
  is_digit c = true ->
  is_space c = false /\ Ascii.eqb c "-" = false /\ Ascii.eqb c "+" = false /\
  Ascii.eqb c "." = false.
Proof.
  destruct c as [[] [] [] [] [] [] [] []]; intros H;
    (discriminate H || (repeat split; reflexivity)).
Qed.

Lemma string_of_uint_nonnil (d : Decimal.uint) :
  d <> Decimal.Nil ->
  exists c s, NilEmpty.string_of_uint d = String c s /\ is_digit c = true.
Proof. destruct d; [congruence|..]; intros _; cbn; eauto. Qed.

Lemma parseInt_digits (d : Decimal.uint) :
  d <> Decimal.Nil ->
  ConfirmationLinks.parseInt (NilEmpty.string_of_uint d)
  = Some (Double.nearest (Z.of_uint d)) /\
  ConfirmationLinks.parseInt (String "-" (NilEmpty.string_of_uint d))
  = Some (Double.nearest (- Z.of_uint d)).
Proof.
  intros Hd. pose proof (string_of_uint_digits d) as Hall.
  pose proof (NilEmpty.usu d) as Hread.
  destruct (string_of_uint_nonnil d Hd) as (c & s & Hs & Hc).
  destruct (is_digit_plain c Hc) as (Hspace & Hminus & Hplus & _).
  rewrite Hs in *. unfold ConfirmationLinks.parseInt. split.
  - cbn [trimStart]. rewrite Hspace, Hminus, Hplus.
    rewrite (take_digits_all _ Hall). cbn [String.eqb]. now rewrite Hread.
  - cbn [trimStart]. change (is_space "-") with false. cbn iota.
    rewrite Ascii.eqb_refl.
    rewrite (take_digits_all _ Hall). cbn [String.eqb]. now rewrite Hread.
Qed.

(** Reading back a number that was printed with all its digits. *)
Lemma parseInt_toString (n : Z) :
  (Z.abs n < 2 ^ 53)%Z -> ConfirmationLinks.parseInt (toString (JNum n)) = Some n.
Proof.
  intros Hn. rewrite <- (nearest_exact n Hn) at 2.
  destruct n as [|p|p]; [reflexivity|..]; cbn [toString Z.to_int NilZero.string_of_int].
  - pose proof (DecimalPos.Unsigned.to_uint_nonnil p) as Hd.
    replace (NilZero.string_of_uint (Pos.to_uint p))
      with (NilEmpty.string_of_uint (Pos.to_uint p))
      by (now destruct (Pos.to_uint p)).
    rewrite (proj1 (parseInt_digits _ Hd)). unfold Z.of_uint.
    now rewrite DecimalPos.Unsigned.of_to.
  - pose proof (DecimalPos.Unsigned.to_uint_nonnil p) as Hd.
    replace (NilZero.string_of_uint (Pos.to_uint p))
      with (NilEmpty.string_of_uint (Pos.to_uint p))
      by (now destruct (Pos.to_uint p)).
    rewrite (proj2 (parseInt_digits _ Hd)). unfold Z.of_uint.
    now rewrite DecimalPos.Unsigned.of_to.
Qed.

Lemma toString_num_no_dot (n : Z) : no_dot (toString (JNum n)) = true.
Proof.
  assert (Hdigits : forall d, no_dot (NilZero.string_of_uint d) = true).
  { intros d. assert (H : no_dot (NilEmpty.string_of_uint d) = true).
    { apply (all_chars_impl is_digit); [|apply string_of_uint_digits].
      intros c Hc. destruct (is_digit_plain c Hc) as (_ & _ & _ & ->). reflexivity. }
    destruct d; exact H. }
  cbn [toString]. destruct (Z.to_int n) as [d|d]; cbn [NilZero.string_of_int].
  - apply Hdigits.
  - unfold no_dot. cbn [all_chars]. apply Hdigits.
Qed.

(** X19. Within the range of the dates (8.64e15 ms either side of the
    epoch, for the time of issue and for the time of expiry, and at most
    2.4e9 hours between them), where the times are doubles that are printed
    with all their digits: a token [createExpiringToken] issues at time
    [now] for a subscriber whose address is not blank, the hashes being
    digests in hexadecimal, expires [expirationHours] hours later, 24 when
    none are given; up to that time included [validateExpiringToken]
    accepts it for the address and returns the trimmed lower-case address
    and the date of expiry, and after that time it reports it expired. *)
Theorem validateExpiringToken_round_trip
    (hmac : string -> string -> string) (secret : option string)
    (sha256 : string -> string) (now : Z) (subscriber : obj) (e : string)
    (expirationHours : option Z) :
  get subscriber "email" = JStr e ->
  normalized e <> "" ->
  hex_digest (hmac (ConfirmationLinks.SECRET_KEY secret) (normalized e)) = true ->
  hex_digest
    (sha256
       ((normalized e +:+ ":"
         +:+ toString (JNum (now + default 24%Z expirationHours * 60 * 60 * 1000)))
        +:+ ConfirmationLinks.SECRET_KEY secret)) = true ->
  (Z.abs now <= 8640000000000000)%Z ->
  (Z.abs (default 24%Z expirationHours) <= 2400000000)%Z ->
  (Z.abs (now + default 24%Z expirationHours * 3600000) <= 8640000000000000)%Z ->
  exists issued : ConfirmationLinks.ExpiringToken,
    ConfirmationLinks.createExpiringToken hmac secret sha256 now subscriber expirationHours
    = Ok issued /\
    ConfirmationLinks.expirationTime issued
    = (now + default 24%Z expirationHours * 3600000)%Z /\
    ConfirmationLinks.expiresAt issued = Some (ConfirmationLinks.expirationTime issued) /\
    forall later : Z,
      ConfirmationLinks.validateExpiringToken hmac secret sha256 later
        (ConfirmationLinks.expiring_token issued) (JStr e)
      = if (ConfirmationLinks.expirationTime issued <? later)%Z
        then ConfirmationLinks.ExpiringInvalid "Token has expired" true
        else ConfirmationLinks.ExpiringValid (normalized e)
               (Some (ConfirmationLinks.expirationTime issued)).
Proof.
  intros He Hne Hbase Hhash Hnow Hhours Hexpiry.
  pose proof (normalized_nil e Hne) as Hnonempty.
  destruct (digest_prefix 32 _ ltac:(lia) Hbase) as [Hlen Hhex].
  destruct (digest_prefix 16 _ ltac:(lia) Hhash) as [_ Hhex'].
  unfold ConfirmationLinks.createExpiringToken.
  rewrite (generateTokenForSubscriber_normalized hmac secret subscriber e He Hnonempty).
  set (hours := default 24%Z expirationHours) in *.
  rewrite (nearest_exact (hours * 60))
    by (change (2 ^ 53)%Z with 9007199254740992%Z; lia).
  rewrite (nearest_exact (hours * 60 * 60))
    by (change (2 ^ 53)%Z with 9007199254740992%Z; lia).
  rewrite (nearest_exact (hours * 60 * 60 * 1000))
    by (change (2 ^ 53)%Z with 9007199254740992%Z; lia).
  assert (Hsame : (hours * 60 * 60 * 1000 = hours * 3600000)%Z) by lia.
  rewrite (nearest_exact (now + hours * 60 * 60 * 1000))
    by (change (2 ^ 53)%Z with 9007199254740992%Z; lia).
  set (expirationTime := (now + hours * 60 * 60 * 1000)%Z) in *.
  assert (Hrange : (Z.abs expirationTime <= 8640000000000000)%Z)
    by (subst expirationTime; rewrite Hsame; exact Hexpiry).
  assert (Hsmall : (Z.abs expirationTime < 2 ^ 53)%Z)
    by (change (2 ^ 53)%Z with 9007199254740992%Z; lia).
  rewrite (toString_exact expirationTime Hsmall).
  assert (Hdate : ConfirmationLinks.new_Date (Some expirationTime) = Some expirationTime).
  { unfold ConfirmationLinks.new_Date.
    destruct (Z.leb_spec (Z.abs expirationTime) 8640000000000000); [reflexivity|lia]. }
  rewrite He. unfold ConfirmationLinks.generateVerificationHash at 1. fold (normalized e).
  unfold substring0 in *.
  set (baseToken := String.substring 0 32 _) in *.
  set (verificationHash := String.substring 0 16 _) in *.
  eexists. split; [reflexivity|]. cbn [ConfirmationLinks.expirationTime
                                       ConfirmationLinks.expiring_token
                                       ConfirmationLinks.expiresAt].
  split; [subst expirationTime; lia|]. split; [exact Hdate|]. intros later.
  unfold ConfirmationLinks.validateExpiringToken.
  change ("." +:+ (toString (JNum expirationTime) +:+ "." +:+ verificationHash))
    with (String "." (toString (JNum expirationTime) +:+ String "." verificationHash)).
  rewrite pieces_first
    by (apply (all_chars_impl _ _ _ is_hex_lower_no_dot Hhex)).
  rewrite pieces_first by apply toString_num_no_dot.
  rewrite pieces_single
    by (apply (all_chars_impl _ _ _ is_hex_lower_no_dot Hhex')).
  rewrite (parseInt_toString expirationTime Hsmall). cbn [from_option].
  destruct (expirationTime <? later)%Z; [reflexivity|].
  rewrite validateConfirmationToken_string by exact Hne.
  unfold substring0. fold baseToken. cbn [truthy strict_eq_str].
  rewrite String.eqb_refl.
  assert (Hbase' : baseToken <> "") by (apply length_nil; rewrite Hlen; discriminate).
  destruct (String.eqb_spec baseToken "") as [|_]; [contradiction|]. cbn [negb andb].
  unfold ConfirmationLinks.generateVerificationHash. fold (normalized e).
  fold verificationHash. rewrite String.eqb_refl. cbn [negb]. now rewrite Hdate.
Qed.

Lemma validateExpiringToken_round_trip_witness :
  exists issued : ConfirmationLinks.ExpiringToken,
    ConfirmationLinks.createExpiringToken Samples.sample_hex_hmac None Samples.sample_sha256
      1700000000000 Samples.tagged_subscriber None = Ok issued /\
    ConfirmationLinks.expirationTime issued = (1700000000000 + 24 * 3600000)%Z /\
    ConfirmationLinks.expiresAt issued = Some (ConfirmationLinks.expirationTime issued) /\
    forall later : Z,
      ConfirmationLinks.validateExpiringToken Samples.sample_hex_hmac None
        Samples.sample_sha256 later
        (ConfirmationLinks.expiring_token issued) (JStr "user+tag@example.com")
      = if (ConfirmationLinks.expirationTime issued <? later)%Z
        then ConfirmationLinks.ExpiringInvalid "Token has expired" true
        else ConfirmationLinks.ExpiringValid (normalized "user+tag@example.com")
               (Some (ConfirmationLinks.expirationTime issued)).
Proof.
  apply (validateExpiringToken_round_trip Samples.sample_hex_hmac None Samples.sample_sha256
           1700000000000 Samples.tagged_subscriber "user+tag@example.com" None).
  - vm_compute. reflexivity.
  - vm_compute. discriminate.
  - vm_compute. reflexivity.
  - vm_compute. reflexivity.
  - vm_compute. discriminate.
  - vm_compute. discriminate.
  - vm_compute. discriminate.
Defined.

Example createExpiringToken_sample :
  ConfirmationLinks.expiring_token
    <$> match ConfirmationLinks.createExpiringToken Samples.sample_hex_hmac None
                Samples.sample_sha256 1700000000000 Samples.tagged_subscriber (Some 1%Z) with
        | Ok issued => Some issued
        | Throw _ => None
        end
  = Some "757365722b746167406578616d706c65.1700003600000.757365722b746167".
Proof. vm_compute. reflexivity. Qed.

(** Beyond the range of the dates the token is issued and accepted, with
    the Invalid Date as its date of expiry. *)
Example createExpiringToken_beyond_dates :
  match ConfirmationLinks.createExpiringToken Samples.sample_hex_hmac None
          Samples.sample_sha256 1700000000000 Samples.tagged_subscriber
          (Some 2400000000%Z) with
  | Ok issued =>
      ConfirmationLinks.expirationTime issued = 8641700000000000%Z /\
      ConfirmationLinks.expiresAt issued = None /\
      ConfirmationLinks.validateExpiringToken Samples.sample_hex_hmac None
        Samples.sample_sha256 1700000000000
        (ConfirmationLinks.expiring_token issued) (JStr "user+tag@example.com")
      = ConfirmationLinks.ExpiringValid "user+tag@example.com" None
  | Throw _ => False
  end.
Proof. vm_compute. repeat split. Qed.

(** From 1e21 on the time is printed with an exponent: of [1e+21]
    [parseInt] reads 1, and the token is found expired when it is issued;
    a time printed with a decimal point makes a token of four parts. *)
Example createExpiringToken_exponent :
  match ConfirmationLinks.createExpiringToken Samples.sample_hex_hmac None
          Samples.sample_sha256 2752512 Samples.tagged_subscriber
          (Some 277777777777777%Z) with
  | Ok issued =>
      ConfirmationLinks.expiring_token issued
      = "757365722b746167406578616d706c65.1e+21.757365722b746167" /\
      ConfirmationLinks.validateExpiringToken Samples.sample_hex_hmac None
        Samples.sample_sha256 2752512
        (ConfirmationLinks.expiring_token issued) (JStr "user+tag@example.com")
      = ConfirmationLinks.ExpiringInvalid "Token has expired" true
  | Throw _ => False
  end /\
  match ConfirmationLinks.createExpiringToken Samples.sample_hex_hmac None
          Samples.sample_sha256 0 Samples.tagged_subscriber
          (Some 300000000000000%Z) with
  | Ok issued =>
      ConfirmationLinks.expiring_token issued
      = "757365722b746167406578616d706c65.1.08e+21.757365722b746167" /\
      ConfirmationLinks.validateExpiringToken Samples.sample_hex_hmac None
        Samples.sample_sha256 0
        (ConfirmationLinks.expiring_token issued) (JStr "user+tag@example.com")
      = ConfirmationLinks.ExpiringInvalid "Invalid token format" false
  | Throw _ => False
  end.
Proof. vm_compute. repeat split. Qed.

(** ** csv-parser.js: [validateCSVStructure], on any rows *)

Lemma optional_trim_ok (v email : value) :
  CsvParser.optional_trim v = Ok email ->
  email = match v with JStr s => JStr (trim s) | _ => JUndefined end.
Proof. destruct v; cbn; congruence. Qed.

(** The loop, when it ends without a throw. *)
Lemma validate_rows_result (rows : list obj) :
  forall (i : nat) (validData : list obj) (skippedEmails : list CsvParser.Skipped)
         (validData' : list obj) (skippedEmails' : list CsvParser.Skipped),
    CsvParser.validate_rows rows (Z.of_nat i) validData skippedEmails
    = Ok (validData', skippedEmails') ->
    validData' = validData ++ List.filter valid_row rows /\
    skippedEmails' = skippedEmails ++ skipped_from i rows.
Proof.
  induction rows as [|row rows IH]; intros i validData skippedEmails validData' skippedEmails'.
  - cbn. intros [= <- <-]. now rewrite !app_nil_r.
  - cbn [CsvParser.validate_rows].
    destruct (CsvParser.optional_trim (or_else (get row "Email") (get row "email")))
      as [email|m] eqn:Htrim; [|discriminate].
    apply optional_trim_ok in Htrim. fold (trimmed_email row) in Htrim. subst email.
    rewrite skipped_from_cons. cbn [List.filter]. fold (valid_row row).
    replace (Z.of_nat i + 1)%Z with (Z.of_nat (S i)) by lia.
    destruct (valid_row row); cbn [negb]; intros Hrun; apply IH in Hrun as [-> ->].
    + now rewrite <- app_assoc.
    + rewrite <- !app_assoc. unfold skipped_entry.
      now replace (Z.of_nat i + 1)%Z with (Z.of_nat (S i)) by lia.
Qed.

Lemma skipped_from_length (rows : list obj) (i : nat) :
  List.length (skipped_from i rows)
  = List.length (List.filter (fun row => negb (valid_row row)) rows).
Proof.
  revert i. induction rows as [|row rows IH]; intros i; [reflexivity|].
  rewrite skipped_from_cons, length_app, IH. cbn [List.filter].
  now destruct (valid_row row).
Qed.

Lemma skipped_from_rows (rows : list obj) (i : nat) :
  Forall (fun skipped =>
            (Z.of_nat i < CsvParser.rowNumber skipped <= Z.of_nat (i + List.length rows))%Z
            /\ CsvParser.reason skipped = "Invalid email format"
            /\ truthy (CsvParser.skipped_email skipped) = true)
    (skipped_from i rows).
Proof.
  revert i. induction rows as [|row rows IH]; intros i; [apply Forall_nil_2|].
  rewrite skipped_from_cons. apply Forall_app. split.
  - destruct (valid_row row); [apply Forall_nil_2|].
    apply Forall_cons_2; [|apply Forall_nil_2]. cbn [skipped_entry CsvParser.rowNumber
      CsvParser.reason CsvParser.skipped_email List.length].
    split; [lia|]. split; [reflexivity|].
    unfold or_else. destruct (truthy (trimmed_email row)) eqn:E; [exact E|reflexivity].
  - eapply Forall_impl; [apply (IH (S i))|]. cbn [List.length].
    intros skipped (Hrow & Hreason & Hemail). split; [lia|]. now split.
Qed.

(** X20. Whenever [validateCSVStructure] returns, on rows of any kind, its
    counts add up: [validRows + skippedRows = totalRows], the number of
    rows, which is not 0; [validData] holds the rows whose address is
    valid, in their order; and every skipped entry names a row from 1 to
    [totalRows], the reason Invalid email format, and an address that is
    not empty: the trimmed one, or the word empty. *)
Theorem validateCSVStructure_counts (data : list obj) (v : CsvParser.Validation) :
  CsvParser.validateCSVStructure data = Ok v ->
  (CsvParser.validRows v + CsvParser.skippedRows v = CsvParser.totalRows v)%Z /\
  CsvParser.totalRows v = Z.of_nat (List.length data) /\
  (0 < CsvParser.totalRows v)%Z /\
  CsvParser.validData v = List.filter valid_row data /\
  CsvParser.validRows v = Z.of_nat (List.length (CsvParser.validData v)) /\
  CsvParser.skippedRows v = Z.of_nat (List.length (CsvParser.skippedEmails v)) /\
  Forall (fun skipped =>
            (1 <= CsvParser.rowNumber skipped <= CsvParser.totalRows v)%Z
            /\ CsvParser.reason skipped = "Invalid email format"
            /\ truthy (CsvParser.skipped_email skipped) = true)
    (CsvParser.skippedEmails v).
Proof.
  unfold CsvParser.validateCSVStructure. destruct data as [|firstRow rows]; [discriminate|].
  destruct (_ && _); [discriminate|].
  assert (Hlen : (0 < List.length (firstRow :: rows))%nat) by (cbn [List.length]; lia).
  remember (firstRow :: rows) as data eqn:Hdata. clear Hdata.
  destruct (CsvParser.validate_rows data 0 [] []) as [[validData skipped]|m]
    eqn:Hloop; [|discriminate].
  apply (validate_rows_result data 0) in Hloop as [-> ->].
  intros [= <-]. cbn [CsvParser.validRows CsvParser.skippedRows CsvParser.totalRows
                      CsvParser.validData CsvParser.skippedEmails app].
  pose proof (filter_complement_length valid_row data) as Hsum.
  rewrite <- (skipped_from_length data 0) in Hsum.
  split; [lia|]. split; [reflexivity|]. split; [lia|].
  split; [reflexivity|]. split; [reflexivity|]. split; [reflexivity|].
  eapply Forall_impl; [apply (skipped_from_rows data 0)|].
  intros skipped (Hrow & Hreason & Hemail). split; [|now split].
  change (0 + List.length data)%nat with (List.length data) in Hrow.
  lia.
Qed.

Lemma validateCSVStructure_counts_witness :
  (CsvParser.validRows
     (CsvParser.mkValidation
        [ {[ "email" := JStr "valid@example.com" ]};
          {[ "email" := JStr "another@valid.com"; "first_name" := JStr "Jane" ]} ]
        [CsvParser.mkSkipped 2 (JStr "not-an-email") "Invalid email format"] 3 2 1)
   + CsvParser.skippedRows
       (CsvParser.mkValidation
          [ {[ "email" := JStr "valid@example.com" ]};
            {[ "email" := JStr "another@valid.com"; "first_name" := JStr "Jane" ]} ]
          [CsvParser.mkSkipped 2 (JStr "not-an-email") "Invalid email format"] 3 2 1)
   = CsvParser.totalRows
       (CsvParser.mkValidation
          [ {[ "email" := JStr "valid@example.com" ]};
            {[ "email" := JStr "another@valid.com"; "first_name" := JStr "Jane" ]} ]
          [CsvParser.mkSkipped 2 (JStr "not-an-email") "Invalid email format"] 3 2 1))%Z.
Proof.
  apply (validateCSVStructure_counts Samples.three_rows).
  vm_compute. reflexivity.
Defined.

(** ** csv-parser.js: what [validateCSVStructure] throws *)

Lemma csv_row_column (row : obj) :
  csv_row row ->
  negb (truthy (or_else (get row "Email") (get row "email")))
  && negb (hasOwnProperty row "Email") && negb (hasOwnProperty row "email")
  = bool_decide (row !! "Email" = None /\ row !! "email" = None).
Proof.
  intros Hrow. unfold hasOwnProperty, get.
  destruct (row !! "Email") as [v|] eqn:HE; destruct (row !! "email") as [w|] eqn:He;
    repeat case_bool_decide;
    try (exfalso; match goal with H : ~ is_Some (Some _) |- _ => apply H; eauto end);
    try (exfalso; match goal with H : is_Some None |- _ => destruct H; discriminate end);
    try (exfalso; match goal with
                  | H : Some _ = None /\ _ |- _ => destruct H; discriminate
                  | H : _ /\ Some _ = None |- _ => destruct H; discriminate
                  end);
    try (exfalso; match goal with H : ~ (None = None /\ None = None) |- _ => apply H; auto end);
    cbn [negb]; rewrite ?andb_false_r; reflexivity.
Qed.

Lemma validateCSVStructure_cases (data : list obj) :
  Forall csv_row data ->
  match data with
  | [] => CsvParser.validateCSVStructure data = Throw empty_file
  | firstRow :: _ =>
      if bool_decide (firstRow !! "Email" = None /\ firstRow !! "email" = None)
      then CsvParser.validateCSVStructure data = Throw no_email_column
      else exists v : CsvParser.Validation, CsvParser.validateCSVStructure data = Ok v
  end.
Proof.
  intros Hrows. destruct data as [|firstRow rows]; [reflexivity|].
  unfold CsvParser.validateCSVStructure.
  rewrite (csv_row_column firstRow) by (now inversion Hrows).
  destruct (bool_decide _); [reflexivity|].
  pose proof (validate_rows_from (firstRow :: rows) 0 [] [] Hrows) as Hloop.
  change (Z.of_nat 0) with 0%Z in Hloop. rewrite Hloop. eauto.
Qed.

(** X21. On rows of strings, as the CSV reader yields them,
    [validateCSVStructure] throws in two cases only: CSV file is empty when
    there is no row, and the message of the missing column when the first
    row has neither an [Email] nor an [email] field. A first row with one
    of the two fields, be it empty, never makes it throw, and no invalid
    address does. *)
Theorem validateCSVStructure_errors (data : list obj) :
  Forall csv_row data ->
  (CsvParser.validateCSVStructure data = Throw empty_file <-> data = []) /\
  (CsvParser.validateCSVStructure data = Throw no_email_column
   <-> exists firstRow : obj,
         head data = Some firstRow /\
         firstRow !! "Email" = None /\ firstRow !! "email" = None) /\
  (forall m : value,
      CsvParser.validateCSVStructure data = Throw m -> m = empty_file \/ m = no_email_column).
Proof.
  intros Hrows. pose proof (validateCSVStructure_cases data Hrows) as Hcases.
  destruct data as [|firstRow rows].
  - rewrite Hcases. split; [now split|]. split.
    + split; [discriminate|]. intros (? & ? & _). discriminate.
    + intros m [= <-]. now left.
  - destruct (bool_decide_reflect (firstRow !! "Email" = None /\ firstRow !! "email" = None))
      as [Hnone|Hsome].
    + rewrite Hcases. split; [split; discriminate|]. split.
      * split; [|reflexivity]. intros _. exists firstRow. now split.
      * intros m [= <-]. now right.
    + destruct Hcases as [v Hv]. rewrite Hv. split; [split; discriminate|]. split.
      * split; [discriminate|]. intros (? & [= <-] & H1 & H2). now destruct Hsome.
      * discriminate.
Qed.

Lemma validateCSVStructure_errors_witness :
  CsvParser.validateCSVStructure [ {[ "name" := JStr "Jane" ]} ] = Throw no_email_column.
Proof.
  apply (proj1 (proj2 (validateCSVStructure_errors [ {[ "name" := JStr "Jane" ]} ]
                         ltac:(apply Forall_cons_2; [solve_csv_row|apply Forall_nil_2])))).
  exists {[ "name" := JStr "Jane" ]}. repeat split.
Defined.

(** ** csv-parser.js: the two revisions of [validateCSVStructure] *)

Lemma no_Email_trimmed (row : obj) :
  row !! "Email" = None ->
  or_else (get row "Email") (get row "email") = get row "email".
Proof. intros HE. unfold get at 1. now rewrite HE. Qed.

Lemma fail_fast_rows (rows : list obj) :
  Forall csv_row rows ->
  Forall (fun row => row !! "Email" = None) rows ->
  (CsvParserFailFast.validate_rows rows = Ok tt <-> forallb valid_row rows = true).
Proof.
  intros Hrows. induction Hrows as [|row rows Hrow _ IH]; intros Hno; [now split|].
  inversion Hno as [|? ? HE Hno']; subst.
  cbn [CsvParserFailFast.validate_rows forallb].
  pose proof (csv_row_trim row Hrow) as Htrim. rewrite (no_Email_trimmed row HE) in Htrim.
  rewrite Htrim. fold (valid_row row).
  destruct (valid_row row); cbn [negb andb]; [now apply IH|]. split; discriminate.
Qed.

Lemma all_valid_rows (rows : list obj) (i : nat) :
  (forallb valid_row rows = true -> List.filter valid_row rows = rows) /\
  (forallb valid_row rows = true <-> skipped_from i rows = []).
Proof.
  revert i. induction rows as [|row rows IH]; intros i; [now split|].
  rewrite skipped_from_cons. cbn [forallb List.filter].
  destruct (valid_row row); cbn [andb app].
  - destruct (IH (S i)) as [Hfilter Hskipped]. split; [|exact Hskipped].
    intros Hall. now rewrite Hfilter.
  - split; [discriminate|]. split; discriminate.
Qed.

(** X22. The two revisions of [validateCSVStructure] agree on the files the
    earlier one accepts: on rows of strings without an [Email] field, the
    earlier revision returns exactly when the current one returns with no
    row skipped, and the current one then gives back all the rows. *)
Theorem validateCSVStructure_extends_fail_fast (data : list obj) :
  Forall csv_row data ->
  Forall (fun row => row !! "Email" = None) data ->
  (CsvParserFailFast.validateCSVStructure data = Ok tt
   <-> exists v : CsvParser.Validation,
         CsvParser.validateCSVStructure data = Ok v /\ CsvParser.skippedEmails v = []) /\
  (CsvParserFailFast.validateCSVStructure data = Ok tt ->
   CsvParser.validateCSVStructure data
   = Ok (CsvParser.mkValidation data []
           (Z.of_nat (List.length data)) (Z.of_nat (List.length data)) 0)).
Proof.
  intros Hrows Hno.
  destruct data as [|firstRow rows].
  { split; [|discriminate]. split; [discriminate|]. intros (v & Hv & _). discriminate. }
  assert (HE : firstRow !! "Email" = None) by (now inversion Hno).
  pose proof (fail_fast_rows _ Hrows Hno) as Hfast.
  pose proof (validate_rows_from (firstRow :: rows) 0 [] [] Hrows) as Hloop.
  change (Z.of_nat 0) with 0%Z in Hloop.
  destruct (all_valid_rows (firstRow :: rows) 0) as [Hfilter Hskipped].
  unfold CsvParserFailFast.validateCSVStructure, CsvParser.validateCSVStructure.
  rewrite (csv_row_column firstRow) by (now inversion Hrows).
  rewrite Hloop. cbn [app]. unfold hasOwnProperty.
  destruct (firstRow !! "email") as [w|] eqn:He.
  - rewrite bool_decide_eq_true_2 by eauto.
    rewrite bool_decide_eq_false_2 by (intros [_ ?]; discriminate). cbn [negb].
    split.
    + rewrite Hfast, Hskipped. split.
      * intros Hnone. eexists. split; [reflexivity|exact Hnone].
      * intros (v & [= <-] & Hnone). exact Hnone.
    + intros Hok. apply Hfast in Hok. rewrite (Hfilter Hok).
      now rewrite (proj1 Hskipped Hok).
  - rewrite bool_decide_eq_false_2 by (intros [? ?]; discriminate).
    rewrite bool_decide_eq_true_2 by auto. cbn [negb].
    split; [|discriminate]. split; [discriminate|]. intros (v & Hv & _). discriminate.
Qed.

Lemma validateCSVStructure_extends_fail_fast_witness :
  CsvParser.validateCSVStructure
    [ {[ "email" := JStr "valid@example.com" ]};
      {[ "email" := JStr "another@valid.com"; "first_name" := JStr "Jane" ]} ]
  = Ok (CsvParser.mkValidation
          [ {[ "email" := JStr "valid@example.com" ]};
            {[ "email" := JStr "another@valid.com"; "first_name" := JStr "Jane" ]} ]
          [] 2 2 0).
Proof.
  apply (validateCSVStructure_extends_fail_fast
           [ {[ "email" := JStr "valid@example.com" ]};
             {[ "email" := JStr "another@valid.com"; "first_name" := JStr "Jane" ]} ]).
  - repeat (apply Forall_cons_2; [solve_csv_row|]). apply Forall_nil_2.
  - repeat (apply Forall_cons_2; [vm_compute; reflexivity|]). apply Forall_nil_2.
  - vm_compute. reflexivity.
Defined.

(** ** csv-parser.js: [parseCSV], from the rows of the CSV reader on *)

Lemma trimmed_cells_get (chunk : gmap string string) (k : string) :
  Object_prototype k = None ->
  get ((fun value => JStr (trim value)) <$> delete "__proto__" chunk) k = JUndefined \/
  exists x : string,
    get ((fun value => JStr (trim value)) <$> delete "__proto__" chunk) k = JStr (trim x).
Proof.
  intros Hk. unfold get. rewrite lookup_fmap, Hk.
  destruct (delete "__proto__" chunk !! k) as [x|]; cbn; eauto.
Qed.

Lemma trimmed_cells_row (chunk : gmap string string) :
  csv_row ((fun value => JStr (trim value)) <$> delete "__proto__" chunk).
Proof.
  intros k v Hv. rewrite lookup_fmap in Hv.
  destruct (delete "__proto__" chunk !! k); cbn in Hv; [|discriminate].
  injection Hv as <-. reflexivity.
Qed.

(** One of the three copies the generator makes. *)
Lemma copy_get (o : obj) (from to k : string) :
  k <> to ->
  get (if CsvParser.is_defined (get o from) then <[to := get o from]> o else o) k = get o k.
Proof.
  intros Hk. destruct (CsvParser.is_defined (get o from)); [|reflexivity].
  unfold get at 1 3. now rewrite lookup_insert_ne by congruence.
Qed.

Lemma copy_row (o : obj) (from to : string) :
  Object_prototype from = None -> csv_row o ->
  csv_row (if CsvParser.is_defined (get o from) then <[to := get o from]> o else o).
Proof.
  intros Hfrom Hrow. unfold get. destruct (o !! from) as [v|] eqn:Hv.
  - destruct (CsvParser.is_defined v); [|exact Hrow].
    apply map_Forall_insert_2; [|exact Hrow]. exact (Hrow _ _ Hv).
  - rewrite Hfrom. exact Hrow.
Qed.

Lemma normalizeChunk_row (chunk : gmap string string) :
  csv_row (CsvParser.normalizeChunk chunk).
Proof.
  unfold CsvParser.normalizeChunk.
  repeat (apply copy_row; [reflexivity|]). apply trimmed_cells_row.
Qed.

Lemma get_insert_eq (o : obj) (k : string) (v : value) : get (<[k := v]> o) k = v.
Proof. unfold get. now rewrite lookup_insert_eq. Qed.

Lemma get_insert_ne (o : obj) (k k' : string) (v : value) :
  k' <> k -> get (<[k := v]> o) k' = get o k'.
Proof. intros Hk. unfold get. now rewrite lookup_insert_ne by congruence. Qed.

(** The last copy, of [Email] to [email]. *)
Lemma copy_email (named : obj) :
  (get named "Email" = JUndefined \/ exists x : string, get named "Email" = JStr (trim x)) ->
  (get named "email" = JUndefined \/ exists y : string, get named "email" = JStr (trim y)) ->
  or_else
    (get (if CsvParser.is_defined (get named "Email")
          then <["email" := get named "Email"]> named else named) "Email")
    (get (if CsvParser.is_defined (get named "Email")
          then <["email" := get named "Email"]> named else named) "email")
  = get (if CsvParser.is_defined (get named "Email")
         then <["email" := get named "Email"]> named else named) "email" /\
  (get (if CsvParser.is_defined (get named "Email")
        then <["email" := get named "Email"]> named else named) "email" = JUndefined \/
   exists x : string,
     get (if CsvParser.is_defined (get named "Email")
          then <["email" := get named "Email"]> named else named) "email" = JStr (trim x)).
Proof.
  intros [HE|[x HE]] He.
  - rewrite HE. cbn [CsvParser.is_defined]. rewrite HE. split; [reflexivity|exact He].
  - rewrite HE. cbn [CsvParser.is_defined].
    rewrite get_insert_ne by discriminate. rewrite get_insert_eq, HE.
    split; [|eauto]. unfold or_else. now destruct (truthy (JStr (trim x))).
Qed.

Lemma normalizeChunk_email (chunk : gmap string string) :
  or_else (get (CsvParser.normalizeChunk chunk) "Email")
          (get (CsvParser.normalizeChunk chunk) "email")
  = get (CsvParser.normalizeChunk chunk) "email" /\
  (get (CsvParser.normalizeChunk chunk) "email" = JUndefined \/
   exists x : string, get (CsvParser.normalizeChunk chunk) "email" = JStr (trim x)).
Proof.
  unfold CsvParser.normalizeChunk. apply copy_email.
  - rewrite !copy_get by discriminate. now apply trimmed_cells_get.
  - rewrite !copy_get by discriminate. now apply trimmed_cells_get.
Qed.

Lemma normalizeChunk_valid (chunk : gmap string string) :
  valid_row (CsvParser.normalizeChunk chunk) = true ->
  CsvParser.validateEmail (get (CsvParser.normalizeChunk chunk) "email") = true.
Proof.
  unfold valid_row, trimmed_email.
  destruct (normalizeChunk_email chunk) as [-> [->|[x ->]]]; [discriminate|].
  now rewrite trim_idempotent.
Qed.

Lemma thrown_by_validateCSVStructure (data : list obj) (m : value) :
  Forall csv_row data ->
  CsvParser.validateCSVStructure data = Throw m -> m = empty_file \/ m = no_email_column.
Proof.
  intros Hrows Hthrow. pose proof (validateCSVStructure_cases data Hrows) as Hcases.
  destruct data as [|firstRow rows].
  - rewrite Hcases in Hthrow. injection Hthrow as <-. now left.
  - destruct (bool_decide _).
    + rewrite Hcases in Hthrow. injection Hthrow as <-. now right.
    + destruct Hcases as [v Hv]. congruence.
Qed.

(** X23. [parseCSV], from the rows of the CSV reader on. Every subscriber
    it returns has a valid address in its [email] field, also when the
    column of the file is named [Email], and is a row of the file with its
    cells trimmed; the only errors are those of [validateCSVStructure], CSV
    file is empty and the missing column, which are passed on as they are:
    no row makes the parsing fail. *)
Theorem parseCSV_subscribers_have_addresses (chunks : list (gmap string string)) :
  CsvParser.parseCSV chunks
  = CsvParser.validateCSVStructure (map CsvParser.normalizeChunk chunks) /\
  (forall m : value,
      CsvParser.parseCSV chunks = Throw m -> m = empty_file \/ m = no_email_column) /\
  (forall v : CsvParser.Validation,
      CsvParser.parseCSV chunks = Ok v ->
      Forall (fun subscriber =>
                CsvParser.validateEmail (get subscriber "email") = true /\
                exists chunk : gmap string string,
                  chunk ∈ chunks /\ subscriber = CsvParser.normalizeChunk chunk)
        (CsvParser.validData v)).
Proof.
  assert (Hrows : Forall csv_row (map CsvParser.normalizeChunk chunks)).
  { apply Forall_forall. intros row Hrow. apply list_elem_of_In, in_map_iff in Hrow.
    destruct Hrow as (chunk & <- & _). apply normalizeChunk_row. }
  assert (Hsame : CsvParser.parseCSV chunks
                  = CsvParser.validateCSVStructure (map CsvParser.normalizeChunk chunks)).
  { unfold CsvParser.parseCSV.
    destruct (CsvParser.validateCSVStructure (map CsvParser.normalizeChunk chunks))
      as [v|m] eqn:Hrun; [reflexivity|].
    destruct (thrown_by_validateCSVStructure _ m Hrows Hrun) as [-> | ->]; reflexivity. }
  split; [exact Hsame|]. rewrite Hsame. split.
  - intros m. now apply thrown_by_validateCSVStructure.
  - intros v Hv. unfold CsvParser.validateCSVStructure in Hv.
    destruct (map CsvParser.normalizeChunk chunks) as [|firstRow rows] eqn:Hmap;
      [discriminate|].
    destruct (_ && _); [discriminate|]. rewrite <- Hmap in *.
    destruct (CsvParser.validate_rows _ 0 [] []) as [[validData skipped]|m] eqn:Hloop;
      [|discriminate].
    apply (validate_rows_result _ 0) in Hloop as [-> ->]. injection Hv as <-.
    cbn [CsvParser.validData app]. apply Forall_forall. intros row Hrow.
    apply list_elem_of_In, filter_In in Hrow as [Hrow Hvalid].
    apply in_map_iff in Hrow as (chunk & <- & Hchunk). split.
    + now apply normalizeChunk_valid.
    + exists chunk. split; [now apply list_elem_of_In|reflexivity].
Qed.

Example parseCSV_capitalized_columns :
  CsvParser.validData
    <$> match CsvParser.parseCSV
                [ {[ "FirstName" := " Jane "; "Email" := "jane@example.com" ]};
                  {[ "FirstName" := "Joe"; "Email" := "joe(at)example.com" ]} ] with
        | Ok v => Some v
        | Throw _ => None
        end
  = Some [ {[ "FirstName" := JStr "Jane"; "firstName" := JStr "Jane";
              "Email" := JStr "jane@example.com"; "email" := JStr "jane@example.com" ]} ].
Proof. vm_compute. reflexivity. Qed.

(** ** csv-parser.js: [getCSVStats] *)

Lemma filter_exc_total {A : Type} (p : A -> exc bool) (l : list A) :
  Forall (fun x => exists b : bool, p x = Ok b) l ->
  CsvParser.filter_exc p l = Ok (List.filter (holds p) l).
Proof.
  induction 1 as [|x l [b Hb] _ IH]; [reflexivity|].
  cbn [CsvParser.filter_exc List.filter]. unfold holds at 1. now rewrite Hb, IH.
Qed.

Lemma csv_row_get_plain (row : obj) (k : string) :
  csv_row row -> Object_prototype k = None ->
  get row k = JUndefined \/ exists s : string, get row k = JStr s.
Proof.
  intros Hrow Hk. unfold get. destruct (row !! k) as [v|] eqn:E.
  - right. apply Hrow in E. destruct v; try discriminate. eauto.
  - left. now rewrite Hk.
Qed.

Lemma csv_row_name (row : obj) (upper lower : string) :
  csv_row row -> Object_prototype upper = None -> Object_prototype lower = None ->
  exists v : value,
    CsvParser.optional_trim (or_else (get row upper) (get row lower)) = Ok v.
Proof.
  intros Hrow Hupper Hlower.
  destruct (csv_row_get_plain row upper Hrow Hupper) as [-> | [s ->]];
    destruct (csv_row_get_plain row lower Hrow Hlower) as [-> | [t ->]];
    unfold or_else; cbn [truthy]; repeat case_match; cbn; eauto.
Qed.

Lemma csv_row_names (row : obj) :
  csv_row row ->
  (exists b : bool, CsvParser.has_first_name row = Ok b) /\
  (exists b : bool, CsvParser.has_last_name row = Ok b) /\
  (exists b : bool, CsvParser.has_full_name row = Ok b) /\
  holds CsvParser.has_full_name row
  = holds CsvParser.has_first_name row && holds CsvParser.has_last_name row.
Proof.
  intros Hrow.
  destruct (csv_row_name row "FirstName" "first_name" Hrow eq_refl eq_refl) as [v Hv].
  destruct (csv_row_name row "LastName" "last_name" Hrow eq_refl eq_refl) as [w Hw].
  unfold holds, CsvParser.has_full_name, CsvParser.has_first_name, CsvParser.has_last_name.
  rewrite Hv, Hw. destruct (truthy v); cbn; repeat split; eauto.
Qed.

Lemma filter_both_length {A : Type} (a b : A -> bool) (l : list A) :
  (List.length (List.filter (fun x => a x && b x) l) <= List.length (List.filter a l) /\
   List.length (List.filter (fun x => a x && b x) l) <= List.length (List.filter b l) /\
   List.length (List.filter a l) <= List.length l /\
   List.length (List.filter a l) + List.length (List.filter b l)
   <= List.length l + List.length (List.filter (fun x => a x && b x) l))%nat.
Proof.
  induction l as [|x l IH]; [cbn; lia|]. cbn [List.filter].
  destruct (a x), (b x); cbn [andb List.length]; lia.
Qed.

(** X24. On rows of strings [getCSVStats] returns, and its counts are
    consistent: the rows with a full name are among those with a first name
    and among those with a last name, the rows with a first or a last name
    are no more than all the rows, by inclusion and exclusion, and
    [emailOnly], which is not negative, counts the rows without a first
    name, be there a last name or not. *)
Theorem getCSVStats_counts (data : list obj) :
  Forall csv_row data ->
  exists stats : CsvParser.CSVStats,
    CsvParser.getCSVStats data = Ok stats /\
    CsvParser.totalSubscribers stats = Z.of_nat (List.length data) /\
    CsvParser.withFirstName stats
    = Z.of_nat (List.length (List.filter (holds CsvParser.has_first_name) data)) /\
    CsvParser.withLastName stats
    = Z.of_nat (List.length (List.filter (holds CsvParser.has_last_name) data)) /\
    CsvParser.withFullName stats
    = Z.of_nat (List.length
                  (List.filter (fun row => holds CsvParser.has_first_name row
                                           && holds CsvParser.has_last_name row) data)) /\
    CsvParser.emailOnly stats
    = Z.of_nat (List.length
                  (List.filter (fun row => negb (holds CsvParser.has_first_name row)) data)) /\
    (0 <= CsvParser.withFullName stats <= CsvParser.withFirstName stats)%Z /\
    (CsvParser.withFullName stats <= CsvParser.withLastName stats)%Z /\
    (CsvParser.withFirstName stats + CsvParser.withLastName stats
     - CsvParser.withFullName stats <= CsvParser.totalSubscribers stats)%Z.
Proof.
  intros Hrows. unfold CsvParser.getCSVStats.
  rewrite (filter_exc_total CsvParser.has_first_name)
    by (eapply Forall_impl; [exact Hrows|]; intros row Hrow; apply (csv_row_names row Hrow)).
  rewrite (filter_exc_total CsvParser.has_last_name)
    by (eapply Forall_impl; [exact Hrows|]; intros row Hrow; apply (csv_row_names row Hrow)).
  rewrite (filter_exc_total CsvParser.has_full_name)
    by (eapply Forall_impl; [exact Hrows|]; intros row Hrow; apply (csv_row_names row Hrow)).
  assert (Hfull : List.filter (holds CsvParser.has_full_name) data
                  = List.filter (fun row => holds CsvParser.has_first_name row
                                            && holds CsvParser.has_last_name row) data).
  { clear - Hrows. induction Hrows as [|row rows Hrow _ IH]; [reflexivity|].
    cbn [List.filter]. rewrite IH.
    now rewrite (proj2 (proj2 (proj2 (csv_row_names row Hrow)))). }
  rewrite Hfull. eexists. split; [reflexivity|].
  cbn [CsvParser.totalSubscribers CsvParser.withFirstName CsvParser.withLastName
       CsvParser.withFullName CsvParser.emailOnly].
  pose proof (filter_both_length (holds CsvParser.has_first_name)
                (holds CsvParser.has_last_name) data) as (H1 & H2 & H3 & H4).
  pose proof (filter_complement_length (holds CsvParser.has_first_name) data) as H5.
  repeat split; lia.
Qed.

Lemma getCSVStats_counts_witness :
  exists stats : CsvParser.CSVStats,
    CsvParser.getCSVStats
      [ {[ "email" := JStr "a@b.co"; "first_name" := JStr "Ann"; "last_name" := JStr "Lee" ]};
        {[ "email" := JStr "c@d.co"; "last_name" := JStr "Kim" ]};
        {[ "email" := JStr "e@f.co"; "first_name" := JStr " " ]} ] = Ok stats /\
    CsvParser.withFirstName stats = 1%Z /\
    CsvParser.withLastName stats = 2%Z /\
    CsvParser.withFullName stats = 1%Z /\
    CsvParser.emailOnly stats = 2%Z.
Proof.
  destruct (getCSVStats_counts
              [ {[ "email" := JStr "a@b.co"; "first_name" := JStr "Ann";
                   "last_name" := JStr "Lee" ]};
                {[ "email" := JStr "c@d.co"; "last_name" := JStr "Kim" ]};
                {[ "email" := JStr "e@f.co"; "first_name" := JStr " " ]} ])
    as (stats & Hrun & _ & Hfirst & Hlast & Hfull & Honly & _).
  - repeat (apply Forall_cons_2; [solve_csv_row|]). apply Forall_nil_2.
  - exists stats. split; [exact Hrun|]. rewrite Hfirst, Hlast, Hfull, Honly.
    repeat split; vm_compute; reflexivity.
Defined.

(** ** cli.js: [normalizeArguments] and [validateArguments] *)

Lemma normalizeArguments_unfold (args : obj) :
  Cli.normalizeArguments args
  = let copy (short long : string) (normalized : obj) : obj :=
      if CsvParser.is_defined (get args short) && negb (CsvParser.is_defined (get args long))
      then <[long := get args short]> normalized else normalized in
    copy "h" "help" (copy "v" "verbose" (copy "o" "output" (copy "t" "template"
      (copy "c" "csv" args)))).
Proof. reflexivity. Qed.

Lemma copy_long (args normalized : obj) (short long : string) :
  get normalized long = get args long ->
  get (if CsvParser.is_defined (get args short) && negb (CsvParser.is_defined (get args long))
       then <[long := get args short]> normalized else normalized) long
  = long_or_short args short long.
Proof.
  intros Hlong. unfold long_or_short.
  destruct (CsvParser.is_defined (get args long)) eqn:Hdefined.
  - now rewrite andb_false_r.
  - rewrite andb_true_r. destruct (CsvParser.is_defined (get args short)) eqn:Hshort.
    + apply get_insert_eq.
    + rewrite Hlong. destruct (get args long), (get args short); try discriminate. reflexivity.
Qed.

Lemma copy_other (args normalized : obj) (short long k : string) :
  k <> long ->
  get (if CsvParser.is_defined (get args short) && negb (CsvParser.is_defined (get args long))
       then <[long := get args short]> normalized else normalized) k
  = get normalized k.
Proof.
  intros Hk. destruct (_ && _); [|reflexivity]. now apply get_insert_ne.
Qed.

Lemma normalizeArguments_get (args : obj) :
  get (Cli.normalizeArguments args) "csv" = long_or_short args "c" "csv" /\
  get (Cli.normalizeArguments args) "template" = long_or_short args "t" "template" /\
  get (Cli.normalizeArguments args) "output" = long_or_short args "o" "output" /\
  get (Cli.normalizeArguments args) "verbose" = long_or_short args "v" "verbose" /\
  get (Cli.normalizeArguments args) "help" = long_or_short args "h" "help" /\
  (forall k : string,
      k ∉ ["csv"; "template"; "output"; "verbose"; "help"] ->
      get (Cli.normalizeArguments args) k = get args k).
Proof.
  rewrite normalizeArguments_unfold. cbv zeta.
  repeat split.
  - rewrite !copy_other by discriminate. now apply copy_long.
  - rewrite !copy_other by discriminate. apply copy_long. now rewrite !copy_other by discriminate.
  - rewrite !copy_other by discriminate. apply copy_long. now rewrite !copy_other by discriminate.
  - rewrite !copy_other by discriminate. apply copy_long. now rewrite !copy_other by discriminate.
  - apply copy_long. now rewrite !copy_other by discriminate.
  - intros k Hk. rewrite !copy_other; [reflexivity|..]; intros ->; apply Hk;
      repeat first [apply list_elem_of_here | apply list_elem_of_further].
Qed.

Lemma long_or_short_defined (args : obj) (short long : string) :
  CsvParser.is_defined (get args short) = true ->
  CsvParser.is_defined (long_or_short args short long) = true.
Proof.
  intros Hshort. unfold long_or_short.
  now destruct (CsvParser.is_defined (get args long)) eqn:E.
Qed.

Lemma long_or_short_truthy (args : obj) (short long : string) :
  truthy (long_or_short args short long) || truthy (get args short)
  = truthy (get args long) || truthy (get args short) /\
  or_else (long_or_short args short long) (get args short)
  = or_else (get args long) (get args short).
Proof.
  unfold long_or_short, or_else.
  destruct (get args long) eqn:E; cbn [CsvParser.is_defined truthy]; try (split; reflexivity).
  destruct (truthy (get args short)); split; reflexivity.
Qed.

(** X25. [normalizeArguments] gives each long name, [csv], [template],
    [output], [verbose] and [help], its own value when it has one and the
    value of its short name otherwise; it changes no other name; and
    normalizing again changes nothing. *)
Theorem normalizeArguments_long_names (args : obj) :
  (forall short long : string,
      (short, long) ∈ Cli.flagMappings ->
      get (Cli.normalizeArguments args) long = long_or_short args short long) /\
  (forall k : string,
      k ∉ Cli.flagMappings.*2 -> get (Cli.normalizeArguments args) k = get args k) /\
  Cli.normalizeArguments (Cli.normalizeArguments args) = Cli.normalizeArguments args.
Proof.
  destruct (normalizeArguments_get args) as (Hcsv & Htemplate & Houtput & Hverbose & Hhelp & Hother).
  split; [|split].
  - intros short long Hin. unfold Cli.flagMappings in Hin.
    repeat (apply elem_of_cons in Hin as [Hin|Hin];
            [injection Hin as -> ->; assumption|]).
    inversion Hin.
  - exact Hother.
  - set (normalized := Cli.normalizeArguments args).
    rewrite (normalizeArguments_unfold normalized). cbv beta zeta.
    assert (Hkeep : forall (short long : string) (o : obj),
               get normalized short = get args short ->
               get normalized long = long_or_short args short long ->
               (if CsvParser.is_defined (get normalized short)
                   && negb (CsvParser.is_defined (get normalized long))
                then <[long := get normalized short]> o else o) = o).
    { intros short long o Hshort Hlong. rewrite Hshort, Hlong.
      destruct (CsvParser.is_defined (get args short)) eqn:E; [|reflexivity].
      now rewrite (long_or_short_defined args short long E). }
    rewrite (Hkeep "c" "csv"), (Hkeep "t" "template"), (Hkeep "o" "output"),
      (Hkeep "v" "verbose"), (Hkeep "h" "help");
      first [reflexivity | assumption | apply Hother; vm_compute; intros Hin;
             repeat (apply elem_of_cons in Hin as [Hin|Hin]; [discriminate|]);
             inversion Hin].
Qed.

Section Arguments.

Variable Number : value -> Cli.number.

Lemma skips_validation_normalized (args : obj) :
  skips_validation (Cli.normalizeArguments args) = skips_validation args.
Proof.
  destruct (normalizeArguments_get args) as (_ & _ & _ & _ & Hhelp & Hother).
  unfold skips_validation. rewrite Hhelp.
  rewrite !(Hother "h"), !(Hother "version"), !(Hother "v")
    by (intros Hin; repeat (apply elem_of_cons in Hin as [Hin|Hin]; [discriminate|]);
        inversion Hin).
  now rewrite (proj1 (long_or_short_truthy args "h" "help")).
Qed.

Lemma validateArguments_unfold (args : obj) :
  Cli.validateArguments Number args
  = if skips_validation args then Ok (Cli.mkArgValidation true [])
    else
      let required (long short : string) (message : string) (errors : list string) :=
        if negb (truthy (get args long) || truthy (get args short))
        then errors ++ [message] else errors in
      let errors := required "csv" "c" "CSV file path is required (--csv)" [] in
      let errors :=
        required "template" "t" "Template file path is required (--template)" errors in
      let errors := required "output" "o" "Output file path is required (--output)" errors in
      match Cli.check_extension (or_else (get args "csv") (get args "c")) ".csv"
              "CSV file must have .csv extension" errors with
      | Throw m => Throw m
      | Ok errors =>
          match Cli.check_extension (or_else (get args "template") (get args "t")) ".json"
                  "Template file must have .json extension" errors with
          | Throw m => Throw m
          | Ok errors =>
              match Cli.check_extension (or_else (get args "output") (get args "o")) ".csv"
                      "Output file must have .csv extension" errors with
              | Throw m => Throw m
              | Ok errors =>
                  let errors :=
                    if CsvParser.is_defined (get args "rate-limit") then
                      if Cli.not_positive (Number (get args "rate-limit"))
                      then errors ++ ["Rate limit must be a positive number"]
                      else errors
                    else errors in
                  Ok (Cli.mkArgValidation (Nat.eqb (List.length errors) 0) errors)
              end
          end
      end.
Proof.
  unfold Cli.validateArguments. fold (skips_validation args). cbv zeta.
  rewrite !negb_orb. reflexivity.
Qed.

End Arguments.

(** X26. [validateArguments] gives the same answer before and after
    [normalizeArguments]: it reads every file under its long name or else
    its short one, and so does not depend on the copies the normalization
    makes. *)
Theorem validateArguments_normalized (Number : value -> Cli.number) (args : obj) :
  Cli.validateArguments Number (Cli.normalizeArguments args)
  = Cli.validateArguments Number args.
Proof.
  destruct (normalizeArguments_get args) as (Hcsv & Htemplate & Houtput & _ & _ & Hother).
  rewrite !validateArguments_unfold, skips_validation_normalized. cbv beta zeta.
  rewrite Hcsv, Htemplate, Houtput.
  rewrite !(Hother "c"), !(Hother "t"), !(Hother "o"), !(Hother "rate-limit")
    by (intros Hin; repeat (apply elem_of_cons in Hin as [Hin|Hin]; [discriminate|]);
        inversion Hin).
  rewrite !(proj1 (long_or_short_truthy args _ _)), !(proj2 (long_or_short_truthy args _ _)).
  reflexivity.
Qed.

Section Flags.

Variable Number : value -> Cli.number.

Lemma check_extension_cases (file : value) (ext message : string) (errors : list string) :
  (not_a_path file = true /\
   Cli.check_extension file ext message errors = Throw CsvParser.TypeError) \/
  (not_a_path file = false /\
   exists errors' : list string, Cli.check_extension file ext message errors = Ok errors').
Proof.
  unfold not_a_path, Cli.check_extension.
  destruct file as [| |b|n|s|r]; cbn [truthy is_string negb andb]; eauto;
    try (destruct b); try (destruct (negb (n =? 0)%Z)); try (destruct (negb (s =? "")%string));
    cbn [andb]; eauto.
Qed.

Lemma validateArguments_cases (args : obj) :
  skips_validation args = false ->
  if existsb not_a_path (file_flags args)
  then Cli.validateArguments Number args = Throw CsvParser.TypeError
  else exists validation : Cli.ArgValidation,
         Cli.validateArguments Number args = Ok validation.
Proof.
  intros Hskip. rewrite validateArguments_unfold, Hskip. cbv beta zeta.
  unfold file_flags. cbn [existsb].
  match goal with
  | |- context [Cli.check_extension _ ".csv" "CSV file must have .csv extension" ?e] =>
      destruct (check_extension_cases (or_else (get args "csv") (get args "c")) ".csv"
                  "CSV file must have .csv extension" e) as [[-> ->]|[-> [errors1 ->]]];
        [reflexivity|]
  end.
  destruct (check_extension_cases (or_else (get args "template") (get args "t")) ".json"
              "Template file must have .json extension" errors1)
    as [[-> ->]|[-> [errors2 ->]]]; [reflexivity|].
  destruct (check_extension_cases (or_else (get args "output") (get args "o")) ".csv"
              "Output file must have .csv extension" errors2)
    as [[-> ->]|[-> [errors3 ->]]]; [reflexivity|].
  cbn [orb]. eauto.
Qed.

End Flags.

(** X27. [validateArguments] makes no check at all when one of [help],
    [h], [version] and [v] is set, [v] being also the short name of
    [verbose]: every arguments object is then valid. Otherwise it throws
    exactly when a file flag, [csv], [template] or [output] under its long
    or else its short name, is given and is not a string, as a flag
    without a value is, and what it throws is the error of calling
    [endsWith] on it. *)
Theorem validateArguments_flags (Number : value -> Cli.number) (args : obj) :
  (skips_validation args = true ->
   Cli.validateArguments Number args = Ok (Cli.mkArgValidation true [])) /\
  (skips_validation args = false ->
   (existsb not_a_path (file_flags args) = true
    <-> Cli.validateArguments Number args = Throw CsvParser.TypeError)) /\
  (forall m : value,
      Cli.validateArguments Number args = Throw m ->
      m = CsvParser.TypeError /\ existsb not_a_path (file_flags args) = true).
Proof.
  split; [|split].
  - intros Hskip. now rewrite validateArguments_unfold, Hskip.
  - intros Hskip. pose proof (validateArguments_cases Number args Hskip) as Hcases.
    destruct (existsb not_a_path (file_flags args)).
    + now split.
    + destruct Hcases as [validation Hv]. rewrite Hv. split; discriminate.
  - intros m Hm. destruct (skips_validation args) eqn:Hskip.
    + rewrite validateArguments_unfold, Hskip in Hm. discriminate.
    + pose proof (validateArguments_cases Number args Hskip) as Hcases.
      destruct (existsb not_a_path (file_flags args)).
      * rewrite Hcases in Hm. injection Hm as <-. now split.
      * destruct Hcases as [validation Hv]. congruence.
Qed.

Lemma validateArguments_flags_witness :
  Cli.validateArguments (fun _ => Cli.NaN) {[ "v" := JBool true ]}
  = Ok (Cli.mkArgValidation true []).
Proof.
  apply (validateArguments_flags (fun _ => Cli.NaN) {[ "v" := JBool true ]}).
  reflexivity.
Defined.

(** ** cli.js: [parseArguments] *)

Lemma set_arg_values (key : string) (v : value) (args : obj) :
  flag_value v = true ->
  map_Forall (fun (_ : string) (w : value) => flag_value w = true) args ->
  map_Forall (fun (_ : string) (w : value) => flag_value w = true) (Cli.set_arg key v args).
Proof.
  intros Hv Hargs. unfold Cli.set_arg. destruct (String.eqb key "__proto__"); [exact Hargs|].
  now apply map_Forall_insert_2.
Qed.

Lemma pieces_two (s : string) :
  includes s "=" = true ->
  exists key value rest, CsvParser.pieces "=" s = key :: value :: rest.
Proof.
  rewrite includes_char. induction s as [|c s IH]; [discriminate|].
  cbn [all_chars CsvParser.pieces]. destruct (Ascii.eqb c "=") eqn:Hc; cbn [negb andb].
  - intros _. destruct s as [|d s]; [cbn; eauto|].
    destruct (CsvParser.pieces "=" (String d s)) as [|p ps] eqn:Hp; [|eauto].
    cbn in Hp. destruct (Ascii.eqb d "="); [discriminate|].
    destruct (CsvParser.pieces "=" s); discriminate.
  - intros Hs. destruct (IH Hs) as (key & value & rest & ->). eauto.
Qed.

Lemma includes_tail (c : ascii) (s t : string) :
  includes (String c s) t = true -> String.prefix t (String c s) = false ->
  includes s t = true.
Proof. intros H Hprefix. cbn [includes] in H. now rewrite Hprefix in H. Qed.

Lemma includes_after_dashes (arg : string) :
  startsWith arg "--" = true -> includes arg "=" = true ->
  includes (Cli.substring_from 2 arg) "=" = true.
Proof.
  unfold startsWith. destruct arg as [|a [|b arg]]; cbn [String.prefix].
  - discriminate.
  - destruct (ascii_dec "-" a); discriminate.
  - destruct (ascii_dec "-" a) as [Ha|]; [|discriminate].
    destruct (ascii_dec "-" b) as [Hb|]; [|discriminate]. subst a b.
    intros _ Hincludes. cbn [Cli.substring_from].
    apply includes_tail in Hincludes; [|reflexivity].
    now apply includes_tail in Hincludes.
Qed.

Lemma parse_from_values_bounded (n : nat) :
  forall (argv : list string) (args : obj),
    (List.length argv <= n)%nat ->
    map_Forall (fun (_ : string) (w : value) => flag_value w = true) args ->
    map_Forall (fun (_ : string) (w : value) => flag_value w = true)
      (Cli.parse_from argv args).
Proof.
  induction n as [|n IH]; intros argv args Hlen Hargs.
  - destruct argv; [exact Hargs|cbn in Hlen; lia].
  - destruct argv as [|arg rest]; [exact Hargs|]. cbn [List.length] in Hlen.
    assert (Hrest : forall args' : obj,
               map_Forall (fun (_ : string) (w : value) => flag_value w = true) args' ->
               map_Forall (fun (_ : string) (w : value) => flag_value w = true)
                 (Cli.parse_from rest args'))
      by (intros args'; apply IH; lia).
    assert (Hflag : forall key : string,
               map_Forall (fun (_ : string) (w : value) => flag_value w = true)
                 match rest with
                 | next :: rest' =>
                     if Cli.is_value next
                     then Cli.parse_from rest' (Cli.set_arg key (JStr next) args)
                     else Cli.parse_from rest (Cli.set_arg key (JBool true) args)
                 | [] => Cli.set_arg key (JBool true) args
                 end).
    { intros key. destruct rest as [|next rest'].
      - now apply set_arg_values.
      - destruct (Cli.is_value next).
        + apply IH; [cbn [List.length] in Hlen; lia|]. now apply set_arg_values.
        + apply Hrest. now apply set_arg_values. }
    cbn [Cli.parse_from].
    destruct (startsWith arg "--") eqn:Hlong.
    + destruct (includes arg "=") eqn:Hequals; [|apply Hflag].
      destruct (pieces_two _ (includes_after_dashes arg Hlong Hequals))
        as (key & value & more & ->).
      apply Hrest. now apply set_arg_values.
    + destruct (startsWith arg "-" && (1 <? String.length arg)%nat); [apply Hflag|].
      now apply Hrest.
Qed.

Lemma parse_from_values (argv : list string) (args : obj) :
  map_Forall (fun (_ : string) (w : value) => flag_value w = true) args ->
  map_Forall (fun (_ : string) (w : value) => flag_value w = true)
    (Cli.parse_from argv args).
Proof. apply (parse_from_values_bounded (List.length argv)). lia. Qed.

Lemma includes_app_char (s t : string) (c : ascii) :
  includes (s +:+ String c t) (String c "") = true.
Proof.
  rewrite includes_char. induction s as [|d s IH].
  - change ("" +:+ String c t) with (String c t). cbn [all_chars].
    now rewrite Ascii.eqb_refl.
  - rewrite string_app_cons. cbn [all_chars]. rewrite negb_andb, IH. apply orb_true_r.
Qed.

Lemma pieces_key (key rest : string) :
  no_equals key = true ->
  CsvParser.pieces "=" (key +:+ String "=" rest) = key :: CsvParser.pieces "=" rest.
Proof.
  unfold no_equals. induction key as [|c key IH]; [reflexivity|].
  rewrite string_app_cons. cbn [all_chars CsvParser.pieces].
  intros H. apply andb_true_iff in H as [Hc Hkey]. apply negb_true_iff in Hc.
  now rewrite Hc, (IH Hkey).
Qed.

Lemma pieces_head (s : string) : exists p ps, CsvParser.pieces "=" s = p :: ps.
Proof.
  induction s as [|c s (p & ps & IH)]; [cbn; eauto|]. cbn [CsvParser.pieces].
  rewrite IH. destruct (Ascii.eqb c "="); eauto.
Qed.

(** X28. Every value [parseArguments] stores is a string or [true]; and
    of an argument [--key=value] it stores, under [key], the part of the
    value that comes before its first equals sign: a value such as a URL
    with a query is cut there. *)
Theorem parseArguments_values (argv : list string) :
  map_Forall (fun (_ : string) (v : value) => flag_value v = true) (Cli.parseArguments argv) /\
  (forall (key value : string) (rest : list string) (args : obj),
      no_equals key = true ->
      Cli.parse_from (("--" +:+ key +:+ "=" +:+ value) :: rest) args
      = Cli.parse_from rest
          (Cli.set_arg key (JStr (default "" (head (CsvParser.pieces "=" value)))) args)).
Proof.
  split.
  - unfold Cli.parseArguments. apply parse_from_values. apply map_Forall_empty.
  - intros key value rest args Hkey.
    change ("--" +:+ key +:+ "=" +:+ value)
      with (String "-" (String "-" (key +:+ String "=" value))).
    cbn [Cli.parse_from]. unfold startsWith. cbn [String.prefix].
    destruct (ascii_dec "-" "-") as [_|Hne]; [|now destruct Hne].
    rewrite (includes_app_char (String "-" (String "-" key)) value "="
             : includes (String "-" (String "-" (key +:+ String "=" value))) "=" = true).
    replace (String.prefix "" (key +:+ String "=" value)) with true
      by (now destruct (key +:+ String "=" value)).
    cbn [Cli.substring_from]. rewrite (pieces_key _ _ Hkey).
    destruct (pieces_head value) as (p & ps & ->). reflexivity.
Qed.

Lemma parseArguments_values_witness :
  Cli.parse_from ["--confirmation-url=https://example.com/confirm?source=mail"] ∅
  = Cli.parse_from []
      (Cli.set_arg "confirmation-url"
         (JStr (default "" (head (CsvParser.pieces "=" "https://example.com/confirm?source=mail"))))
         ∅).
Proof.
  apply (proj2 (parseArguments_values [])
           "confirmation-url" "https://example.com/confirm?source=mail" [] ∅).
  reflexivity.
Defined.

Example parseArguments_command_line :
  Cli.parseArguments
    ["node"; "mailer"; "--csv=list.csv"; "-t"; "welcome.json"; "--dry-run";
     "--confirmation-url=https://example.com/confirm?source=mail"; "-o"]
  = {[ "csv" := JStr "list.csv"; "t" := JStr "welcome.json"; "dry-run" := JBool true;
       "confirmation-url" := JStr "https://example.com/confirm?source";
       "o" := JBool true ]}.
Proof. vm_compute. reflexivity. Qed.

(** A flag without a value, here the output file, stops the validation
    with a throw. *)
Example validateArguments_flag_without_value :
  Cli.validateArguments (fun _ => Cli.NaN)
    (Cli.normalizeArguments
       (Cli.parseArguments
          ["node"; "mailer"; "--csv=list.csv"; "-t"; "welcome.json"; "-o"]))
  = Throw CsvParser.TypeError.
Proof. vm_compute. reflexivity. Qed.

(** ** mailgun-client.js: [createMailgunClient] and [validateMailgunConnection] *)

Lemma validateMailgunConfig_fromName (config : obj) (fromName : value) :
  MailgunClient.validateMailgunConfig (<["fromName" := fromName]> config)
  = MailgunClient.validateMailgunConfig config.
Proof.
  unfold MailgunClient.validateMailgunConfig.
  now rewrite !get_insert_ne by discriminate.
Qed.

(** X29. [createMailgunClient] throws what [validateMailgunConfig] throws
    on the configuration as given, the name of the sender playing no part;
    when it returns, the configuration of the client has a key, a domain,
    a valid sender address and a sender name that is not empty, the given
    one or else Mailer, and every other field as it was given. *)
Theorem createMailgunClient_config (config : obj) :
  (forall m : value,
      MailgunClient.createMailgunClient config = Throw m
      <-> MailgunClient.validateMailgunConfig config = Throw m) /\
  (forall client : obj,
      MailgunClient.createMailgunClient config = Ok client ->
      truthy (get client "apiKey") = true /\
      truthy (get client "domain") = true /\
      CsvParser.validateEmail (get client "fromEmail") = true /\
      truthy (get client "fromName") = true /\
      get client "fromName" = or_else (get config "fromName") (JStr "Mailer") /\
      (forall k : string, k <> "fromName" -> client !! k = config !! k)).
Proof.
  unfold MailgunClient.createMailgunClient. cbv zeta.
  rewrite validateMailgunConfig_fromName. split.
  - intros m. destruct (MailgunClient.validateMailgunConfig config) as [[]|m'].
    + split; discriminate.
    + split; intros [= ->]; reflexivity.
  - intros client.
    destruct (MailgunClient.validateMailgunConfig config) as [[]|m'] eqn:Hvalid;
      [|discriminate].
    intros [= <-]. rewrite get_insert_eq, !get_insert_ne by discriminate.
    unfold MailgunClient.validateMailgunConfig in Hvalid.
    destruct (truthy (get config "apiKey")); [|discriminate].
    destruct (truthy (get config "domain")); [|discriminate].
    destruct (truthy (get config "fromEmail")); [|discriminate].
    destruct (CsvParser.validateEmail (get config "fromEmail")); [|discriminate].
    repeat split.
    + unfold or_else. destruct (truthy (get config "fromName")) eqn:E; [exact E|reflexivity].
    + intros k Hk. now rewrite lookup_insert_ne by congruence.
Qed.

Lemma createMailgunClient_config_witness :
  MailgunClient.createMailgunClient
    {[ "apiKey" := JStr "key-test"; "domain" := JStr "mg.example.com" ]}
  = Throw (JStr "From email address is required").
Proof.
  apply (proj1 (createMailgunClient_config
                  {[ "apiKey" := JStr "key-test"; "domain" := JStr "mg.example.com" ]})).
  reflexivity.
Defined.

(** X30. [validateMailgunConnection] makes no request for a test address
    that is not valid, and answers with the message of the check that
    failed; for a valid one it makes exactly one request, of the test
    message, and is valid exactly when the provider accepts it, the message
    being Connection successful or else the provider's error. *)
Theorem validateMailgunConnection_outcome {provider : Type}
    (create : provider -> string -> obj -> provider * MailgunClient.Settled)
    (config : MailgunClient.Config) (st : provider) (testEmail : value) :
  (CsvParser.validateEmail testEmail = false ->
   MailgunClient.validateMailgunConnection create config st testEmail
   = (st,
      MailgunClient.mkConnectionResult false
        (JStr (if truthy testEmail then "Invalid recipient email format"
               else "Recipient email is required")),
      [])) /\
  (CsvParser.validateEmail testEmail = true ->
   MailgunClient.validateMailgunConnection create config st testEmail
   = ((create st (MailgunClient.domain config)
         (MailgunClient.messageData config (MailgunClient.testEmailData testEmail))).1,
      match (create st (MailgunClient.domain config)
               (MailgunClient.messageData config (MailgunClient.testEmailData testEmail))).2
      with
      | MailgunClient.Resolved _ =>
          MailgunClient.mkConnectionResult true (JStr "Connection successful")
      | MailgunClient.Rejected m => MailgunClient.mkConnectionResult false m
      end,
      [MailgunClient.Create (MailgunClient.domain config)
         (MailgunClient.messageData config (MailgunClient.testEmailData testEmail))])).
Proof.
  unfold MailgunClient.validateMailgunConnection, MailgunClient.sendEmail,
    MailgunClient.validateEmailData.
  cbn [MailgunClient.to MailgunClient.email_subject MailgunClient.email_text
       MailgunClient.email_html MailgunClient.testEmailData truthy String.eqb Ascii.eqb
       Bool.eqb negb andb].
  split; intros Hvalid; rewrite Hvalid.
  - destruct (truthy testEmail); reflexivity.
  - assert (Htruthy : truthy testEmail = true).
    { destruct testEmail as [| | | |s|]; try discriminate.
      unfold CsvParser.validateEmail in Hvalid.
      destruct (negb (truthy (JStr s))) eqn:E; [discriminate|].
      now apply negb_false_iff in E. }
    rewrite Htruthy. cbn [negb].
    destruct (create st (MailgunClient.domain config) _) as [st' [response|m]]; reflexivity.
Qed.

Lemma validateMailgunConnection_outcome_witness :
  MailgunClient.validateMailgunConnection Samples.second_fails Samples.config 0%nat
    (JStr "not-an-email")
  = (0%nat,
     MailgunClient.mkConnectionResult false (JStr "Invalid recipient email format"),
     []).
Proof.
  apply (proj1 (validateMailgunConnection_outcome Samples.second_fails Samples.config 0%nat
                  (JStr "not-an-email"))).
  vm_compute. reflexivity.
Defined.
